(** * AI-Guider backend: credential failover, audio framing, request validation

    A shallow embedding of the orchestration code of the backend
    ([gemini_chat.py], [xtts_v2.py], [server.py]) and the properties of its
    credential pool, its retry loop, its speaker cache, its WAV framing and
    its request validation.

    Modelling conventions.
    - A Python [str] is the list of its code points ([Py.str]); [len] is the
      length of that list.
    - A value decoded by [json.load] / [request.get_json] is a [Py.pyval];
      a [dict] is an association list with unique keys, read by first match.
    - A Python [int] is a [Z].
    - A computation that may raise is a [Py.result]; code that mutates the
      key manager or the speaker cache threads the object explicitly and
      hands it back also when it raises.
    - The files of the machine are a finite map from paths to contents,
      threaded in the same way by the code that writes or removes files.
    - The remote text backend, the synthesis engine and the file system are
      oracles (function arguments or section variables): the theorems hold
      for every behaviour of them. *)

From Stdlib Require Import ZArith NArith List Bool Lia DecimalString Strings.Byte.
From stdpp Require Import base option list strings gmap.

#[local] Set Warnings "-register-all".
Local Open Scope Z_scope.

(* ===================================================================== *)
(** ** Python values, strings and exceptions                              *)
(* ===================================================================== *)

Module Py.

(** A [str] as its sequence of code points. *)
Definition str : Type := list N.

(** The [str] written by an ASCII literal of the source. *)
Definition lit (s : string) : str :=
  map Ascii.N_of_ascii (String.list_ascii_of_string s).
Arguments lit : simpl never.

(** [str(n)] for an [int]. *)
Definition str_of_Z (z : Z) : str := lit (NilZero.string_of_int (Z.to_int z)).

Inductive exn_class :=
| KeyError | IndexError | TypeError | AttributeError | ZeroDivisionError
| OSError | JSONDecodeError | WaveError | StructError
| Exception          (* the base class itself, as in [raise Exception(msg)] *)
| OtherException.    (* any other subclass of [Exception] *)

(** An exception object: its class and the text [str(e)] gives. *)
Record exn := Exn { exn_cls : exn_class; exn_str : str }.

Inductive result (A : Type) :=
| Ok (a : A)
| Raise (e : exn).
Arguments Ok {A} a.
Arguments Raise {A} e.

Definition bind {A B} (r : result A) (k : A -> result B) : result B :=
  match r with
  | Ok a => k a
  | Raise e => Raise e
  end.

Fixpoint str_eqb (a b : str) : bool :=
  match a, b with
  | [], [] => true
  | x :: a', y :: b' => (x =? y)%N && str_eqb a' b'
  | _, _ => false
  end.

Fixpoint startswith (p s : str) : bool :=
  match p, s with
  | [], _ => true
  | x :: p', y :: s' => (x =? y)%N && startswith p' s'
  | _ :: _, [] => false
  end.

(** [needle in hay] for two [str]. *)
Fixpoint contains (needle hay : str) : bool :=
  startswith needle hay ||
  match hay with
  | [] => false
  | _ :: hay' => contains needle hay'
  end.

(** [str.lower] on one code point.  ASCII capitals move to their small
    letters.  Outside ASCII only U+0130 and U+212A have a lower-case form
    that holds an ASCII code point; every other code point is kept as it
    is here, its lower-case form being outside ASCII as well. *)
Definition lower_cp (c : N) : list N :=
  if ((65 <=? c) && (c <=? 90))%N then [(c + 32)%N]
  else if (c =? 304)%N then [105; 775]%N
  else if (c =? 8490)%N then [107%N]
  else [c].

Definition lower (s : str) : str := flat_map lower_cp s.

(** [str.isspace] on one code point. *)
Definition isspace_cp (c : N) : bool :=
  (((9 <=? c) && (c <=? 13)) || ((28 <=? c) && (c <=? 32))
   || (c =? 133) || (c =? 160) || (c =? 5760)
   || ((8192 <=? c) && (c <=? 8202))
   || (c =? 8232) || (c =? 8233) || (c =? 8239) || (c =? 8287)
   || (c =? 12288))%N.

Fixpoint lstrip (s : str) : str :=
  match s with
  | [] => []
  | c :: s' => if isspace_cp c then lstrip s' else s
  end.

Definition rstrip (s : str) : str := rev (lstrip (rev s)).

(** [s.strip()] *)
Definition strip (s : str) : str := rstrip (lstrip s).

(** Values as [json.load] builds them; a number is an [int]. *)
Inductive pyval :=
| PNone
| PBool (b : bool)
| PInt (z : Z)
| PStr (s : str)
| PList (l : list pyval)
| PDict (d : list (str * pyval)).

Fixpoint dict_get (k : str) (d : list (str * pyval)) : option pyval :=
  match d with
  | [] => None
  | (k', v) :: d' => if str_eqb k k' then Some v else dict_get k d'
  end.

(** [type(v).__name__] *)
Definition type_name (v : pyval) : str :=
  match v with
  | PNone => lit "NoneType"
  | PBool _ => lit "bool"
  | PInt _ => lit "int"
  | PStr _ => lit "str"
  | PList _ => lit "list"
  | PDict _ => lit "dict"
  end.

Definition not_subscriptable (v : pyval) : exn :=
  Exn TypeError (lit "'" ++ type_name v ++ lit "' object is not subscriptable").

(** [repr(k)] of a plain string key, as [str(KeyError(k))] shows it. *)
Definition repr_key (k : str) : str := lit "'" ++ k ++ lit "'".

(** [v[k]] with a [str] subscript. *)
Definition getitem_str (v : pyval) (k : str) : result pyval :=
  match v with
  | PDict d =>
      match dict_get k d with
      | Some x => Ok x
      | None => Raise (Exn KeyError (repr_key k))
      end
  | PList _ =>
      Raise (Exn TypeError (lit "list indices must be integers or slices, not str"))
  | PStr _ =>
      Raise (Exn TypeError (lit "string indices must be integers, not 'str'"))
  | _ => Raise (not_subscriptable v)
  end.

(** [l[i]] on a sequence of length [length l]: a negative index counts
    from the end, an index out of range raises. *)
Definition seq_index {A} (l : list A) (i : Z) : option A :=
  let n := Z.of_nat (length l) in
  if (0 <=? i) && (i <? n) then l !! Z.to_nat i
  else if (- n <=? i) && (i <? 0) then l !! Z.to_nat (n + i)
  else None.

(** [v[i]] with an [int] subscript. *)
Definition getitem_int (v : pyval) (i : Z) : result pyval :=
  match v with
  | PList l =>
      match seq_index l i with
      | Some x => Ok x
      | None => Raise (Exn IndexError (lit "list index out of range"))
      end
  | PStr s =>
      match seq_index s i with
      | Some c => Ok (PStr [c])
      | None => Raise (Exn IndexError (lit "string index out of range"))
      end
  | PDict _ => Raise (Exn KeyError (str_of_Z i))
  | _ => Raise (not_subscriptable v)
  end.

(** [len(v)] *)
Definition len (v : pyval) : result Z :=
  match v with
  | PStr s => Ok (Z.of_nat (length s))
  | PList l => Ok (Z.of_nat (length l))
  | PDict d => Ok (Z.of_nat (length d))
  | _ =>
      Raise (Exn TypeError
               (lit "object of type '" ++ type_name v ++ lit "' has no len()"))
  end.

(** Truth value of [v], as [not v] and [if v] test it. *)
Definition truthy (v : pyval) : bool :=
  match v with
  | PNone => false
  | PBool b => b
  | PInt z => negb (z =? 0)
  | PStr s => negb (Nat.eqb (length s) 0)
  | PList l => negb (Nat.eqb (length l) 0)
  | PDict d => negb (Nat.eqb (length d) 0)
  end.

(** [k in v] for a [str] [k]: a key of a dict, an element of a list, a
    substring of a string; other values are not containers. *)
Definition str_in (k : str) (v : pyval) : result bool :=
  match v with
  | PDict d => Ok (bool_decide (is_Some (dict_get k d)))
  | PList l =>
      Ok (existsb (fun x => match x with PStr s => str_eqb k s | _ => false end) l)
  | PStr s => Ok (contains k s)
  | _ =>
      Raise (Exn TypeError
               (lit "argument of type '" ++ type_name v ++ lit "' is not iterable"))
  end.

End Py.

Import Py.

Notation "x <- r ;; k" := (Py.bind r (fun x => k))
  (at level 100, r at next level, right associativity, only parsing).

(* ===================================================================== *)
(** ** gemini_chat.py                                                      *)
(* ===================================================================== *)

Module GeminiChat.

(** [APIKeyManager]: the decoded key list, the active index, the count. *)
Record APIKeyManager := mkAPIKeyManager {
  api_keys : pyval;
  current_index : Z;
  total_keys : Z
}.

(** [_load_api_keys]: [file] is what [open] and [json.load] give for the
    key file, an exception when it cannot be read or decoded. *)
Definition _load_api_keys (file : result pyval) : result pyval :=
  data <- file ;;
  getitem_str data (lit "api_keys").

(** [__init__] *)
Definition init (file : result pyval) : result APIKeyManager :=
  keys <- _load_api_keys file ;;
  n <- len keys ;;
  Ok {| api_keys := keys; current_index := 0; total_keys := n |}.

Definition get_current_key (km : APIKeyManager) : result pyval :=
  entry <- getitem_int (api_keys km) (current_index km) ;;
  getitem_str entry (lit "key").

Definition get_current_key_name (km : APIKeyManager) : result pyval :=
  entry <- getitem_int (api_keys km) (current_index km) ;;
  getitem_str entry (lit "name").

(** [rotate_key]: the index is advanced first, then the new name is read
    for the log line; the manager is handed back in both cases. *)
Definition rotate_key (km : APIKeyManager) : result unit * APIKeyManager :=
  if total_keys km =? 0 then
    (Raise (Exn ZeroDivisionError (lit "integer modulo by zero")), km)
  else
    let km' := {| api_keys := api_keys km;
                  current_index := (current_index km + 1) mod total_keys km;
                  total_keys := total_keys km |} in
    match get_current_key_name km' with
    | Ok _ => (Ok tt, km')
    | Raise e => (Raise e, km')
    end.

Definition get_key_with_retry (km : APIKeyManager) : result pyval :=
  get_current_key km.

(** [k] calls of [rotate_key] in a row, stopping at the first that
    raises. *)
Fixpoint rotate_times (k : nat) (km : APIKeyManager)
    : result unit * APIKeyManager :=
  match k with
  | O => (Ok tt, km)
  | S k' =>
      match rotate_key km with
      | (Ok _, km') => rotate_times k' km'
      | (Raise e, km') => (Raise e, km')
      end
  end.

(** The test of line 93 on [error_msg = str(e).lower()]. *)
Definition is_quota_message (error_msg : str) : bool :=
  contains (lit "quota") error_msg || contains (lit "rate") error_msg
  || contains (lit "limit") error_msg || contains (lit "429") error_msg
  || contains (lit "resource") error_msg.

Definition is_quota_error (e : exn) : bool :=
  is_quota_message (lower (exn_str e)).

(** The calls [chat_with_retry] makes, in order. *)
Inductive event :=
| Attempt (index : Z) (api_key : pyval)   (* a backend call with this key *)
| Rotate.                                 (* a call of [rotate_key] *)

(** The text in front of the last error in the final exception. *)
Definition exhausted_prefix : str :=
  [25152; 26377; 32; 65; 80; 73; 32; 107; 101; 121; 115; 32; 37117; 24050;
   22039; 35430; 22833; 25943; 12290; 26368; 24460; 37679; 35492; 58; 32]%N.

(** [f"{last_error}"] *)
Definition format_last_error (last_error : option exn) : str :=
  match last_error with
  | Some e => exn_str e
  | None => lit "None"
  end.

Section Retry.

(** [create_gemini_model] followed by [chat_with_gemini]: what the
    backend answers to the attempt numbered [attempt] of this call,
    made with [api_key]. *)
Variable backend : nat -> pyval -> str -> result str.
Variable user_message : str.

(** The [for attempt in range(max_retries)] loop; [fuel] is the number
    of iterations left.  In the quota branch the warning line reads the
    current name before [rotate_key] is called. *)
Fixpoint retry_loop (fuel attempt : nat) (last_error : option exn)
    (km : APIKeyManager) : result str * APIKeyManager * list event :=
  match fuel with
  | O =>
      (Raise (Exn Exception (exhausted_prefix ++ format_last_error last_error)),
       km, [])
  | S fuel' =>
      let '(r, ev) :=
        match get_current_key km with
        | Ok api_key =>
            (backend attempt api_key user_message,
             [Attempt (current_index km) api_key])
        | Raise e => (Raise e, [])
        end in
      match r with
      | Ok response => (Ok response, km, ev)
      | Raise e =>
          if is_quota_error e then
            match get_current_key_name km with
            | Raise e' => (Raise e', km, ev)
            | Ok _ =>
                match rotate_key km with
                | (Raise e', km') => (Raise e', km', ev ++ [Rotate])
                | (Ok _, km') =>
                    let '(r', km'', evs) :=
                      retry_loop fuel' (S attempt) (Some e) km' in
                    (r', km'', ev ++ Rotate :: evs)
                end
            end
          else (Raise e, km, ev)
      end
  end.

(** [chat_with_retry]; [max_retries = None] is the default. *)
Definition chat_with_retry (km : APIKeyManager) (max_retries : option Z)
    : result str * APIKeyManager * list event :=
  let max_retries :=
    match max_retries with
    | None => total_keys km
    | Some m => m
    end in
  retry_loop (Z.to_nat max_retries) 0 None km.

End Retry.

(** A key-file entry that has both fields the manager reads. *)
Definition is_credential (v : pyval) : bool :=
  match v with
  | PDict d =>
      bool_decide (is_Some (dict_get (lit "key") d))
      && bool_decide (is_Some (dict_get (lit "name") d))
  | _ => false
  end.

(** The pools the retry loop is meant for: a list of credentials, its
    count, and an index inside it. *)
Definition wf_pool (km : APIKeyManager) : bool :=
  match api_keys km with
  | PList l =>
      forallb is_credential l
      && (total_keys km =? Z.of_nat (length l))
      && (0 <=? current_index km) && (current_index km <? total_keys km)
  | _ => false
  end.

(** The indices of the backend calls of a trace, and its rotations. *)
Definition attempted (evs : list event) : list Z :=
  flat_map (fun ev => match ev with Attempt i _ => [i] | Rotate => [] end) evs.

Definition rotations (evs : list event) : nat :=
  length (flat_map (fun ev => match ev with Rotate => [tt] | Attempt _ _ => [] end) evs).

(** A trace in which every backend call but the last is followed by
    exactly one rotation, the last by at most one. *)
Fixpoint paced (evs : list event) : bool :=
  match evs with
  | Attempt _ _ :: rest =>
      match rest with
      | [] => true
      | Rotate :: rest' =>
          match rest' with
          | [] => true
          | _ :: _ => paced rest'
          end
      | Attempt _ _ :: _ => false
      end
  | _ => false
  end.

(** The manager after one rotation. *)
Definition advanced (km : APIKeyManager) : APIKeyManager :=
  {| api_keys := api_keys km;
     current_index := (current_index km + 1) mod total_keys km;
     total_keys := total_keys km |}.

(** The index [k] rotations after [i] in a pool of [n]. *)
Definition index_after (n i : Z) (k : nat) : Z := (i + Z.of_nat k) mod n.

(** The manager [k] rotations after [km]. *)
Definition rotated (km : APIKeyManager) (k : nat) : APIKeyManager :=
  {| api_keys := api_keys km;
     current_index := index_after (total_keys km) (current_index km) k;
     total_keys := total_keys km |}.

(** The credential [get_current_key] reads. *)
Definition key_of (km : APIKeyManager) : pyval :=
  match get_current_key km with
  | Ok k => k
  | Raise _ => PNone
  end.

Definition quota_failure (r : result str) : bool :=
  match r with
  | Raise e => is_quota_error e
  | Ok _ => false
  end.

Definition error_of (r : result str) : option exn :=
  match r with
  | Raise e => Some e
  | Ok _ => None
  end.

Section Run.

Variable backend : nat -> pyval -> str -> result str.
Variable user_message : str.
Variable km : APIKeyManager.

(** The backend's answer to attempt [j] of a call that starts on [km]
    and has rotated once after each earlier attempt. *)
Definition answer (j : nat) : result str :=
  backend j (key_of (rotated km j)) user_message.

(** The trace of attempts [a .. a + k - 1], each followed by its
    rotation. *)
Definition quota_prefix (a k : nat) : list event :=
  flat_map
    (fun j => [Attempt (current_index (rotated km j)) (key_of (rotated km j));
               Rotate])
    (seq a k).

(** [last_error] on entering iteration [k + a], [le] being its value on
    entering iteration [a]. *)
Definition last_error_at (le : option exn) (a k : nat) : option exn :=
  match k with
  | O => le
  | S k' => error_of (answer (k' + a))
  end.

End Run.

(** The number of iterations [range(max_retries)] makes. *)
Definition allowed (km : APIKeyManager) (max_retries : option Z) : nat :=
  Z.to_nat (match max_retries with
            | None => total_keys km
            | Some m => m
            end).

End GeminiChat.

(* ===================================================================== *)
(** ** xtts_v2.py                                                          *)
(* ===================================================================== *)

Module XttsV2.

Definition bytes : Type := list byte.

Definition byte_of_Z (z : Z) : byte :=
  match Byte.of_N (Z.to_N z) with
  | Some b => b
  | None => x00
  end.

(** The [n] low bytes of [v], least significant first. *)
Fixpoint le_bytes (n : nat) (v : Z) : bytes :=
  match n with
  | O => []
  | S n' => byte_of_Z (v mod 256) :: le_bytes n' (v / 256)
  end.

(** [struct.pack] of one unsigned little-endian field of [n] bytes
    (['<H'] for 2, ['<L'] for 4): a value out of range raises. *)
Definition pack_uint (n : nat) (v : Z) : result bytes :=
  if (0 <=? v) && (v <? 2 ^ (8 * Z.of_nat n)) then Ok (le_bytes n v)
  else Raise (Exn StructError (lit "argument out of range")).

(** The value of a little-endian field. *)
Fixpoint le_value (bs : bytes) : Z :=
  match bs with
  | [] => 0
  | b :: bs' => Z.of_N (Byte.to_N b) + 256 * le_value bs'
  end.

(** [bs[from : from + n]] *)
Definition field (from n : nat) (bs : bytes) : bytes := take n (drop from bs).

(** The 44 bytes [wave.Wave_write] puts in front of [datalength] bytes of
    frames: the RIFF chunk, the [fmt ] chunk of a PCM stream and the head
    of the [data] chunk. *)
Definition wav_header (nchannels sampwidth framerate datalength : Z)
    : result bytes :=
  riff_len <- pack_uint 4 (36 + datalength) ;;
  fmt_len <- pack_uint 4 16 ;;
  format <- pack_uint 2 1 ;;
  channels <- pack_uint 2 nchannels ;;
  rate <- pack_uint 4 framerate ;;
  byte_rate <- pack_uint 4 (nchannels * framerate * sampwidth) ;;
  block_align <- pack_uint 2 (nchannels * sampwidth) ;;
  bits <- pack_uint 2 (sampwidth * 8) ;;
  data_len <- pack_uint 4 datalength ;;
  Ok (String.list_byte_of_string "RIFF" ++ riff_len
      ++ String.list_byte_of_string "WAVE"
      ++ String.list_byte_of_string "fmt " ++ fmt_len ++ format ++ channels
      ++ rate ++ byte_rate ++ block_align ++ bits
      ++ String.list_byte_of_string "data" ++ data_len).

(** [encode_audio_to_wav]: the standard library's [wave] writer on a
    [BytesIO], driven as lines 170-176 do.  The three setters check their
    argument in turn (when one refuses, closing the writer raises the
    error named here); [writeframes] writes the header for the whole
    frames of [audio_data], then the data, and patches the two length
    fields when a partial frame made them differ. *)
Definition encode_audio_to_wav (audio_data : bytes)
    (sample_rate sample_width channels : Z) : result bytes :=
  if channels <? 1 then
    Raise (Exn WaveError (lit "# channels not specified"))
  else if (sample_width <? 1) || (4 <? sample_width) then
    Raise (Exn WaveError (lit "sample width not specified"))
  else if sample_rate <=? 0 then
    Raise (Exn WaveError (lit "sampling rate not specified"))
  else
    let datawritten := Z.of_nat (length audio_data) in
    let nframes := datawritten / (channels * sample_width) in
    let datalength := nframes * channels * sample_width in
    header <- wav_header channels sample_width sample_rate datalength ;;
    header <- (if datalength =? datawritten then Ok header
               else wav_header channels sample_width sample_rate datawritten) ;;
    Ok (header ++ audio_data).

(** A WAV header for mono, 16-bit, 24 kHz audio whose RIFF chunk holds
    36 bytes and whose [data] chunk holds none, written out. *)
Definition empty_wav_24k : bytes :=
  String.list_byte_of_string "RIFF" ++ [x24; x00; x00; x00]
  ++ String.list_byte_of_string "WAVE"
  ++ String.list_byte_of_string "fmt " ++ [x10; x00; x00; x00]
  ++ [x01; x00] ++ [x01; x00]
  ++ [xc0; x5d; x00; x00] ++ [x80; xbb; x00; x00]
  ++ [x02; x00] ++ [x10; x00]
  ++ String.list_byte_of_string "data" ++ [x00; x00; x00; x00].

(** The files of the machine, by path. *)
Abbreviation files := (gmap (list N) bytes).

Section Engine.

(** Tensors, the int16 arrays [postprocess] makes of them, and the
    conditioning features of a speaker. *)
Variables tensor ndarray latents : Type.
Variable postprocess : tensor -> ndarray.
Variable tobytes : ndarray -> bytes.

(** [os.path.abspath] *)
Variable abspath : str -> str.

(** [self.model.get_conditioning_latents]: the answer to the extraction
    that follows [n] earlier ones. *)
Variable model_get_conditioning_latents : nat -> str -> result latents.

(** [self.model.inference_stream]: the chunks the iterator yields and
    the exception that ends it, if one does. *)
Variable model_inference_stream :
  str -> str -> latents -> pyval -> bool -> list tensor * option exn.

(** [self.model.inference], read at [out["wav"]]. *)
Variable model_inference : str -> str -> latents -> result tensor.

(** [open(path, "wb")]: the exception it raises for [path], if any.  A
    file that opens takes every write. *)
Variable open_wb : str -> option exn.

(** The part of [XTTSStreamingTTS] the methods below change, with the
    reference files handed to the extraction so far, oldest first. *)
Record XTTSStreamingTTS := mkTTS {
  _speaker_cache : gmap (list N) latents;
  extracted : list str
}.

Definition get_conditioning_latents (self : XTTSStreamingTTS) (speaker_wav : str)
    (use_cache : bool) : result latents * XTTSStreamingTTS :=
  let cache_key := abspath speaker_wav in
  match (if use_cache then _speaker_cache self !! cache_key else None) with
  | Some cached => (Ok cached, self)
  | None =>
      let extracted' := extracted self ++ [speaker_wav] in
      match model_get_conditioning_latents (length (extracted self)) speaker_wav with
      | Raise e =>
          (Raise e, {| _speaker_cache := _speaker_cache self;
                       extracted := extracted' |})
      | Ok value =>
          (Ok value,
           {| _speaker_cache :=
                if use_cache then <[cache_key := value]> (_speaker_cache self)
                else _speaker_cache self;
              extracted := extracted' |})
      end
  end.

(** The [for i, chunk in enumerate(chunks)] loop of [tts_stream]: the
    items yielded, and how the generator ends. *)
Fixpoint stream_loop (add_wav_header : bool) (i : nat)
    (chunks : list tensor) (stop : option exn) : list bytes * result unit :=
  match chunks with
  | [] =>
      ([], match stop with Some e => Raise e | None => Ok tt end)
  | chunk :: chunks' =>
      let chunk := postprocess chunk in
      if Nat.eqb i 0 && add_wav_header then
        match encode_audio_to_wav [] 24000 2 1 with
        | Raise e => ([], Raise e)
        | Ok header =>
            let '(out, r) := stream_loop add_wav_header (S i) chunks' stop in
            (header :: tobytes chunk :: out, r)
        end
      else
        let '(out, r) := stream_loop add_wav_header (S i) chunks' stop in
        (tobytes chunk :: out, r)
  end.

(** [tts_stream], run to the end of the generator. *)
Definition tts_stream (self : XTTSStreamingTTS) (text speaker_wav language : str)
    (stream_chunk_size : pyval) (add_wav_header enable_text_splitting : bool)
    : list bytes * result unit * XTTSStreamingTTS :=
  match get_conditioning_latents self speaker_wav true with
  | (Raise e, self') => ([], Raise e, self')
  | (Ok lat, self') =>
      let '(chunks, stop) :=
        model_inference_stream text language lat stream_chunk_size
          enable_text_splitting in
      (stream_loop add_wav_header 0 chunks stop, self')
  end.

(** [tts]: the whole audio in one WAV. *)
Definition tts (self : XTTSStreamingTTS) (text speaker_wav language : str)
    : result bytes * XTTSStreamingTTS :=
  match get_conditioning_latents self speaker_wav true with
  | (Raise e, self') => (Raise e, self')
  | (Ok lat, self') =>
      (out <- model_inference text language lat ;;
       encode_audio_to_wav (tobytes (postprocess out)) 24000 2 1,
       self')
  end.

(** [tts_to_file]: the audio is made first, the file opened after. *)
Definition tts_to_file (self : XTTSStreamingTTS) (fs : files)
    (text speaker_wav output_path language : str)
    : result str * XTTSStreamingTTS * files :=
  match tts self text speaker_wav language with
  | (Raise e, self') => (Raise e, self', fs)
  | (Ok audio_data, self') =>
      match open_wb output_path with
      | Some e => (Raise e, self', fs)
      | None => (Ok output_path, self', <[output_path := audio_data]> fs)
      end
  end.

End Engine.

Arguments mkTTS {latents}.
Arguments _speaker_cache {latents}.
Arguments extracted {latents}.
Arguments get_conditioning_latents {latents}.
Arguments stream_loop {tensor ndarray}.
Arguments tts_stream {tensor ndarray latents}.
Arguments tts {tensor ndarray latents}.
Arguments tts_to_file {tensor ndarray latents}.

End XttsV2.

(* ===================================================================== *)
(** ** server.py                                                           *)
(* ===================================================================== *)

Module Server.

Import GeminiChat XttsV2.

(** The text of the [error] field of a JSON error body. *)
Inductive error_text :=
| MissingText                 (* the body has no usable [text] *)
| EmptyText                   (* [text] is empty once stripped *)
| Failure (message : str).    (* [str(e)] of a caught exception *)

Inductive response :=
| JsonError (status : Z) (error : error_text)
| SendFile (audio : bytes) (download_name : str)
| Json (user_text ai_response audio_file audio_url : str)
| Stream (x_ai_response x_estimated_chunks : str)
         (ai_response : str) (stream_chunk_size : pyval).

Definition status (r : response) : Z :=
  match r with
  | JsonError s _ => s
  | _ => 200
  end.

(** What a handler calls outside the process. *)
Inductive call :=
| TextBackend (ev : GeminiChat.event)
| Synthesis (text : str).

(** [v.strip()]: only a [str] has the method. *)
Definition method_strip (v : pyval) : result str :=
  match v with
  | PStr s => Ok (strip s)
  | _ =>
      Raise (Exn AttributeError
               (lit "'" ++ type_name v ++ lit "' object has no attribute 'strip'"))
  end.

(** [data.get(k, default)] on the body, a dict where it is called. *)
Definition dict_get_default (data : pyval) (k : str) (default : pyval) : pyval :=
  match data with
  | PDict d => match dict_get k d with Some v => v | None => default end
  | _ => default
  end.

Inductive checked :=
| Rejected (r : response)
| Accepted (user_text : str).

(** The two checks every chat handler opens with (lines 120-126, 175-181,
    236-243). *)
Definition check_text (data : pyval) : result checked :=
  missing <- (if negb (truthy data) then Ok true
              else has <- str_in (lit "text") data ;; Ok (negb has)) ;;
  if missing : bool then Ok (Rejected (JsonError 400 MissingText))
  else
    text <- getitem_str data (lit "text") ;;
    user_text <- method_strip text ;;
    if negb (truthy (PStr user_text)) then
      Ok (Rejected (JsonError 400 EmptyText))
    else Ok (Accepted user_text).

(** A body with no [text] entry: [null], or an object without the key. *)
Definition lacks_text (data : pyval) : Prop :=
  data = PNone \/ exists d, data = PDict d /\ dict_get (lit "text") d = None.

(** A body whose [text] is a string that is empty once stripped. *)
Definition blank_text (data : pyval) : Prop :=
  exists d s, data = PDict d /\ dict_get (lit "text") d = Some (PStr s)
              /\ strip s = [].

(** A body the handlers take a text from: an object whose [text] is a
    string with something left once stripped. *)
Definition usable_text (data : pyval) : Prop :=
  exists d s, data = PDict d /\ dict_get (lit "text") d = Some (PStr s)
              /\ strip s <> [].

(** A body the first check reads as one without [text]: a value that is
    false in a test ([null], [false], [0], an empty string, list or
    object), a string in which ["text"] does not occur, a list none of
    whose elements is ["text"], an object without the key. *)
Definition reads_as_missing (data : pyval) : Prop :=
  truthy data = false
  \/ (exists s, data = PStr s /\ contains (lit "text") s = false)
  \/ (exists l, data = PList l /\ ~ In (PStr (lit "text")) l)
  \/ (exists d, data = PDict d /\ dict_get (lit "text") d = None).

(** A body on which the checks raise: [true] or a number other than 0,
    neither of which is a container; a string in which ["text"] occurs or
    a list that holds ["text"], neither of which takes a string subscript;
    an object whose [text] is not a string and so has no [strip]. *)
Definition check_raises (data : pyval) : Prop :=
  data = PBool true
  \/ (exists z, data = PInt z /\ z <> 0)
  \/ (exists s, data = PStr s /\ contains (lit "text") s = true)
  \/ (exists l, data = PList l /\ In (PStr (lit "text")) l)
  \/ (exists d v, data = PDict d /\ dict_get (lit "text") d = Some v
                   /\ forall s, v <> PStr s).

(** Line 257; [text_length / 10] is a float quotient that [int] cuts
    back to an integer, which for a length is the integer quotient. *)
Definition estimated_chunks (ai_response : str) : Z :=
  let text_length := Z.of_nat (length ai_response) in
  Z.max 5 (text_length / 10).

Section Handlers.

Variables tensor ndarray latents : Type.
Variable postprocess : tensor -> ndarray.
Variable tobytes : ndarray -> bytes.
Variable abspath : str -> str.
Variable model_get_conditioning_latents : nat -> str -> result latents.
Variable model_inference_stream :
  str -> str -> latents -> pyval -> bool -> list tensor * option exn.
Variable model_inference : str -> str -> latents -> result tensor.
Variable open_wb : str -> option exn.

(** The text backend, as [chat_with_retry] sees it. *)
Variable backend : nat -> pyval -> str -> result str.

(** [urllib.parse.quote] *)
Variable quote : str -> str.

Variable SPEAKER_WAV : str.

(** [os.path.join] *)
Variable path_join : str -> str -> str.

Variable OUTPUT_DIR : str.

(** [uuid.uuid4().hex], as drawn while the request at hand is handled. *)
Variable uuid4_hex : str.

(** What a handler works on: the two process-wide objects, and the files
    of the machine. *)
Record globals := mkGlobals {
  key_manager : APIKeyManager;
  tts_model : XTTSStreamingTTS latents;
  disk : files
}.

(** [generate_speech]: [tts_to_file] on the shared engine, for the
    reference voice. *)
Definition generate_speech (text output_path : str) (g : globals)
    : result str * globals * list call :=
  let '(r, model', fs') :=
    tts_to_file postprocess tobytes abspath model_get_conditioning_latents
      model_inference open_wb (tts_model g) (disk g) text SPEAKER_WAV
      output_path (lit "zh-cn") in
  (match r with
   | Ok _ => Ok output_path
   | Raise e => Raise e
   end,
   {| key_manager := key_manager g; tts_model := model'; disk := fs' |},
   [Synthesis text]).

(** [send_file(path, ...)]: the file is looked up when the response is
    made, and its content is what the response carries; a path with no
    file raises [FileNotFoundError], an [OSError], whose text is given
    here for an absolute path. *)
Definition send_file (path : str) (fs : files) : result bytes :=
  match fs !! path with
  | Some content => Ok content
  | None =>
      Raise (Exn OSError
               (lit "[Errno 2] No such file or directory: " ++ repr_key path))
  end.

(** [f"output_{uuid.uuid4().hex[:8]}.wav"] *)
Definition output_filename : str :=
  lit "output_" ++ take 8 uuid4_hex ++ lit ".wav".

Definition output_path : str := path_join OUTPUT_DIR output_filename.

(** [generate_speech_streaming], run to the end. *)
Definition generate_speech_streaming (text : str) (stream_chunk_size : pyval)
    (g : globals) : list bytes * result unit * globals * list call :=
  let '(out, r, model') :=
    tts_stream postprocess tobytes abspath model_get_conditioning_latents
      model_inference_stream (tts_model g) text SPEAKER_WAV (lit "zh-cn")
      stream_chunk_size true true in
  (out, r,
   {| key_manager := key_manager g; tts_model := model'; disk := disk g |},
   [Synthesis text]).

Definition internal_error (e : exn) : response :=
  JsonError 500 (Failure (exn_str e)).

(** The call of [chat_with_retry] on the shared key manager. *)
Definition ask (user_text : str) (g : globals)
    : result str * globals * list call :=
  let '(r, km', evs) :=
    chat_with_retry backend user_text (key_manager g) None in
  (r, {| key_manager := km'; tts_model := tts_model g; disk := disk g |},
   map TextBackend evs).

(** [/api/chat] *)
Definition chat_and_speak (data : pyval) (g : globals)
    : response * globals * list call :=
  match check_text data with
  | Raise e => (internal_error e, g, [])
  | Ok (Rejected r) => (r, g, [])
  | Ok (Accepted user_text) =>
      match ask user_text g with
      | (Raise e, g1, calls) => (internal_error e, g1, calls)
      | (Ok ai_response, g1, calls) =>
          match generate_speech ai_response output_path g1 with
          | (Raise e, g2, calls') => (internal_error e, g2, calls ++ calls')
          | (Ok _, g2, calls') =>
              match send_file output_path (disk g2) with
              | Raise e => (internal_error e, g2, calls ++ calls')
              | Ok audio =>
                  (SendFile audio output_filename, g2, calls ++ calls')
              end
          end
      end
  end.

(** [/api/chat/json] *)
Definition chat_and_speak_json (data : pyval) (g : globals)
    : response * globals * list call :=
  match check_text data with
  | Raise e => (internal_error e, g, [])
  | Ok (Rejected r) => (r, g, [])
  | Ok (Accepted user_text) =>
      match ask user_text g with
      | (Raise e, g1, calls) => (internal_error e, g1, calls)
      | (Ok ai_response, g1, calls) =>
          match generate_speech ai_response output_path g1 with
          | (Raise e, g2, calls') => (internal_error e, g2, calls ++ calls')
          | (Ok _, g2, calls') =>
              (Json user_text ai_response output_path
                 (lit "/api/audio/" ++ output_filename),
               g2, calls ++ calls')
          end
      end
  end.

(** [/api/chat/stream], up to the [return Response(...)]: the body
    generator has not run yet.  [stream_chunk_size] is read between the
    two checks in the source, from a body that is a dict by then. *)
Definition chat_and_speak_stream (data : pyval) (g : globals)
    : response * globals * list call :=
  match check_text data with
  | Raise e => (internal_error e, g, [])
  | Ok (Rejected r) => (r, g, [])
  | Ok (Accepted user_text) =>
      let stream_chunk_size :=
        dict_get_default data (lit "stream_chunk_size") (PInt 20) in
      match ask user_text g with
      | (Raise e, g1, calls) => (internal_error e, g1, calls)
      | (Ok ai_response, g1, calls) =>
          (Stream (quote (take 200 ai_response))
                  (str_of_Z (estimated_chunks ai_response))
                  ai_response stream_chunk_size,
           g1, calls)
      end
  end.

(** The body of a response, as the server sends it after the handler
    returned: the items of [generate()] for a stream. *)
Definition send_body (r : response) (g : globals)
    : list bytes * globals * list call :=
  match r with
  | Stream _ _ ai_response stream_chunk_size =>
      let '(out, _, g', calls) :=
        generate_speech_streaming ai_response stream_chunk_size g in
      (out, g', calls)
  | _ => ([], g, [])
  end.

(** The three chat endpoints. *)
Inductive chat_endpoint := ApiChat | ApiChatJson | ApiChatStream.

Definition handle (ep : chat_endpoint) (data : pyval) (g : globals)
    : response * globals * list call :=
  match ep with
  | ApiChat => chat_and_speak data g
  | ApiChatJson => chat_and_speak_json data g
  | ApiChatStream => chat_and_speak_stream data g
  end.

End Handlers.

Arguments mkGlobals {latents}.
Arguments key_manager {latents}.
Arguments tts_model {latents}.
Arguments disk {latents}.
Arguments generate_speech {tensor ndarray latents}.
Arguments generate_speech_streaming {tensor ndarray latents}.
Arguments ask {latents}.
Arguments chat_and_speak {tensor ndarray latents}.
Arguments chat_and_speak_json {tensor ndarray latents}.
Arguments chat_and_speak_stream {latents}.
Arguments send_body {tensor ndarray latents}.
Arguments handle {tensor ndarray latents}.

End Server.

(* ===================================================================== *)
(** ** Sample data                                                         *)
(* ===================================================================== *)

Module Samples.

Import GeminiChat.

(** One entry of [api_keys.json]. *)
Definition credential (name key : string) : pyval :=
  PDict [(lit "name", PStr (lit name)); (lit "key", PStr (lit key))].

Definition pool3 : pyval :=
  PList [credential "Key 1" "AAA"; credential "Key 2" "BBB";
         credential "Key 3" "CCC"].

(** A manager on [pool3] with [i] as its active index. *)
Definition manager3 (i : Z) : APIKeyManager :=
  {| api_keys := pool3; current_index := i; total_keys := 3 |}.

Definition key_file3 : result pyval := Ok (PDict [(lit "api_keys", pool3)]).

(** A key file with an empty list. *)
Definition key_file0 : result pyval := Ok (PDict [(lit "api_keys", PList [])]).

Definition quota_error : exn :=
  Exn OtherException (lit "429 Resource has been exhausted (e.g. check quota).").

Definition bad_key_error : exn :=
  Exn OtherException (lit "400 API key not valid. Please pass a valid API key.").

(** A synthesis engine on byte strings: the features of the [n]-th
    extraction are [n], every text is spoken in two chunks. *)
Definition engine_latents : nat -> str -> result nat := fun n _ => Ok n.

Definition engine_stream
    : str -> str -> nat -> pyval -> bool -> list XttsV2.bytes * option exn :=
  fun _ _ _ _ _ => ([[x01; x00; x02; x00]; [x03; x00]], None).

Definition engine_inference : str -> str -> nat -> result XttsV2.bytes :=
  fun _ _ _ => Ok [x01; x00; x02; x00; x03; x00].

(** An engine that has extracted nothing yet. *)
Definition fresh_tts : XttsV2.XTTSStreamingTTS nat :=
  XttsV2.mkTTS ∅ [].

Definition fresh_globals : Server.globals nat :=
  Server.mkGlobals (manager3 0) fresh_tts ∅.

(** A backend that is out of quota on every key. *)
Definition always_quota : nat -> pyval -> str -> result str :=
  fun _ _ _ => Raise quota_error.

(** A backend out of quota on the first attempt, answering [r] after. *)
Definition quota_then (r : result str) : nat -> pyval -> str -> result str :=
  fun attempt _ _ => if Nat.eqb attempt 0 then Raise quota_error else r.

End Samples.

(* ===================================================================== *)
(** ** gemini_chat.py: the console program                                 *)
(* ===================================================================== *)

Module GeminiMain.

Import GeminiChat.

(** The five signals line 93 looks for. *)
Definition quota_keywords : list str :=
  [lit "quota"; lit "rate"; lit "limit"; lit "429"; lit "resource"].

(** [load_config]: [file] is what [open] and [json.load] give for the
    configuration file. *)
Definition load_config (file : result pyval) : result pyval := file.

(** [v.get(k)]: only a dict has the method; a missing key gives [None]. *)
Definition method_get (v : pyval) (k : str) : result pyval :=
  match v with
  | PDict d =>
      Ok (match dict_get k d with
          | Some x => x
          | None => PNone
          end)
  | _ =>
      Raise (Exn AttributeError
               (lit "'" ++ type_name v ++ lit "' object has no attribute 'get'"))
  end.

(** What [main] prints, line by line of the source. *)
Inductive printed :=
| Rule                        (* the line of fifty [=] *)
| Title
| UsingModel (model : pyval)
| Temperature (temperature : pyval)
| AvailableKeys (total : Z)
| CurrentKey (name : pyval)
| Welcome
| Reply (response : str)
| Failed (message : str)      (* [str(e)] of a caught exception *)
| Goodbye.

Definition quit_words : list str := [lit "quit"; lit "exit"; lit "q"].

(** [user_input.lower() in ["quit", "exit", "q"]] *)
Definition is_quit (user_input : str) : bool :=
  existsb (str_eqb (lower user_input)) quit_words.

Section Console.

(** The text backend: its answer in the [turn]-th call of
    [chat_with_retry], at the attempt of that number. *)
Variable backend : nat -> nat -> pyval -> str -> result str.

(** The [while True] loop of [main] on the lines [input()] returns, in
    order; when they run out [input()] raises [EOFError].  The result
    holds what was printed and the trace of every [chat_with_retry]. *)
Fixpoint main_loop (inputs : list str) (turn : nat) (km : APIKeyManager)
    : result unit * list printed * list (list event) * APIKeyManager :=
  match inputs with
  | [] =>
      (Raise (Exn OtherException (lit "EOF when reading a line")), [], [], km)
  | line :: inputs' =>
      let user_input := strip line in
      if is_quit user_input then (Ok tt, [Goodbye], [], km)
      else if negb (truthy (PStr user_input)) then main_loop inputs' turn km
      else
        let '(r, km1, evs) := chat_with_retry (backend turn) user_input km None in
        let line_out :=
          match r with
          | Ok response => Reply response
          | Raise e => Failed (exn_str e)
          end in
        let '(res, out, traces, km2) := main_loop inputs' (S turn) km1 in
        (res, line_out :: out, evs :: traces, km2)
  end.

(** [main]: the two files are read, the banner is printed, the loop
    runs.  An exception of the banner leaves what was printed before. *)
Definition main (key_file config_file : result pyval) (inputs : list str)
    : result unit * list printed * list (list event) :=
  match init key_file with
  | Raise e => (Raise e, [], [])
  | Ok key_manager =>
  match load_config config_file with
  | Raise e => (Raise e, [], [])
  | Ok config =>
  match method_get config (lit "model") with
  | Raise e => (Raise e, [Rule; Title; Rule], [])
  | Ok model =>
  match method_get config (lit "temperature") with
  | Raise e => (Raise e, [Rule; Title; Rule; UsingModel model], [])
  | Ok temperature =>
  let banner :=
    [Rule; Title; Rule; UsingModel model; Temperature temperature;
     AvailableKeys (total_keys key_manager)] in
  match get_current_key_name key_manager with
  | Raise e => (Raise e, banner, [])
  | Ok name =>
      let '(res, out, traces, _) := main_loop inputs 0 key_manager in
      (res, banner ++ [CurrentKey name; Rule; Welcome] ++ out, traces)
  end end end end end.

End Console.

End GeminiMain.

(* ===================================================================== *)
(** ** xtts_v2.py: streams to files, transferable features, calls in sequence *)
(* ===================================================================== *)

Module XttsMore.

Import XttsV2.

Section Engine.

Variables tensor ndarray latents : Type.
Variable postprocess : tensor -> ndarray.
Variable tobytes : ndarray -> bytes.
Variable abspath : str -> str.
Variable model_get_conditioning_latents : nat -> str -> result latents.
Variable model_inference_stream :
  str -> str -> latents -> pyval -> bool -> list tensor * option exn.

(** [open(path, "wb")]: the exception it raises for [path], if any.  A
    file that opens takes every write. *)
Variable open_wb : str -> option exn.

(** The two [.cpu().squeeze().half().tolist()] of
    [get_speaker_embedding_dict], put in the dict it returns. *)
Variable transferable : latents -> pyval.

Definition get_speaker_embedding_dict (self : XTTSStreamingTTS latents)
    (speaker_wav : str) : result pyval * XTTSStreamingTTS latents :=
  match get_conditioning_latents abspath model_get_conditioning_latents
          self speaker_wav true with
  | (Ok lat, self') => (Ok (transferable lat), self')
  | (Raise e, self') => (Raise e, self')
  end.

(** [tts_stream_to_file]: the file is opened first, every item of the
    stream is written as it comes, and the file is closed also when the
    stream raises. *)
Definition tts_stream_to_file (self : XTTSStreamingTTS latents) (fs : files)
    (text speaker_wav output_path language : str) (stream_chunk_size : pyval)
    : result str * XTTSStreamingTTS latents * files :=
  match open_wb output_path with
  | Some e => (Raise e, self, fs)
  | None =>
      let '(out, r, self') :=
        tts_stream postprocess tobytes abspath model_get_conditioning_latents
          model_inference_stream self text speaker_wav language
          stream_chunk_size true true in
      (match r with
       | Ok _ => Ok output_path
       | Raise e => Raise e
       end,
       self', <[output_path := concat out]> fs)
  end.

(** Calls of [get_conditioning_latents] one after the other, each with
    its path and its [use_cache]; the results are dropped. *)
Fixpoint latents_calls (calls : list (str * bool))
    (self : XTTSStreamingTTS latents) : XTTSStreamingTTS latents :=
  match calls with
  | [] => self
  | (speaker_wav, use_cache) :: calls' =>
      latents_calls calls'
        (snd (get_conditioning_latents abspath model_get_conditioning_latents
                self speaker_wav use_cache))
  end.

End Engine.

Arguments get_speaker_embedding_dict {latents}.
Arguments tts_stream_to_file {tensor ndarray latents}.
Arguments latents_calls {latents}.

(** The 44 bytes in front of [n] bytes of frames, field by field. *)
Definition header_bytes (channels sample_width sample_rate n : Z) : bytes :=
  String.list_byte_of_string "RIFF" ++ le_bytes 4 (36 + n)
  ++ String.list_byte_of_string "WAVE"
  ++ String.list_byte_of_string "fmt " ++ le_bytes 4 16 ++ le_bytes 2 1
  ++ le_bytes 2 channels ++ le_bytes 4 sample_rate
  ++ le_bytes 4 (channels * sample_rate * sample_width)
  ++ le_bytes 2 (channels * sample_width) ++ le_bytes 2 (sample_width * 8)
  ++ String.list_byte_of_string "data" ++ le_bytes 4 n.

(** The header is written exactly when each field fits its width. *)
Definition header_fits (channels sample_width sample_rate n : Z) : Prop :=
  0 <= 36 + n < 2 ^ 32
  /\ 0 <= channels < 2 ^ 16
  /\ 0 <= sample_rate < 2 ^ 32
  /\ 0 <= channels * sample_rate * sample_width < 2 ^ 32
  /\ 0 <= channels * sample_width < 2 ^ 16
  /\ 0 <= sample_width * 8 < 2 ^ 16
  /\ 0 <= n < 2 ^ 32.

(** The arguments [encode_audio_to_wav] accepts for [n] bytes of audio. *)
Definition wav_encodable (n sample_rate sample_width channels : Z) : Prop :=
  1 <= channels < 65536
  /\ 1 <= sample_width <= 4
  /\ 0 < sample_rate < 2 ^ 32
  /\ channels * sample_rate * sample_width < 2 ^ 32
  /\ channels * sample_width < 65536
  /\ 36 + n < 2 ^ 32.

End XttsMore.

(* ===================================================================== *)
(** ** server.py: start, health, speaker cloning, speech recognition       *)
(* ===================================================================== *)

Module ServerMore.

Import GeminiChat GeminiMain XttsV2 XttsMore Server.

(** The answers of [/api/speaker/clone]. *)
Inductive clone_response :=
| CloneNoFile                     (* 400: no [wav_file] in the request *)
| CloneFailed (message : str)     (* 500: [str(e)] of a caught exception *)
| CloneJson (embedding : pyval).  (* 200 *)

Definition clone_status (r : clone_response) : Z :=
  match r with
  | CloneNoFile => 400
  | CloneFailed _ => 500
  | CloneJson _ => 200
  end.

(** What [requests.post] and [response.json()] give [speech_to_text]. *)
Inductive stt_outcome :=
| PostTimeout                                   (* [requests.exceptions.Timeout] *)
| PostRaises (e : exn)                          (* any other exception *)
| Answered (status_code : Z) (json : result pyval).

(** The answers of [/api/speech-to-text]. *)
Inductive stt_response :=
| SttNoAudio                                    (* 400 *)
| SttApiError (message : pyval)                 (* 400 *)
| SttTimeout                                    (* 504 *)
| SttFailed (message : str)                     (* 500 *)
| SttTranscript (transcript confidence : pyval) (* 200 *)
| SttNothing.                                   (* 200: no speech recognised *)

Definition stt_status (r : stt_response) : Z :=
  match r with
  | SttNoAudio | SttApiError _ => 400
  | SttTimeout => 504
  | SttFailed _ => 500
  | SttTranscript _ _ | SttNothing => 200
  end.

(** [f"{confidence:.2%}"]: a number formats, anything else raises. *)
Definition format_percent (confidence : pyval) : result unit :=
  match confidence with
  | PInt _ | PBool _ => Ok tt
  | PStr _ =>
      Raise (Exn OtherException
               (lit "Unknown format code '%' for object of type 'str'"))
  | _ =>
      Raise (Exn TypeError
               (lit "unsupported format string passed to "
                ++ type_name confidence ++ lit ".__format__"))
  end.

(** [v.get(k, default)] *)
Definition method_get_default (v : pyval) (k : str) (default : pyval)
    : result pyval :=
  match v with
  | PDict d =>
      Ok (match dict_get k d with
          | Some x => x
          | None => default
          end)
  | _ =>
      Raise (Exn AttributeError
               (lit "'" ++ type_name v ++ lit "' object has no attribute 'get'"))
  end.

(** The message used when the service gives none. *)
Definition unknown_error : str := [26410; 30693; 37679; 35492]%N.

(** What the health endpoint reports. *)
Record health := mkHealth {
  health_model : pyval;
  available_keys : Z;
  current_key : pyval
}.

Section Handlers.

Variables tensor ndarray latents : Type.
Variable postprocess : tensor -> ndarray.
Variable tobytes : ndarray -> bytes.
Variable abspath : str -> str.
Variable model_get_conditioning_latents : nat -> str -> result latents.
Variable transferable : latents -> pyval.
Variable open_wb : str -> option exn.
Variable SPEAKER_WAV : str.

(** The copy of an upload into the file [wav_file.save] has opened at a
    path: [None] when every byte is written, [Some (n, e)] when the copy
    raises [e] with [n] bytes written. *)
Variable copy_stops : str -> bytes -> option (nat * exn).

(** [os.remove]: the exception it raises for a path that exists, if any. *)
Variable os_remove : str -> option exn.

(** [base64.b64encode(...).decode('utf-8')] *)
Variable b64encode : bytes -> str.

(** The recognition service, asked with the audio of the payload. *)
Variable stt_api : pyval -> stt_outcome.

(** Lines 50-66: the key manager, the configuration, a freshly loaded
    engine, and the features of the reference voice computed once; [fs]
    holds the files of the machine at that time. *)
Definition startup (key_file config_file : result pyval) (fs : files)
    : result (globals latents * pyval * pyval) :=
  key_manager <- init key_file ;;
  config <- load_config config_file ;;
  match get_speaker_embedding_dict abspath model_get_conditioning_latents
          transferable (mkTTS ∅ []) SPEAKER_WAV with
  | (Raise e, _) => Raise e
  | (Ok _speaker_embedding, tts_model) =>
      Ok ({| key_manager := key_manager; tts_model := tts_model; disk := fs |},
          config, _speaker_embedding)
  end.

(** [health_check]: nothing is caught here. *)
Definition health_check (config : pyval) (g : globals latents) : result health :=
  model <- method_get config (lit "model") ;;
  name <- get_current_key_name (key_manager g) ;;
  Ok {| health_model := model;
        available_keys := total_keys (key_manager g);
        current_key := name |}.

(** [wav_file.save(dst)]: the file is opened for writing, which creates
    or empties it, and the upload is copied into it; the file is closed
    also when the copy raises, and is left with what was written. *)
Definition save (content : bytes) (dst : str) (fs : files)
    : result unit * files :=
  match open_wb dst with
  | Some e => (Raise e, fs)
  | None =>
      match copy_stops dst content with
      | Some (n, e) => (Raise e, <[dst := take n content]> fs)
      | None => (Ok tt, <[dst := content]> fs)
      end
  end.

(** The [finally] block of [clone_speaker], lines 370-371. *)
Definition remove_if_exists (path : str) (fs : files) : result unit * files :=
  match fs !! path with
  | None => (Ok tt, fs)
  | Some _ =>
      match os_remove path with
      | Some e => (Raise e, fs)
      | None => (Ok tt, delete path fs)
      end
  end.

(** [clone_speaker]: [upload] is the content of the [wav_file] part, if
    the request has one; [temp_path] is the path made of the temporary
    directory and a fresh [uuid4].  The upload is saved outside the inner
    [try]; an exception of the [finally] block replaces the answer or the
    exception of the [try] block, and any exception is answered 500. *)
Definition clone_speaker (upload : option bytes) (temp_path : str)
    (g : globals latents) : clone_response * globals latents :=
  match upload with
  | None => (CloneNoFile, g)
  | Some content =>
      match save content temp_path (disk g) with
      | (Raise e, fs1) =>
          (CloneFailed (exn_str e),
           {| key_manager := key_manager g; tts_model := tts_model g;
              disk := fs1 |})
      | (Ok _, fs1) =>
          let '(r, model') :=
            get_speaker_embedding_dict abspath model_get_conditioning_latents
              transferable (tts_model g) temp_path in
          let '(removed, fs2) := remove_if_exists temp_path fs1 in
          (match removed, r with
           | Raise e, _ => CloneFailed (exn_str e)
           | Ok _, Ok embedding => CloneJson embedding
           | Ok _, Raise e => CloneFailed (exn_str e)
           end,
           {| key_manager := key_manager g; tts_model := model';
              disk := fs2 |})
      end
  end.

(** The part of [speech_to_text] after the audio was found. *)
Definition recognize (audio_content : pyval) : stt_response :=
  match stt_api audio_content with
  | PostTimeout => SttTimeout
  | PostRaises e => SttFailed (exn_str e)
  | Answered _ (Raise e) => SttFailed (exn_str e)
  | Answered status_code (Ok result) =>
      if negb (status_code =? 200) then
        match (error <- method_get_default result (lit "error") (PDict []) ;;
               method_get_default error (lit "message") (PStr unknown_error)) with
        | Ok error_msg => SttApiError error_msg
        | Raise e => SttFailed (exn_str e)
        end
      else
        match (has <- str_in (lit "results") result ;;
               if has : bool then
                 results <- getitem_str result (lit "results") ;;
                 n <- len results ;;
                 Ok (0 <? n)
               else Ok false) with
        | Raise e => SttFailed (exn_str e)
        | Ok false => SttNothing
        | Ok true =>
            match (results <- getitem_str result (lit "results") ;;
                   first <- getitem_int results 0 ;;
                   alternatives <- getitem_str first (lit "alternatives") ;;
                   best <- getitem_int alternatives 0 ;;
                   transcript <- getitem_str best (lit "transcript") ;;
                   confidence <- method_get_default best (lit "confidence") (PInt 0) ;;
                   _ <- format_percent confidence ;;
                   Ok (transcript, confidence)) with
            | Ok (transcript, confidence) => SttTranscript transcript confidence
            | Raise e => SttFailed (exn_str e)
            end
        end
  end.

(** [speech_to_text]: [file] is the content of the [audio] part, if the
    request has one; [is_json] and [data] are [request.is_json] and
    [request.get_json()].  The result holds the audio of each request
    sent to the recognition service. *)
Definition speech_to_text (file : option bytes) (is_json : bool) (data : pyval)
    : stt_response * list pyval :=
  match (match file with
         | Some content => Ok (PStr (b64encode content))
         | None =>
             if is_json then method_get data (lit "audio") else Ok PNone
         end) with
  | Raise e => (SttFailed (exn_str e), [])
  | Ok audio_content =>
      if negb (truthy audio_content) then (SttNoAudio, [])
      else (recognize audio_content, [audio_content])
  end.

End Handlers.

Arguments startup {latents}.
Arguments health_check {latents}.
Arguments clone_speaker {latents}.

End ServerMore.

(* ===================================================================== *)
(** ** More sample data                                                    *)
(* ===================================================================== *)

Module MoreSamples.

Import XttsV2 Server ServerMore.

(** An engine whose cache holds the features 7 of one file. *)
Definition warm_tts : XTTSStreamingTTS nat :=
  mkTTS {[ lit "/srv/voice.wav" := 7%nat ]} [lit "/srv/voice.wav"].

Definition warm_globals : globals nat :=
  mkGlobals (Samples.manager3 0) warm_tts ∅.

(** A body that asks a question. *)
Definition hello_body : pyval := PDict [(lit "text", PStr (lit " hello "))].

(** A backend that answers at once. *)
Definition answering : nat -> pyval -> str -> result str :=
  fun _ _ _ => Ok (lit "welcome").

(** The features of a speaker as the service hands them out. *)
Definition as_number (n : nat) : pyval := PInt (Z.of_nat n).

(** A file system where every path opens. *)
Definition opens : str -> option exn := fun _ => None.

(** An upload that is copied whole, and a file that can be removed. *)
Definition copies : str -> bytes -> option (nat * exn) := fun _ _ => None.

Definition removes : str -> option exn := fun _ => None.

(** A disk that is full after the first byte of an upload. *)
Definition disk_full : str -> bytes -> option (nat * exn) :=
  fun _ _ => Some (1%nat, Exn OSError (lit "[Errno 28] No space left on device")).

(** [os.path.join] of a directory and a file name. *)
Definition join : str -> str -> str := fun a b => a ++ lit "/" ++ b.

Definition outputs : str := lit "/srv/outputs".

(** The 32 digits of one [uuid4]. *)
Definition uuid : str := lit "3f2b8c1d9e0a4b7c8d6e5f4a3b2c1d0e".

(** The chat handlers on the sample engine, with a given one-shot
    synthesis, streaming synthesis being [Samples.engine_stream]. *)
Definition sample_handle (inference : str -> str -> nat -> result bytes)
    (backend : nat -> pyval -> str -> result str) :=
  handle (fun b : bytes => b) (fun b : bytes => b) (fun p => p)
    Samples.engine_latents inference opens backend (fun s => s)
    (lit "Morgan Freeman.wav") join outputs uuid.

(** A recognition service that times out. *)
Definition slow_api : pyval -> stt_outcome := fun _ => PostTimeout.

(** An engine that runs out of memory: at once when asked for the whole
    audio, after one chunk when asked for a stream. *)
Definition engine_failure : exn :=
  Exn OtherException (lit "CUDA out of memory").

Definition failing_inference : str -> str -> nat -> result bytes :=
  fun _ _ _ => Raise engine_failure.

Definition failing_stream
    : str -> str -> nat -> pyval -> bool -> list bytes * option exn :=
  fun _ _ _ _ _ => ([[x01; x00]], Some engine_failure).

(** The manager [__init__] builds from an empty list. *)
Definition empty_globals : globals nat :=
  mkGlobals
    {| GeminiChat.api_keys := PList []; GeminiChat.current_index := 0;
       GeminiChat.total_keys := 0 |}
    Samples.fresh_tts ∅.

(** The objects of the server once it has started on the pool of three. *)
Definition started_globals : globals nat :=
  mkGlobals (Samples.manager3 0)
    (mkTTS {[ lit "Morgan Freeman.wav" := 0%nat ]} [lit "Morgan Freeman.wav"])
    ∅.

End MoreSamples.

(* ===================================================================== *)
(** ** The credential pool                                                 *)
(* ===================================================================== *)

Module PoolFacts.

Import GeminiChat.

Lemma seq_index_in_range {A} (l : list A) (i : Z) :
  0 <= i < Z.of_nat (length l) -> is_Some (seq_index l i).
Proof.
  intros Hi. unfold seq_index.
  assert (H0 : (0 <=? i) = true) by lia.
  assert (H1 : (i <? Z.of_nat (length l)) = true) by lia.
  rewrite H0, H1. simpl. apply lookup_lt_is_Some. lia.
Qed.

Lemma seq_index_elem {A} (l : list A) (i : Z) (x : A) :
  seq_index l i = Some x -> In x l.
Proof.
  unfold seq_index. intros H. apply list_elem_of_In.
  destruct ((0 <=? i) && (i <? Z.of_nat (length l))).
  - eapply list_elem_of_lookup_2; eauto.
  - destruct ((- Z.of_nat (length l) <=? i) && (i <? 0)); [|discriminate].
    eapply list_elem_of_lookup_2; eauto.
Qed.

(** What [wf_pool] says, field by field. *)
Lemma wf_pool_inv (km : APIKeyManager) :
  wf_pool km = true ->
  exists l, api_keys km = PList l
            /\ forallb is_credential l = true
            /\ total_keys km = Z.of_nat (length l)
            /\ 0 <= current_index km < total_keys km.
Proof.
  unfold wf_pool. destruct (api_keys km) as [| | | |l|]; try discriminate.
  intros H. exists l.
  repeat (apply andb_prop in H; destruct H as [H ?]).
  repeat split; auto; lia.
Qed.

Lemma credential_fields (v : pyval) :
  is_credential v = true ->
  (exists k, getitem_str v (lit "key") = Ok k)
  /\ (exists n, getitem_str v (lit "name") = Ok n).
Proof.
  destruct v as [| | | | |d]; simpl; try discriminate.
  intros H. apply andb_prop in H as [Hk Hn].
  apply bool_decide_eq_true_1 in Hk as [k Hk].
  apply bool_decide_eq_true_1 in Hn as [n Hn].
  unfold getitem_str. rewrite Hk, Hn. eauto.
Qed.

Lemma wf_current_entry (km : APIKeyManager) :
  wf_pool km = true ->
  exists entry, getitem_int (api_keys km) (current_index km) = Ok entry
                /\ is_credential entry = true.
Proof.
  intros Hwf. destruct (wf_pool_inv km Hwf) as (l & Hl & Hall & Hn & Hi).
  rewrite Hl. simpl.
  destruct (seq_index_in_range l (current_index km)) as [x Hx]; [lia|].
  rewrite Hx. exists x. split; [reflexivity|].
  rewrite forallb_forall in Hall. apply Hall. eapply seq_index_elem; eauto.
Qed.

Lemma wf_get_current_key (km : APIKeyManager) :
  wf_pool km = true -> exists k, get_current_key km = Ok k.
Proof.
  intros Hwf. destruct (wf_current_entry km Hwf) as (x & Hx & Hc).
  unfold get_current_key. rewrite Hx. simpl.
  apply credential_fields in Hc. tauto.
Qed.

Lemma wf_get_current_key_name (km : APIKeyManager) :
  wf_pool km = true -> exists n, get_current_key_name km = Ok n.
Proof.
  intros Hwf. destruct (wf_current_entry km Hwf) as (x & Hx & Hc).
  unfold get_current_key_name. rewrite Hx. simpl.
  apply credential_fields in Hc. tauto.
Qed.

Lemma wf_advanced (km : APIKeyManager) :
  wf_pool km = true -> wf_pool (advanced km) = true.
Proof.
  intros Hwf. destruct (wf_pool_inv km Hwf) as (l & Hl & Hall & Hn & Hi).
  unfold wf_pool, advanced. simpl. rewrite Hl, Hall. simpl.
  pose proof (Z.mod_pos_bound (current_index km + 1) (total_keys km)).
  repeat (apply andb_true_intro; split); lia.
Qed.

Lemma wf_rotate_key (km : APIKeyManager) :
  wf_pool km = true -> rotate_key km = (Ok tt, advanced km).
Proof.
  intros Hwf. destruct (wf_pool_inv km Hwf) as (l & Hl & Hall & Hn & Hi).
  unfold rotate_key.
  assert (Hz : (total_keys km =? 0) = false) by lia. rewrite Hz.
  destruct (wf_get_current_key_name _ (wf_advanced km Hwf)) as [n Hname].
  unfold advanced in Hname. rewrite Hname. reflexivity.
Qed.

Lemma index_after_0 (n i : Z) : 0 <= i < n -> index_after n i 0 = i.
Proof. intros H. unfold index_after. rewrite Z.add_0_r. apply Z.mod_small, H. Qed.

Lemma index_after_S (n i : Z) (k : nat) :
  0 < n -> index_after n ((i + 1) mod n) k = index_after n i (S k).
Proof.
  intros Hn. unfold index_after.
  rewrite Zplus_mod_idemp_l. f_equal. lia.
Qed.

Lemma wf_rotate_times (k : nat) (km : APIKeyManager) :
  wf_pool km = true ->
  exists km', rotate_times k km = (Ok tt, km')
              /\ wf_pool km' = true
              /\ api_keys km' = api_keys km
              /\ total_keys km' = total_keys km
              /\ current_index km'
                 = index_after (total_keys km) (current_index km) k.
Proof.
  revert km. induction k as [|k IH]; intros km Hwf.
  - exists km. destruct (wf_pool_inv km Hwf) as (l & _ & _ & _ & Hi).
    simpl. rewrite index_after_0 by lia. auto.
  - simpl. rewrite (wf_rotate_key km Hwf).
    destruct (IH _ (wf_advanced km Hwf)) as (km' & Hr & Hwf' & Hk & Hn & Hi).
    exists km'. simpl in *. repeat split; auto.
    rewrite Hi. destruct (wf_pool_inv km Hwf) as (l & _ & _ & _ & Hb).
    apply index_after_S. lia.
Qed.

Lemma index_after_cycle (n i : Z) :
  0 <= i < n -> index_after n i (Z.to_nat n) = i.
Proof.
  intros H. unfold index_after. rewrite Z2Nat.id by lia.
  rewrite <- (Z.mul_1_l n) at 1. rewrite Z.mod_add by lia.
  apply Z.mod_small, H.
Qed.

End PoolFacts.

Import GeminiChat PoolFacts.

(** C4. In a pool of [n >= 1] credentials, whatever the active index, one
    [rotate_key] succeeds and moves index [i] to [(i + 1) mod n], and [n]
    calls in a row succeed and leave a manager on which [get_current_key]
    gives the same credential as before (the manager is the one before). *)
Theorem rotate_key_cycle (km : APIKeyManager) :
  wf_pool km = true ->
  (fst (rotate_key km) = Ok tt
   /\ current_index (snd (rotate_key km))
      = (current_index km + 1) mod total_keys km)
  /\ (fst (rotate_times (Z.to_nat (total_keys km)) km) = Ok tt
      /\ snd (rotate_times (Z.to_nat (total_keys km)) km) = km
      /\ get_current_key (snd (rotate_times (Z.to_nat (total_keys km)) km))
         = get_current_key km).
Proof.
  intros Hwf. split.
  - rewrite (wf_rotate_key km Hwf). simpl. auto.
  - destruct (wf_rotate_times (Z.to_nat (total_keys km)) km Hwf)
      as (km' & Hr & _ & Hk & Hn & Hi).
    destruct (wf_pool_inv km Hwf) as (l & _ & _ & _ & Hb).
    rewrite index_after_cycle in Hi by lia.
    rewrite Hr. simpl.
    assert (km' = km) as ->.
    { destruct km', km. simpl in *. congruence. }
    auto.
Qed.

(* ===================================================================== *)
(** ** The retry loop                                                      *)
(* ===================================================================== *)

Module RetryFacts.

Lemma rotated_0 (km : APIKeyManager) : wf_pool km = true -> rotated km 0 = km.
Proof.
  intros Hwf. destruct (wf_pool_inv km Hwf) as (l & _ & _ & _ & Hi).
  unfold rotated. rewrite index_after_0 by lia. destruct km; reflexivity.
Qed.

Lemma advanced_rotated (km : APIKeyManager) (k : nat) :
  wf_pool km = true -> advanced (rotated km k) = rotated km (S k).
Proof.
  intros Hwf. destruct (wf_pool_inv km Hwf) as (l & _ & _ & _ & Hi).
  unfold advanced, rotated. simpl. f_equal.
  unfold index_after. rewrite Zplus_mod_idemp_l. f_equal. lia.
Qed.

Lemma wf_rotated (km : APIKeyManager) (k : nat) :
  wf_pool km = true -> wf_pool (rotated km k) = true.
Proof.
  intros Hwf. induction k as [|k IH].
  - rewrite rotated_0; auto.
  - rewrite <- advanced_rotated by auto. apply wf_advanced, IH.
Qed.

Lemma index_after_inj (n i : Z) (a b : nat) :
  0 < n -> Z.of_nat a < n -> Z.of_nat b < n ->
  index_after n i a = index_after n i b -> a = b.
Proof.
  unfold index_after. intros Hn Ha Hb H.
  pose proof (Z.div_mod (i + Z.of_nat a) n ltac:(lia)) as Ea.
  pose proof (Z.div_mod (i + Z.of_nat b) n ltac:(lia)) as Eb.
  rewrite H in Ea.
  assert ((i + Z.of_nat a) / n = (i + Z.of_nat b) / n) by nia.
  nia.
Qed.

Section Loop.

Variable backend : nat -> pyval -> str -> result str.
Variable user_message : str.

(** One iteration on a well-formed pool. *)
Lemma retry_loop_step (fuel a : nat) (le : option exn) (km : APIKeyManager) :
  wf_pool km = true ->
  retry_loop backend user_message (S fuel) a le km =
  match backend a (key_of km) user_message with
  | Ok response =>
      (Ok response, km, [Attempt (current_index km) (key_of km)])
  | Raise e =>
      if is_quota_error e then
        let '(r, km', evs) :=
          retry_loop backend user_message fuel (S a) (Some e) (advanced km) in
        (r, km', Attempt (current_index km) (key_of km) :: Rotate :: evs)
      else (Raise e, km, [Attempt (current_index km) (key_of km)])
  end.
Proof.
  intros Hwf. cbn [retry_loop]. unfold key_of.
  destruct (wf_get_current_key km Hwf) as [key Hkey]. rewrite Hkey.
  destruct (backend a key user_message) as [response|e]; [reflexivity|].
  destruct (is_quota_error e); [|reflexivity].
  destruct (wf_get_current_key_name km Hwf) as [name Hname]. rewrite Hname.
  rewrite (wf_rotate_key km Hwf).
  destruct (retry_loop backend user_message fuel (S a) (Some e) (advanced km))
    as [[r km'] evs].
  reflexivity.
Qed.

(** The shape of every trace: at most [fuel] attempts, on consecutive
    indices, one rotation between two of them. *)
Lemma retry_loop_trace (fuel a : nat) (le : option exn) (km : APIKeyManager) :
  wf_pool km = true ->
  exists m, (m <= fuel)%nat
    /\ attempted (snd (retry_loop backend user_message fuel a le km))
       = map (index_after (total_keys km) (current_index km)) (seq 0 m)
    /\ ((1 <= fuel)%nat ->
        paced (snd (retry_loop backend user_message fuel a le km)) = true).
Proof.
  revert a le km. induction fuel as [|fuel IH]; intros a le km Hwf.
  - exists O. simpl. repeat split; auto. lia.
  - rewrite retry_loop_step by assumption.
    destruct (wf_pool_inv km Hwf) as (l & _ & _ & _ & Hi).
    assert (Hhere : [current_index km]
                    = map (index_after (total_keys km) (current_index km)) (seq 0 1)).
    { simpl. rewrite index_after_0 by lia. reflexivity. }
    destruct (backend a (key_of km) user_message) as [response|e].
    { exists 1%nat. simpl snd. repeat split; auto. lia. }
    destruct (is_quota_error e).
    2:{ exists 1%nat. simpl snd. repeat split; auto. lia. }
    destruct (IH (S a) (Some e) (advanced km) (wf_advanced km Hwf))
      as (m & Hm & Hatt & Hpaced).
    destruct (retry_loop backend user_message fuel (S a) (Some e) (advanced km))
      as [[r km'] evs] eqn:Hrun.
    exists (S m). simpl snd in *. split; [lia|]. split.
    + change (attempted (Attempt (current_index km) (key_of km) :: Rotate :: evs))
        with (current_index km :: attempted evs).
      rewrite Hatt. cbn [seq map]. rewrite index_after_0 by lia. f_equal.
      rewrite <- seq_shift, map_map. apply map_ext. intros j.
      simpl. apply index_after_S. lia.
    + intros _. cbn [paced]. destruct evs as [|ev evs']; [reflexivity|].
      apply Hpaced. destruct fuel as [|fuel']; [|lia].
      simpl in Hrun. inversion Hrun.
Qed.

Variable km : APIKeyManager.
Hypothesis Hwf : wf_pool km = true.

(** [k] quota-class failures in a row take the loop [k] iterations
    further, one rotation each. *)
Lemma retry_loop_skip (k : nat) :
  forall (fuel a : nat) (le : option exn),
    (forall j, (a <= j < k + a)%nat ->
               quota_failure (answer backend user_message km j) = true) ->
    retry_loop backend user_message (k + fuel) a le (rotated km a) =
    let '(r, km', evs) :=
      retry_loop backend user_message fuel (k + a)
        (last_error_at backend user_message km le a k) (rotated km (k + a)) in
    (r, km', quota_prefix km a k ++ evs).
Proof.
  induction k as [|k IH]; intros fuel a le Hq.
  - simpl. destruct (retry_loop backend user_message fuel a le (rotated km a))
      as [[r km'] evs]. reflexivity.
  - cbn [Nat.add]. rewrite retry_loop_step by (apply wf_rotated, Hwf).
    pose proof (Hq a ltac:(lia)) as Ha. unfold answer in Ha.
    destruct (backend a (key_of (rotated km a)) user_message) as [?|e] eqn:Hans;
      [discriminate|].
    simpl in Ha. rewrite Ha. rewrite advanced_rotated by assumption.
    rewrite (IH fuel (S a) (Some e)) by (intros j Hj; apply Hq; lia).
    replace (k + S a)%nat with (S (k + a)) by lia.
    assert (Hle : last_error_at backend user_message km (Some e) (S a) k
                  = last_error_at backend user_message km le a (S k)).
    { destruct k as [|k']; simpl.
      - unfold answer. rewrite Hans. reflexivity.
      - replace (k' + S a)%nat with (S (k' + a)) by lia. reflexivity. }
    rewrite Hle.
    destruct (retry_loop backend user_message fuel (S (k + a))
                (last_error_at backend user_message km le a (S k))
                (rotated km (S (k + a)))) as [[r km'] evs].
    reflexivity.
Qed.

End Loop.

Lemma attempted_app (evs1 evs2 : list event) :
  attempted (evs1 ++ evs2) = attempted evs1 ++ attempted evs2.
Proof. unfold attempted. apply flat_map_app. Qed.

Lemma rotations_app (evs1 evs2 : list event) :
  rotations (evs1 ++ evs2) = (rotations evs1 + rotations evs2)%nat.
Proof. unfold rotations. rewrite flat_map_app, length_app. reflexivity. Qed.

Lemma attempted_quota_prefix (km : APIKeyManager) (a k : nat) :
  length (attempted (quota_prefix km a k)) = k.
Proof.
  unfold quota_prefix. revert a. induction k as [|k IH]; intros a; simpl; auto.
Qed.

Lemma rotations_quota_prefix (km : APIKeyManager) (a k : nat) :
  rotations (quota_prefix km a k) = k.
Proof.
  unfold quota_prefix, rotations. revert a.
  induction k as [|k IH]; intros a; simpl; auto.
Qed.

End RetryFacts.

Import RetryFacts.

(** C1. On a pool of [n >= 1] credentials, for every backend and every
    message, a call of [chat_with_retry] with the default [max_retries]
    makes at most [n] backend attempts; the attempts use the consecutive
    indices [i, i+1, ...] modulo [n] from the active index [i], so no index
    is used twice; and every attempt after the first comes after exactly one
    rotation. *)
Theorem chat_with_retry_one_cycle
    (backend : nat -> pyval -> str -> result str) (user_message : str)
    (km : APIKeyManager) :
  wf_pool km = true ->
  let evs := snd (chat_with_retry backend user_message km None) in
  (1 <= length (attempted evs) <= Z.to_nat (total_keys km))%nat
  /\ List.NoDup (attempted evs)
  /\ attempted evs
     = map (index_after (total_keys km) (current_index km))
           (seq 0 (length (attempted evs)))
  /\ paced evs = true.
Proof.
  intros Hwf evs. subst evs. unfold chat_with_retry.
  destruct (wf_pool_inv km Hwf) as (l & _ & _ & Hn & Hi).
  destruct (retry_loop_trace backend user_message (Z.to_nat (total_keys km)) 0
              None km Hwf) as (m & Hm & Hatt & Hpaced).
  specialize (Hpaced ltac:(lia)).
  set (evs := snd (retry_loop backend user_message (Z.to_nat (total_keys km)) 0
                     None km)) in *.
  assert (Hlen : length (attempted evs) = m).
  { rewrite Hatt, length_map, length_seq. reflexivity. }
  rewrite Hlen. repeat split; auto.
  - destruct m; [|lia]. simpl in Hatt.
    destruct evs as [|[] ?]; simpl in Hpaced, Hatt; discriminate.
  - rewrite Hatt. apply NoDup_map_NoDup_ForallPairs; [|apply seq_NoDup].
    intros a b Ha Hb Heq. apply in_seq in Ha, Hb.
    eapply index_after_inj; eauto; lia.
Qed.

(** The run of [chat_with_retry] once its first [k] attempts have failed
    with a quota-class error and at least one more iteration is allowed. *)
Lemma chat_with_retry_reaches
    (backend : nat -> pyval -> str -> result str) (user_message : str)
    (km : APIKeyManager) (max_retries : option Z) (k f : nat) :
  wf_pool km = true ->
  allowed km max_retries = (k + S f)%nat ->
  (forall j, (j < k)%nat ->
             quota_failure (answer backend user_message km j) = true) ->
  chat_with_retry backend user_message km max_retries =
  let here := Attempt (current_index (rotated km k)) (key_of (rotated km k)) in
  match answer backend user_message km k with
  | Ok response =>
      (Ok response, rotated km k, quota_prefix km 0 k ++ [here])
  | Raise e =>
      if is_quota_error e then
        let '(r, km', evs) :=
          retry_loop backend user_message f (S k) (Some e) (rotated km (S k)) in
        (r, km', quota_prefix km 0 k ++ here :: Rotate :: evs)
      else (Raise e, rotated km k, quota_prefix km 0 k ++ [here])
  end.
Proof.
  intros Hwf Hallowed Hq.
  unfold chat_with_retry. fold (allowed km max_retries). rewrite Hallowed.
  pose proof (retry_loop_skip backend user_message km Hwf k (S f) 0 None) as Hskip.
  rewrite rotated_0, Nat.add_0_r in Hskip by assumption.
  rewrite Hskip by (intros j Hj; apply Hq; lia). clear Hskip.
  rewrite retry_loop_step by (apply wf_rotated, Hwf).
  unfold answer. cbv zeta.
  destruct (backend k (key_of (rotated km k)) user_message) as [response|e];
    [reflexivity|].
  destruct (is_quota_error e); [|reflexivity].
  rewrite advanced_rotated by assumption.
  destruct (retry_loop backend user_message f (S k) (Some e) (rotated km (S k)))
    as [[r km'] evs].
  reflexivity.
Qed.

(** C2. In a call of [chat_with_retry] on a well-formed pool, take an
    attempt [k] that is reached (the [k] attempts before it failed with a
    quota-class error, and [k] is below the number of allowed attempts).
    Its failure is followed by a rotation exactly when the error is
    quota-class, and by a further attempt exactly when the error is
    quota-class and an attempt is still allowed.  Any other error is raised
    as it is, the trace ending at attempt [k] with the manager still on that
    credential; a reply is returned as it is, likewise. *)
Theorem chat_with_retry_failover
    (backend : nat -> pyval -> str -> result str) (user_message : str)
    (km : APIKeyManager) (max_retries : option Z) (k : nat) :
  wf_pool km = true ->
  (k < allowed km max_retries)%nat ->
  (forall j, (j < k)%nat ->
             quota_failure (answer backend user_message km j) = true) ->
  let run := chat_with_retry backend user_message km max_retries in
  let a := answer backend user_message km k in
  exists rest,
    snd run
    = quota_prefix km 0 k
      ++ Attempt (current_index (rotated km k)) (key_of (rotated km k)) :: rest
    /\ ((exists rest', rest = Rotate :: rest') <-> quota_failure a = true)
    /\ ((exists i key rest', rest = Rotate :: Attempt i key :: rest')
        <-> quota_failure a = true /\ (S k < allowed km max_retries)%nat)
    /\ (forall e, a = Raise e -> is_quota_error e = false ->
          rest = [] /\ fst (fst run) = Raise e /\ snd (fst run) = rotated km k)
    /\ (forall response, a = Ok response ->
          rest = [] /\ fst (fst run) = Ok response
          /\ snd (fst run) = rotated km k).
Proof.
  intros Hwf Hk Hq run a. subst run a.
  remember (allowed km max_retries - S k)%nat as f eqn:Hf.
  assert (Hallowed : allowed km max_retries = (k + S f)%nat) by lia.
  rewrite (chat_with_retry_reaches backend user_message km max_retries k f)
    by assumption.
  cbv zeta.
  destruct (answer backend user_message km k) as [response|e] eqn:Hans.
  { exists []. split; [|split; [|split; [|split]]].
    - reflexivity.
    - split; [intros (? & ?)|]; discriminate.
    - split; [intros (? & ? & ? & ?)|intros [? _]]; discriminate.
    - intros e; discriminate.
    - intros r [= <-]. auto. }
  simpl quota_failure.
  destruct (is_quota_error e) eqn:Hquota.
  2:{ exists []. split; [|split; [|split; [|split]]].
      - reflexivity.
      - split; [intros (? & ?)|]; discriminate.
      - split; [intros (? & ? & ? & ?)|intros [? _]]; discriminate.
      - intros e0 [= <-] _. auto.
      - intros r; discriminate. }
  destruct f as [|f'].
  - exists [Rotate]. split; [|split; [|split; [|split]]].
    + reflexivity.
    + split; eauto.
    + split; [intros (? & ? & ? & ?); discriminate|intros [_ ?]; lia].
    + intros e0 [= <-] ?. congruence.
    + intros r; discriminate.
  - rewrite retry_loop_step by (apply wf_rotated, Hwf).
    assert (Hshape : exists r km' evs,
      (match backend (S k) (key_of (rotated km (S k))) user_message with
       | Ok response =>
           (Ok response, rotated km (S k),
            [Attempt (current_index (rotated km (S k))) (key_of (rotated km (S k)))])
       | Raise e0 =>
           if is_quota_error e0 then
             let '(r, km', evs) :=
               retry_loop backend user_message f' (S (S k)) (Some e0)
                 (advanced (rotated km (S k))) in
             (r, km',
              Attempt (current_index (rotated km (S k))) (key_of (rotated km (S k)))
              :: Rotate :: evs)
           else
             (Raise e0, rotated km (S k),
              [Attempt (current_index (rotated km (S k))) (key_of (rotated km (S k)))])
       end)
      = (r, km',
         Attempt (current_index (rotated km (S k))) (key_of (rotated km (S k)))
         :: evs)).
    { destruct (backend (S k) _ user_message) as [?|e0]; [eauto|].
      destruct (is_quota_error e0); [|eauto].
      destruct (retry_loop backend user_message f' (S (S k)) (Some e0) _)
        as [[r km'] evs]. eauto. }
    destruct Hshape as (r & km' & evs & ->).
    eexists (Rotate :: _ :: evs). split; [|split; [|split; [|split]]].
    + reflexivity.
    + split; eauto.
    + split; [intros _; split; [reflexivity|lia]|intros _; eauto].
    + intros e0 [= <-] ?. congruence.
    + intros r0; discriminate.
Qed.

(** C3. When every allowed attempt (at least one) of a call of
    [chat_with_retry] on a well-formed pool fails with a quota-class error,
    the call raises a new [Exception] whose text is the fixed prefix
    followed by the text of the error of the last attempt; this is not that
    error itself, and no reply is returned.  All the allowed attempts were
    made, each followed by a rotation. *)
Theorem chat_with_retry_exhausted
    (backend : nat -> pyval -> str -> result str) (user_message : str)
    (km : APIKeyManager) (max_retries : option Z) :
  wf_pool km = true ->
  (1 <= allowed km max_retries)%nat ->
  (forall j, (j < allowed km max_retries)%nat ->
             quota_failure (answer backend user_message km j) = true) ->
  let run := chat_with_retry backend user_message km max_retries in
  exists last,
    answer backend user_message km (allowed km max_retries - 1) = Raise last
    /\ is_quota_error last = true
    /\ fst (fst run) = Raise (Exn Exception (exhausted_prefix ++ exn_str last))
    /\ Exn Exception (exhausted_prefix ++ exn_str last) <> last
    /\ snd run = quota_prefix km 0 (allowed km max_retries)
    /\ snd (fst run) = rotated km (allowed km max_retries).
Proof.
  intros Hwf Hpos Hq run. subst run.
  unfold chat_with_retry. fold (allowed km max_retries).
  set (n := allowed km max_retries) in *.
  pose proof (retry_loop_skip backend user_message km Hwf n 0 0 None) as Hskip.
  rewrite rotated_0, !Nat.add_0_r in Hskip by assumption.
  rewrite Hskip by (intros j Hj; apply Hq; lia). clear Hskip.
  destruct n as [|n']; [lia|].
  pose proof (Hq n' ltac:(lia)) as Hlast.
  cbn [Nat.sub]. rewrite Nat.sub_0_r.
  cbn [retry_loop last_error_at]. rewrite Nat.add_0_r.
  destruct (answer backend user_message km n') as [?|last]; [discriminate|].
  exists last. simpl in Hlast. simpl. rewrite app_nil_r.
  repeat split; auto.
  intros Heq. destruct last as [cls s]. simpl in Heq.
  injection Heq as _ Hs. apply (f_equal (@length N)) in Hs.
  simpl in Hs. lia.
Qed.

(* ===================================================================== *)
(** ** Construction of the pool                                            *)
(* ===================================================================== *)

Lemma init_wf (file : result pyval) (km : APIKeyManager) (l : list pyval) :
  init file = Ok km ->
  api_keys km = PList l ->
  forallb is_credential l = true ->
  1 <= total_keys km ->
  wf_pool km = true.
Proof.
  unfold init, _load_api_keys. intros Hinit Hl Hall Hpos.
  destruct file as [data|e]; [|discriminate]. simpl in Hinit.
  destruct (getitem_str data (lit "api_keys")) as [keys|e]; [|discriminate].
  simpl in Hinit.
  destruct (len keys) as [n|e] eqn:Hlen; [|discriminate].
  injection Hinit as <-. simpl in *. subst keys. injection Hlen as <-.
  unfold wf_pool. simpl. rewrite Hall. simpl.
  repeat (apply andb_true_intro; split); lia.
Qed.

(** C5, as the code has it.  [__init__] raises when the key file cannot be
    read or decoded, when the decoded value has no [api_keys] entry, and
    when that entry has no length; in every other case it returns a manager
    on index 0, an empty list included.  On a manager it returned whose
    [api_keys] is a list of at least one entry, each with a [key] and a
    [name], any number of [rotate_key] calls succeeds, and after them
    [get_current_key] and [get_current_key_name] succeed with the index
    inside the pool. *)
Theorem pool_init_and_access (file : result pyval) :
  (forall e, file = Raise e -> init file = Raise e)
  /\ (forall data e,
        file = Ok data -> getitem_str data (lit "api_keys") = Raise e ->
        init file = Raise e)
  /\ (forall data keys e,
        file = Ok data -> getitem_str data (lit "api_keys") = Ok keys ->
        len keys = Raise e -> init file = Raise e)
  /\ (forall data keys n,
        file = Ok data -> getitem_str data (lit "api_keys") = Ok keys ->
        len keys = Ok n ->
        init file = Ok {| api_keys := keys; current_index := 0; total_keys := n |})
  /\ (forall km l,
        init file = Ok km -> api_keys km = PList l ->
        forallb is_credential l = true -> 1 <= total_keys km ->
        forall k, exists km',
          rotate_times k km = (Ok tt, km')
          /\ (exists key, get_current_key km' = Ok key)
          /\ (exists name, get_current_key_name km' = Ok name)
          /\ 0 <= current_index km' < total_keys km').
Proof.
  unfold init, _load_api_keys.
  split; [|split; [|split; [|split]]].
  - intros e ->. reflexivity.
  - intros data e -> H. simpl. rewrite H. reflexivity.
  - intros data keys e -> H Hlen. simpl. rewrite H. simpl. rewrite Hlen. reflexivity.
  - intros data keys n -> H Hlen. simpl. rewrite H. simpl. rewrite Hlen. reflexivity.
  - intros km l Hinit Hl Hall Hpos k.
    pose proof (init_wf file km l Hinit Hl Hall Hpos) as Hwf.
    destruct (wf_rotate_times k km Hwf) as (km' & Hr & Hwf' & _ & _ & _).
    exists km'. split; [assumption|].
    split; [apply wf_get_current_key, Hwf'|].
    split; [apply wf_get_current_key_name, Hwf'|].
    destruct (wf_pool_inv km' Hwf') as (? & _ & _ & _ & ?). assumption.
Qed.

(** C5 fails on a key file whose list is empty: the manager is built,
    with no key, and then [get_current_key], [get_current_key_name] and
    [rotate_key] all raise. *)
Lemma pool_init_accepts_empty_list :
  exists km,
    init Samples.key_file0 = Ok km
    /\ total_keys km = 0
    /\ get_current_key km = Raise (Exn IndexError (lit "list index out of range"))
    /\ get_current_key_name km
       = Raise (Exn IndexError (lit "list index out of range"))
    /\ fst (rotate_key km)
       = Raise (Exn ZeroDivisionError (lit "integer modulo by zero")).
Proof. eexists. repeat split. Qed.

(** The pool of three credentials, five rotations after its construction. *)
Lemma pool_init_and_access_witness :
  exists km',
    rotate_times 5 (Samples.manager3 0) = (Ok tt, km')
    /\ (exists key, get_current_key km' = Ok key)
    /\ (exists name, get_current_key_name km' = Ok name)
    /\ 0 <= current_index km' < total_keys km'.
Proof.
  apply (proj2 (proj2 (proj2 (proj2 (pool_init_and_access Samples.key_file3))))
           (Samples.manager3 0) _ eq_refl eq_refl eq_refl).
  simpl. lia.
Defined.

(* ===================================================================== *)
(** ** Instances on the sample pool                                        *)
(* ===================================================================== *)

(** Three rotations of the pool of three, from index 2. *)
Lemma rotate_key_cycle_witness :
  (fst (rotate_key (Samples.manager3 2)) = Ok tt
   /\ current_index (snd (rotate_key (Samples.manager3 2))) = (2 + 1) mod 3)
  /\ (fst (rotate_times 3 (Samples.manager3 2)) = Ok tt
      /\ snd (rotate_times 3 (Samples.manager3 2)) = Samples.manager3 2
      /\ get_current_key (snd (rotate_times 3 (Samples.manager3 2)))
         = get_current_key (Samples.manager3 2)).
Proof. apply (rotate_key_cycle (Samples.manager3 2)). reflexivity. Defined.

(** A call from index 1 against a backend out of quota on every key. *)
Lemma chat_with_retry_one_cycle_witness :
  let evs := snd (chat_with_retry Samples.always_quota (lit "hello")
                    (Samples.manager3 1) None) in
  (1 <= length (attempted evs) <= 3)%nat
  /\ List.NoDup (attempted evs)
  /\ attempted evs = map (index_after 3 1) (seq 0 (length (attempted evs)))
  /\ paced evs = true.
Proof.
  apply (chat_with_retry_one_cycle Samples.always_quota (lit "hello")
           (Samples.manager3 1)).
  reflexivity.
Defined.

(** A quota error on the first key, then an invalid-key error on the
    second: one rotation, two attempts, the second error raised. *)
Lemma chat_with_retry_failover_witness :
  let run := chat_with_retry (Samples.quota_then (Raise Samples.bad_key_error))
               (lit "hello") (Samples.manager3 0) None in
  exists rest,
    snd run
    = [Attempt 0 (PStr (lit "AAA")); Rotate] ++ Attempt 1 (PStr (lit "BBB")) :: rest
    /\ rest = []
    /\ fst (fst run) = Raise Samples.bad_key_error
    /\ current_index (snd (fst run)) = 1.
Proof.
  destruct (chat_with_retry_failover
              (Samples.quota_then (Raise Samples.bad_key_error))
              (lit "hello") (Samples.manager3 0) None 1)
    as (rest & Htrace & _ & _ & Hother & _).
  - reflexivity.
  - unfold allowed. simpl. lia.
  - intros j Hj. assert (j = 0%nat) as -> by lia. reflexivity.
  - destruct (Hother Samples.bad_key_error eq_refl eq_refl) as (-> & Hres & Hkm).
    exists [].
    split; [exact Htrace|].
    split; [reflexivity|].
    split; [exact Hres|].
    rewrite Hkm. reflexivity.
Defined.

(** Three quota errors from index 2: the final exception quotes the last
    one, and the manager is back on index 2. *)
Lemma chat_with_retry_exhausted_witness :
  let run := chat_with_retry Samples.always_quota (lit "hello")
               (Samples.manager3 2) None in
  fst (fst run)
  = Raise (Exn Exception (exhausted_prefix ++ exn_str Samples.quota_error))
  /\ length (attempted (snd run)) = 3%nat
  /\ snd (fst run) = Samples.manager3 2.
Proof.
  destruct (chat_with_retry_exhausted Samples.always_quota (lit "hello")
              (Samples.manager3 2) None)
    as (last & Hlast & _ & Hres & _ & Htrace & Hkm).
  - reflexivity.
  - unfold allowed. simpl. lia.
  - intros j _. reflexivity.
  - injection Hlast as <-.
    split; [exact Hres|].
    split; [rewrite Htrace; reflexivity|].
    rewrite Hkm. reflexivity.
Defined.

(* ===================================================================== *)
(** ** The chat handlers                                                   *)
(* ===================================================================== *)

Import XttsV2 Server.

(** The two checks accept a body only when it is an object whose [text] is
    a string with something left once stripped; a rejection is a 400. *)
Lemma check_text_gate (data : pyval) :
  match check_text data with
  | Ok (Accepted user_text) =>
      exists d s, data = PDict d /\ dict_get (lit "text") d = Some (PStr s)
                  /\ user_text = strip s /\ user_text <> []
  | Ok (Rejected r) => status r = 400
  | Raise _ => True
  end.
Proof.
  unfold check_text.
  destruct data as [|b|z|s|l|d]; cbn [truthy].
  - reflexivity.
  - destruct b; cbn; auto.
  - destruct (z =? 0); cbn; auto.
  - destruct s as [|c s]; cbn [length Nat.eqb negb bind str_in]; [reflexivity|].
    destruct (contains (lit "text") (c :: s)); cbn; auto.
  - destruct l as [|x l]; cbn [length Nat.eqb negb bind str_in]; [reflexivity|].
    destruct (existsb _ (x :: l)); cbn; auto.
  - destruct d as [|kv d]; cbn [length Nat.eqb negb bind str_in]; [reflexivity|].
    destruct (dict_get (lit "text") (kv :: d)) as [v|] eqn:Hd.
    2:{ reflexivity. }
    cbn [bool_decide decide_rel is_Some_dec negb getitem_str bind]. rewrite Hd.
    cbn [bind]. destruct v as [| | |s| |]; cbn [method_strip bind]; auto.
    destruct (strip s) as [|c t] eqn:Hs; cbn; [reflexivity|].
    exists (kv :: d), s. rewrite Hs. repeat split; auto.
Qed.

Lemma str_eqb_eq (a b : str) : str_eqb a b = true <-> a = b.
Proof.
  revert b. induction a as [|x a IH]; intros [|y b]; cbn [str_eqb];
    try (split; [discriminate|discriminate]); [tauto|].
  rewrite andb_true_iff, N.eqb_eq, IH.
  split; [intros [-> ->]; reflexivity|intros [= -> ->]; auto].
Qed.

(** The membership test of line 120 on a list: some element is the
    string ["text"]. *)
Lemma holds_text (k : str) (l : list pyval) :
  existsb (fun x => match x with PStr s => str_eqb k s | _ => false end) l
  = true
  <-> In (PStr k) l.
Proof.
  rewrite existsb_exists. split.
  - intros (x & Hin & Hx). destruct x; try discriminate.
    apply str_eqb_eq in Hx. subst. exact Hin.
  - intros Hin. exists (PStr k). split; [exact Hin|].
    apply str_eqb_eq. reflexivity.
Qed.

Lemma lacks_text_reads_as_missing (data : pyval) :
  lacks_text data -> reads_as_missing data.
Proof.
  intros [-> | (d & -> & Hd)].
  - left. reflexivity.
  - right. right. right. eauto.
Qed.

(** The four kinds of body exclude one another. *)
Lemma body_classes_disjoint (data : pyval) :
  (reads_as_missing data ->
   ~ blank_text data /\ ~ check_raises data /\ ~ usable_text data)
  /\ (blank_text data -> ~ check_raises data /\ ~ usable_text data)
  /\ (check_raises data -> ~ usable_text data).
Proof.
  split; [|split].
  - intros Hm. split; [|split].
    + intros (d & s & -> & Hd & Hs).
      destruct Hm as [Ht | [(s' & [=] & _) | [(l & [=] & _) | (d' & [= <-] & Hd')]]].
      * destruct d; [discriminate Hd|discriminate Ht].
      * congruence.
    + intros [-> | [(z & -> & Hz) | [(s & -> & Hs) | [(l & -> & Hl)
                                                     | (d & v & -> & Hd & _)]]]];
        destruct Hm as [Ht | [(s' & Hs' & Hc) | [(l' & Hl' & Hn)
                                                | (d' & Hd' & Hnone)]]];
        try discriminate.
      * cbn in Ht. apply negb_false_iff, Z.eqb_eq in Ht. contradiction.
      * destruct s; [discriminate Hs|discriminate Ht].
      * injection Hs' as <-. congruence.
      * destruct l; [destruct Hl|discriminate Ht].
      * injection Hl' as <-. contradiction.
      * destruct d; [discriminate Hd|discriminate Ht].
      * injection Hd' as <-. congruence.
    + intros (d & s & -> & Hd & Hs).
      destruct Hm as [Ht | [(s' & [=] & _) | [(l & [=] & _) | (d' & [= <-] & Hd')]]].
      * destruct d; [discriminate Hd|discriminate Ht].
      * congruence.
  - intros (d & s & -> & Hd & Hs). split.
    + intros [[=] | [(z & [=] & _) | [(s' & [=] & _) | [(l & [=] & _)
                                                       | (d' & v & [= <-] & Hd' & Hv)]]]].
      rewrite Hd in Hd'. injection Hd' as <-. exact (Hv s eq_refl).
    + intros (d' & s' & [= <-] & Hd' & Hs').
      rewrite Hd in Hd'. injection Hd' as <-. contradiction.
  - intros Hr (d & s & -> & Hd & Hs).
    destruct Hr as [[=] | [(z & [=] & _) | [(s' & [=] & _) | [(l & [=] & _)
                                                    | (d' & v & [= <-] & Hd' & Hv)]]]].
    rewrite Hd in Hd'. injection Hd' as <-. exact (Hv s eq_refl).
Qed.

(** What the two checks make of each kind of body. *)
Lemma check_text_cases (data : pyval) :
  match check_text data with
  | Ok (Accepted _) => usable_text data
  | Ok (Rejected r) =>
      (r = JsonError 400 MissingText /\ reads_as_missing data)
      \/ (r = JsonError 400 EmptyText /\ blank_text data)
  | Raise _ => check_raises data
  end.
Proof.
  unfold check_text.
  destruct data as [|b|z|s|l|d]; cbn [truthy].
  - left. split; [reflexivity|left; reflexivity].
  - destruct b; cbn.
    + left. reflexivity.
    + left. split; [reflexivity|left; reflexivity].
  - destruct (z =? 0) eqn:Hz; cbn.
    + left. split; [reflexivity|]. left. cbn. rewrite Hz. reflexivity.
    + right. left. exists z. split; [reflexivity|].
      apply Z.eqb_neq. exact Hz.
  - destruct s as [|c s]; cbn [length Nat.eqb negb bind str_in].
    { left. split; [reflexivity|left; reflexivity]. }
    destruct (contains (lit "text") (c :: s)) eqn:Hc; cbn.
    + right. right. left. eauto.
    + left. split; [reflexivity|]. right. left. eauto.
  - destruct l as [|x l]; cbn [length Nat.eqb negb bind str_in].
    { left. split; [reflexivity|left; reflexivity]. }
    destruct (existsb _ (x :: l)) eqn:He; cbn.
    + right. right. right. left. exists (x :: l). split; [reflexivity|].
      apply holds_text. exact He.
    + left. split; [reflexivity|]. right. right. left.
      exists (x :: l). split; [reflexivity|].
      intros Hin. apply holds_text in Hin. congruence.
  - destruct d as [|kv d]; cbn [length Nat.eqb negb bind str_in].
    { left. split; [reflexivity|left; reflexivity]. }
    destruct (dict_get (lit "text") (kv :: d)) as [v|] eqn:Hd.
    2:{ left. split; [reflexivity|]. right. right. right. eauto. }
    cbn [bool_decide decide_rel is_Some_dec negb getitem_str bind]. rewrite Hd.
    cbn [bind].
    destruct v as [| | |s| |]; cbn [method_strip bind];
      try (right; right; right; right; exists (kv :: d); eexists;
           split; [reflexivity|]; split; [exact Hd|]; intros; discriminate).
    destruct (strip s) as [|c t] eqn:Hs; cbn.
    + right. split; [reflexivity|]. exists (kv :: d), s. auto.
    + exists (kv :: d), s. rewrite Hs. repeat split; auto; discriminate.
Qed.

Section HandlerFacts.

Context {tensor ndarray latents : Type}.
Variable postprocess : tensor -> ndarray.
Variable tobytes : ndarray -> bytes.
Variable abspath : str -> str.
Variable model_get_conditioning_latents : nat -> str -> result latents.
Variable model_inference_stream :
  str -> str -> latents -> pyval -> bool -> list tensor * option exn.
Variable model_inference : str -> str -> latents -> result tensor.
Variable open_wb : str -> option exn.
Variable backend : nat -> pyval -> str -> result str.
Variable quote : str -> str.
Variable SPEAKER_WAV : str.
Variable path_join : str -> str -> str.
Variable OUTPUT_DIR : str.
Variable uuid4_hex : str.

Let serve :=
  handle postprocess tobytes abspath model_get_conditioning_latents
    model_inference open_wb backend quote SPEAKER_WAV path_join OUTPUT_DIR
    uuid4_hex.

Let body :=
  send_body postprocess tobytes abspath model_get_conditioning_latents
    model_inference_stream SPEAKER_WAV.

(** Whatever the body, a chat handler that did not accept its text has
    called nothing and changed nothing, and answers 400 or 500. *)
Lemma chat_calls_nothing_unless_accepted
    (ep : chat_endpoint) (data : pyval) (g : globals latents) :
  (forall user_text, check_text data <> Ok (Accepted user_text)) ->
  snd (serve ep data g) = []
  /\ snd (fst (serve ep data g)) = g
  /\ (status (fst (fst (serve ep data g))) = 400
      \/ status (fst (fst (serve ep data g))) = 500).
Proof.
  intros Hno. pose proof (check_text_gate data) as Hgate.
  subst serve. destruct ep; simpl;
    unfold chat_and_speak, chat_and_speak_json, chat_and_speak_stream;
    destruct (check_text data) as [[r|user_text]|e]; simpl;
    try (exfalso; eapply Hno; reflexivity); auto.
Qed.

(** C9. On each of the three chat endpoints, a body from which no text
    can be taken (anything but an object whose [text] is a string with
    something left once stripped) is answered without any call to the text
    backend or to the synthesis, the shared objects being as they were, and
    sending the response body calls nothing either.  The answer is 400
    with the missing-text error exactly when the first check reads the
    body as one without [text], which covers [null] and every object
    without the key; it is 400 with the empty-text error exactly when
    [text] is a string that is empty once stripped; it is 500 exactly when
    the checks themselves raise, as on a number, on [true], on a list that
    holds ["text"], on a string in which ["text"] occurs, and on an object
    whose [text] is not a string. *)
Theorem chat_rejects_unusable_text
    (ep : chat_endpoint) (data : pyval) (g : globals latents) :
  ~ usable_text data ->
  exists resp,
    serve ep data g = (resp, g, [])
    /\ body resp g = ([], g, [])
    /\ (resp = JsonError 400 MissingText <-> reads_as_missing data)
    /\ (lacks_text data -> resp = JsonError 400 MissingText)
    /\ (resp = JsonError 400 EmptyText <-> blank_text data)
    /\ (status resp = 500 <-> check_raises data)
    /\ (status resp = 400 <-> reads_as_missing data \/ blank_text data).
Proof.
  intros Hno.
  pose proof (check_text_cases data) as Hcase.
  pose proof (body_classes_disjoint data) as (Hd1 & Hd2 & Hd3).
  pose proof (lacks_text_reads_as_missing data) as Hlacks.
  destruct (check_text data) as [[r|user_text]|e] eqn:Hcheck.
  - exists r.
    assert (Hserve : serve ep data g = (r, g, [])).
    { subst serve. destruct ep; simpl;
        unfold chat_and_speak, chat_and_speak_json, chat_and_speak_stream;
        rewrite Hcheck; reflexivity. }
    split; [exact Hserve|].
    destruct Hcase as [(-> & Hmiss) | (-> & Hblank)].
    + destruct (Hd1 Hmiss) as (Hnb & Hnr & _).
      split; [reflexivity|].
      split; [tauto|]. split; [tauto|].
      split; [split; [discriminate|tauto]|].
      split; [split; [discriminate|tauto]|].
      split; [auto|reflexivity].
    + destruct (Hd2 Hblank) as (Hnr & _).
      assert (Hnm : ~ reads_as_missing data).
      { intros Hm. destruct (Hd1 Hm) as (Hnb & _). tauto. }
      split; [reflexivity|].
      split; [split; [discriminate|tauto]|].
      split; [tauto|].
      split; [tauto|].
      split; [split; [discriminate|tauto]|].
      split; [auto|reflexivity].
  - contradiction.
  - exists (internal_error e).
    assert (Hserve : serve ep data g = (internal_error e, g, [])).
    { subst serve. destruct ep; simpl;
        unfold chat_and_speak, chat_and_speak_json, chat_and_speak_stream;
        rewrite Hcheck; reflexivity. }
    split; [exact Hserve|].
    assert (Hnm : ~ reads_as_missing data).
    { intros Hm. destruct (Hd1 Hm) as (_ & Hnr & _). tauto. }
    assert (Hnb : ~ blank_text data).
    { intros Hb. destruct (Hd2 Hb) as (Hnr & _). tauto. }
    split; [reflexivity|].
    split; [split; [discriminate|tauto]|].
    split; [tauto|].
    split; [split; [discriminate|tauto]|].
    split; [split; [auto|reflexivity]|].
    split; [discriminate|tauto].
Qed.

(** C6. The [X-Estimated-Chunks] header of every streamed answer is the
    text of [max(5, len(ai_response) div 10)]; that count is at least 5
    for every reply, the empty one included, and does not decrease when
    the reply gets longer. *)
Theorem estimated_chunks_formula_bound_monotone :
  (forall data g,
     match fst (fst (serve ApiChatStream data g)) with
     | Stream _ x_estimated_chunks ai_response _ =>
         x_estimated_chunks
         = str_of_Z (Z.max 5 (Z.of_nat (length ai_response) / 10))
     | _ => True
     end)
  /\ (forall ai_response : str,
        estimated_chunks ai_response
        = Z.max 5 (Z.of_nat (length ai_response) / 10)
        /\ 5 <= estimated_chunks ai_response)
  /\ estimated_chunks [] = 5
  /\ (forall a b : str,
        (length a <= length b)%nat -> estimated_chunks a <= estimated_chunks b).
Proof.
  split; [|split; [|split]].
  - intros data g. subst serve. simpl. unfold chat_and_speak_stream.
    pose proof (check_text_gate data) as Hgate.
    destruct (check_text data) as [[r|user_text]|e]; simpl; auto.
    + destruct r; simpl in Hgate; auto; discriminate.
    + destruct (ask backend user_text g) as [[[ai|e] g1] calls]; simpl; auto.
  - intros s. unfold estimated_chunks. split; [reflexivity|lia].
  - reflexivity.
  - intros a b Hab. unfold estimated_chunks.
    assert (Z.of_nat (length a) / 10 <= Z.of_nat (length b) / 10).
    { apply Z.div_le_mono; lia. }
    lia.
Qed.

End HandlerFacts.

(** C9 fails on bodies that are JSON but not objects: a number and
    [true] have no [text] field, yet every chat endpoint answers them with
    status 500, the membership test of the first check having raised; so
    do a list that holds ["text"] and a string in which it occurs, on
    which the subscript raises. *)
Lemma chat_answers_500_without_text_field :
  (forall ep,
     MoreSamples.sample_handle Samples.engine_inference Samples.always_quota
       ep (PInt 5) Samples.fresh_globals
     = (JsonError 500 (Failure (lit "argument of type 'int' is not iterable")),
        Samples.fresh_globals, []))
  /\ (forall ep,
        MoreSamples.sample_handle Samples.engine_inference Samples.always_quota
          ep (PBool true) Samples.fresh_globals
        = (JsonError 500
             (Failure (lit "argument of type 'bool' is not iterable")),
           Samples.fresh_globals, []))
  /\ (forall ep,
        status (fst (fst (MoreSamples.sample_handle Samples.engine_inference
                            Samples.always_quota ep
                            (PList [PStr (lit "text")])
                            Samples.fresh_globals))) = 500)
  /\ (forall ep,
        status (fst (fst (MoreSamples.sample_handle Samples.engine_inference
                            Samples.always_quota ep
                            (PStr (lit "some text"))
                            Samples.fresh_globals))) = 500).
Proof.
  repeat split; intros ep; destruct ep; reflexivity.
Qed.

(** A body whose [text] is three spaces, sent to [/api/chat/stream]. *)
Lemma chat_rejects_unusable_text_witness :
  exists resp,
    MoreSamples.sample_handle Samples.engine_inference Samples.always_quota
      ApiChatStream (PDict [(lit "text", PStr (lit "   "))])
      Samples.fresh_globals
    = (resp, Samples.fresh_globals, [])
    /\ (resp = JsonError 400 EmptyText
        <-> blank_text (PDict [(lit "text", PStr (lit "   "))])).
Proof.
  destruct (chat_rejects_unusable_text
              (fun b : bytes => b) (fun b : bytes => b) (fun p => p)
              Samples.engine_latents Samples.engine_stream
              Samples.engine_inference MoreSamples.opens
              Samples.always_quota (fun s => s) (lit "Morgan Freeman.wav")
              MoreSamples.join MoreSamples.outputs MoreSamples.uuid
              ApiChatStream (PDict [(lit "text", PStr (lit "   "))])
              Samples.fresh_globals)
    as (resp & Hserve & _ & _ & _ & Hblank & _).
  - intros (d & s & Hd & Hs & Hne). injection Hd as <-.
    injection Hs as <-. apply Hne. reflexivity.
  - exists resp. split; [exact Hserve|exact Hblank].
Defined.

(* ===================================================================== *)
(** ** The speaker cache and the audio stream                              *)
(* ===================================================================== *)

Section EngineFacts.

Context {tensor ndarray latents : Type}.
Variable postprocess : tensor -> ndarray.
Variable tobytes : ndarray -> bytes.
Variable abspath : str -> str.
Variable model_get_conditioning_latents : nat -> str -> result latents.

Let latents_of := get_conditioning_latents abspath model_get_conditioning_latents.

Lemma encode_empty_24k : encode_audio_to_wav [] 24000 2 1 = Ok empty_wav_24k.
Proof. reflexivity. Qed.

(** After the first chunk the loop passes the chunks through. *)
Lemma stream_loop_tail (add_wav_header : bool) (i : nat)
    (chunks : list tensor) (stop : option exn) :
  fst (stream_loop postprocess tobytes add_wav_header (S i) chunks stop)
  = map (fun c => tobytes (postprocess c)) chunks.
Proof.
  revert i. induction chunks as [|c chunks IH]; intros i; [reflexivity|].
  cbn [stream_loop]. cbn [Nat.eqb andb].
  specialize (IH (S i)).
  destruct (stream_loop postprocess tobytes add_wav_header (S (S i)) chunks stop).
  simpl in *. congruence.
Qed.

(** With [add_wav_header], the header comes with the first chunk. *)
Lemma stream_loop_header (chunks : list tensor) (stop : option exn) :
  fst (stream_loop postprocess tobytes true 0 chunks stop)
  = match chunks with
    | [] => []
    | _ :: _ => empty_wav_24k :: map (fun c => tobytes (postprocess c)) chunks
    end.
Proof.
  destruct chunks as [|c chunks]; [reflexivity|].
  cbn [stream_loop Nat.eqb andb]. rewrite encode_empty_24k.
  pose proof (stream_loop_tail true 0 chunks stop) as Ht.
  destruct (stream_loop postprocess tobytes true 1 chunks stop).
  simpl in *. congruence.
Qed.


Variable model_inference_stream :
  str -> str -> latents -> pyval -> bool -> list tensor * option exn.

Let stream :=
  tts_stream postprocess tobytes abspath model_get_conditioning_latents
    model_inference_stream.

(** C7, as the code has it.  When the speaker features are available and
    the synthesis iterator yields at least one chunk, [tts_stream] with
    [add_wav_header] yields the header once and then the bytes of each
    post-processed chunk once, in the order of production; so the bytes
    it yields, put end to end, are the header followed by the chunks. *)
Theorem tts_stream_frames_chunks
    (self self' : XTTSStreamingTTS latents) (text speaker_wav language : str)
    (stream_chunk_size : pyval) (enable_text_splitting : bool)
    (lat : latents) (chunks : list tensor) (stop : option exn) :
  latents_of self speaker_wav true = (Ok lat, self') ->
  model_inference_stream text language lat stream_chunk_size
    enable_text_splitting = (chunks, stop) ->
  chunks <> [] ->
  let out :=
    fst (fst (stream self text speaker_wav language stream_chunk_size true
                enable_text_splitting)) in
  out = empty_wav_24k :: map (fun c => tobytes (postprocess c)) chunks
  /\ concat out
     = empty_wav_24k ++ concat (map (fun c => tobytes (postprocess c)) chunks).
Proof.
  subst latents_of stream. intros Hlat Hchunks Hne out. subst out.
  unfold tts_stream. rewrite Hlat, Hchunks. cbn [fst].
  rewrite stream_loop_header.
  destruct chunks as [|c chunks]; [congruence|].
  split; reflexivity.
Qed.

End EngineFacts.

(** C10. [encode_audio_to_wav(b"", 24000, 2, 1)] is one fixed string of 44
    bytes: ["RIFF"], a RIFF length of 36, ["WAVE"], a PCM [fmt ] chunk with
    1 channel, 24000 frames a second, 2 bytes a frame and 16 bits a sample,
    and a ["data"] chunk of length 0.  [tts_stream] yields it only in front
    of the first chunk: when the iterator yields no chunk nothing is
    yielded, the header included, and when it yields chunks the header is
    the first item and is not yielded again. *)
Theorem streaming_header_bytes :
  encode_audio_to_wav [] 24000 2 1 = Ok empty_wav_24k
  /\ length empty_wav_24k = 44%nat
  /\ field 0 4 empty_wav_24k = String.list_byte_of_string "RIFF"
  /\ le_value (field 4 4 empty_wav_24k) = 36
  /\ field 8 4 empty_wav_24k = String.list_byte_of_string "WAVE"
  /\ field 12 4 empty_wav_24k = String.list_byte_of_string "fmt "
  /\ le_value (field 20 2 empty_wav_24k) = 1
  /\ le_value (field 22 2 empty_wav_24k) = 1
  /\ le_value (field 24 4 empty_wav_24k) = 24000
  /\ le_value (field 32 2 empty_wav_24k) = 2
  /\ le_value (field 34 2 empty_wav_24k) = 16
  /\ field 36 4 empty_wav_24k = String.list_byte_of_string "data"
  /\ le_value (field 40 4 empty_wav_24k) = 0
  /\ (forall (tensor ndarray latents : Type) (postprocess : tensor -> ndarray)
        (tobytes : ndarray -> bytes) (abspath : str -> str)
        (extract : nat -> str -> result latents) (stop : option exn)
        (self : XTTSStreamingTTS latents) (text speaker_wav language : str)
        (stream_chunk_size : pyval) (add_wav_header enable_text_splitting : bool),
        fst (fst (tts_stream postprocess tobytes abspath extract
                    (fun _ _ _ _ _ => ([], stop))
                    self text speaker_wav language stream_chunk_size
                    add_wav_header enable_text_splitting)) = [])
  /\ (forall (tensor ndarray : Type) (postprocess : tensor -> ndarray)
        (tobytes : ndarray -> bytes) (c : tensor) (chunks : list tensor)
        (stop : option exn),
        fst (stream_loop postprocess tobytes true 0 (c :: chunks) stop)
        = empty_wav_24k :: tobytes (postprocess c)
          :: map (fun c => tobytes (postprocess c)) chunks).
Proof.
  repeat (split; [reflexivity|]). split.
  - intros. unfold tts_stream.
    destruct (get_conditioning_latents abspath extract self speaker_wav true)
      as [[lat|e] self']; reflexivity.
  - intros. rewrite stream_loop_header. reflexivity.
Qed.

(** C7 fails on an iterator that yields no chunk: nothing is yielded, so
    the bytes put end to end are not the header followed by the (absent)
    chunks. *)
Lemma tts_stream_no_chunk_no_header :
  let chunks : list bytes := [] in
  let out :=
    fst (fst (tts_stream (fun b : bytes => b) (fun b : bytes => b) (fun p => p)
                Samples.engine_latents (fun _ _ _ _ _ => (chunks, None))
                Samples.fresh_tts (lit "hello") (lit "Morgan Freeman.wav")
                (lit "zh-cn") (PInt 20) true true)) in
  concat out = []
  /\ concat out <> empty_wav_24k ++ concat (map (fun b : bytes => b) chunks).
Proof. split; [reflexivity|discriminate]. Qed.

(** Two chunks: the header, then the two chunks. *)
Lemma tts_stream_frames_chunks_witness :
  let out :=
    fst (fst (tts_stream (fun b : bytes => b) (fun b : bytes => b) (fun p => p)
                Samples.engine_latents Samples.engine_stream
                Samples.fresh_tts (lit "hello") (lit "Morgan Freeman.wav")
                (lit "zh-cn") (PInt 20) true true)) in
  out = [empty_wav_24k; [x01; x00; x02; x00]; [x03; x00]]
  /\ concat out = empty_wav_24k ++ [x01; x00; x02; x00; x03; x00].
Proof.
  apply (tts_stream_frames_chunks (fun b : bytes => b) (fun b : bytes => b)
           (fun p => p) Samples.engine_latents Samples.engine_stream
           Samples.fresh_tts
           (snd (get_conditioning_latents (fun p => p) Samples.engine_latents
                   Samples.fresh_tts (lit "Morgan Freeman.wav") true))
           (lit "hello") (lit "Morgan Freeman.wav") (lit "zh-cn") (PInt 20) true
           0%nat [[x01; x00; x02; x00]; [x03; x00]] None).
  - reflexivity.
  - reflexivity.
  - discriminate.
Defined.



(* ===================================================================== *)
(** ** More on the retry loop                                              *)
(* ===================================================================== *)

Import GeminiMain.

Lemma startswith_app (k b : str) : startswith k (k ++ b) = true.
Proof.
  induction k as [|c k IH]; [reflexivity|].
  simpl. rewrite N.eqb_refl. exact IH.
Qed.

Lemma contains_middle (k a b : str) : contains k (a ++ k ++ b) = true.
Proof.
  induction a as [|c a IH].
  - cbn [app]. pose proof (startswith_app k b) as Hs.
    destruct (k ++ b) as [|c h]; cbn [contains]; rewrite Hs; reflexivity.
  - cbn [app contains]. rewrite IH. apply orb_true_r.
Qed.

Lemma lower_app (a b : str) : lower (a ++ b) = lower a ++ lower b.
Proof. unfold lower. apply flat_map_app. Qed.

(** X1. The test of line 93 looks for its five signals anywhere in the
    text and in any letter case: an exception whose text holds, between any
    two strings, a word that lower-cases to one of them is quota-class,
    whatever its class. *)
Theorem quota_keyword_anywhere (cls : exn_class) (pre w post kw : str) :
  In kw quota_keywords ->
  lower w = kw ->
  is_quota_error (Exn cls (pre ++ w ++ post)) = true.
Proof.
  intros Hin Hw. unfold is_quota_error, is_quota_message. cbn [exn_str].
  rewrite !lower_app, Hw.
  pose proof (contains_middle kw (lower pre) (lower post)) as Hc.
  unfold quota_keywords in Hin. cbn [In] in Hin.
  destruct Hin as [<-|[<-|[<-|[<-|[<-|[]]]]]]; rewrite Hc;
    rewrite ?orb_true_r; reflexivity.
Qed.

(** An error that only mentions generating content is taken for a quota
    error. *)
Lemma quota_keyword_anywhere_witness :
  is_quota_error
    (Exn OtherException (lit "Failed to gene" ++ lit "RATE" ++ lit " content"))
  = true.
Proof.
  apply (quota_keyword_anywhere OtherException (lit "Failed to gene")
           (lit "RATE") (lit " content") (lit "rate")).
  - cbn. auto.
  - reflexivity.
Defined.

Lemma rotated_advanced (km : APIKeyManager) (k : nat) :
  wf_pool km = true -> rotated (advanced km) k = rotated km (S k).
Proof.
  intros Hwf. destruct (wf_pool_inv km Hwf) as (l & _ & _ & _ & Hi).
  unfold rotated, advanced. simpl. f_equal. apply index_after_S. lia.
Qed.

Lemma retry_loop_state
    (backend : nat -> pyval -> str -> result str) (user_message : str)
    (fuel a : nat) (le : option exn) (km : APIKeyManager) :
  wf_pool km = true ->
  snd (fst (retry_loop backend user_message fuel a le km))
  = rotated km (rotations (snd (retry_loop backend user_message fuel a le km)))
  /\ (rotations (snd (retry_loop backend user_message fuel a le km)) <= fuel)%nat.
Proof.
  revert a le km. induction fuel as [|fuel IH]; intros a le km Hwf.
  - simpl. rewrite rotated_0 by assumption. auto.
  - rewrite retry_loop_step by assumption.
    destruct (backend a (key_of km) user_message) as [response|e].
    { simpl. rewrite rotated_0 by assumption. split; [reflexivity|]. 
      unfold rotations. simpl. lia. }
    destruct (is_quota_error e).
    2:{ simpl. rewrite rotated_0 by assumption. split; [reflexivity|].
        unfold rotations. simpl. lia. }
    destruct (IH (S a) (Some e) (advanced km) (wf_advanced km Hwf)) as [Hkm Hle].
    destruct (retry_loop backend user_message fuel (S a) (Some e) (advanced km))
      as [[r km'] evs].
    simpl in *.
    change (rotations (Attempt (current_index km) (key_of km) :: Rotate :: evs))
      with (S (rotations evs)).
    rewrite Hkm, rotated_advanced by assumption. split; [reflexivity|lia].
Qed.

(** X2. Whatever the backend answers and whatever [max_retries] is, a
    call of [chat_with_retry] on a well-formed pool leaves a well-formed
    pool: the credentials and their count are untouched, and the active
    index is the one reached from the old index by as many steps as
    [rotate_key] was called, at most once per allowed attempt. *)
Theorem chat_with_retry_keeps_pool
    (backend : nat -> pyval -> str -> result str) (user_message : str)
    (km : APIKeyManager) (max_retries : option Z) :
  wf_pool km = true ->
  let run := chat_with_retry backend user_message km max_retries in
  wf_pool (snd (fst run)) = true
  /\ api_keys (snd (fst run)) = api_keys km
  /\ total_keys (snd (fst run)) = total_keys km
  /\ current_index (snd (fst run))
     = index_after (total_keys km) (current_index km) (rotations (snd run))
  /\ (rotations (snd run) <= allowed km max_retries)%nat.
Proof.
  intros Hwf run. subst run. unfold chat_with_retry.
  fold (allowed km max_retries).
  destruct (retry_loop_state backend user_message (allowed km max_retries) 0
              None km Hwf) as [Hkm Hle].
  rewrite Hkm. split; [apply wf_rotated, Hwf|]. auto.
Qed.

Lemma chat_with_retry_keeps_pool_witness :
  let run := chat_with_retry (Samples.quota_then (Ok (lit "hi"))) (lit "hello")
               (Samples.manager3 2) None in
  wf_pool (snd (fst run)) = true
  /\ api_keys (snd (fst run)) = Samples.pool3
  /\ total_keys (snd (fst run)) = 3
  /\ current_index (snd (fst run)) = index_after 3 2 (rotations (snd run))
  /\ (rotations (snd run) <= 3)%nat.
Proof.
  apply (chat_with_retry_keeps_pool (Samples.quota_then (Ok (lit "hi")))
           (lit "hello") (Samples.manager3 2) None).
  reflexivity.
Defined.

(** The run of [chat_with_retry] when every allowed attempt fails with a
    quota-class error. *)
Lemma chat_with_retry_all_quota
    (backend : nat -> pyval -> str -> result str) (user_message : str)
    (km : APIKeyManager) (max_retries : option Z) :
  wf_pool km = true ->
  (forall j, (j < allowed km max_retries)%nat ->
             quota_failure (answer backend user_message km j) = true) ->
  chat_with_retry backend user_message km max_retries
  = (Raise (Exn Exception
              (exhausted_prefix
               ++ format_last_error
                    (last_error_at backend user_message km None 0
                       (allowed km max_retries)))),
     rotated km (allowed km max_retries),
     quota_prefix km 0 (allowed km max_retries)).
Proof.
  intros Hwf Hq. unfold chat_with_retry. fold (allowed km max_retries).
  set (n := allowed km max_retries) in *.
  pose proof (retry_loop_skip backend user_message km Hwf n 0 0 None) as Hskip.
  rewrite rotated_0, !Nat.add_0_r in Hskip by assumption.
  rewrite Hskip by (intros j Hj; apply Hq; lia).
  cbn [retry_loop]. rewrite app_nil_r. reflexivity.
Qed.

Lemma attempted_quota_prefix_indices (km : APIKeyManager) (a k : nat) :
  attempted (quota_prefix km a k)
  = map (index_after (total_keys km) (current_index km)) (seq a k).
Proof.
  unfold quota_prefix, attempted. revert a.
  induction k as [|k IH]; intros a; [reflexivity|].
  cbn [seq flat_map map app]. rewrite IH. reflexivity.
Qed.

(** X3. When [max_retries] is set above the number of credentials and
    every attempt fails with a quota-class error, all the allowed attempts
    are made, attempt [j] on index [(i + j) mod n]: the attempt numbered
    [n] goes back to the credential of the first one, so the attempted
    indices are no longer distinct. *)
Theorem chat_with_retry_override_reuses_keys
    (backend : nat -> pyval -> str -> result str) (user_message : str)
    (km : APIKeyManager) (max_retries : option Z) :
  wf_pool km = true ->
  (Z.to_nat (total_keys km) < allowed km max_retries)%nat ->
  (forall j, (j < allowed km max_retries)%nat ->
             quota_failure (answer backend user_message km j) = true) ->
  let evs := snd (chat_with_retry backend user_message km max_retries) in
  attempted evs
  = map (index_after (total_keys km) (current_index km))
        (seq 0 (allowed km max_retries))
  /\ attempted evs !! Z.to_nat (total_keys km) = Some (current_index km)
  /\ attempted evs !! 0%nat = Some (current_index km)
  /\ ~ List.NoDup (attempted evs).
Proof.
  intros Hwf Hlong Hq evs. subst evs.
  rewrite chat_with_retry_all_quota by assumption. cbn [snd].
  rewrite attempted_quota_prefix_indices.
  destruct (wf_pool_inv km Hwf) as (l & _ & _ & _ & Hi).
  change (map (index_after (total_keys km) (current_index km))
            (seq 0 (allowed km max_retries)))
    with (index_after (total_keys km) (current_index km)
          <$> seq 0 (allowed km max_retries)).
  assert (Hn : (index_after (total_keys km) (current_index km)
                <$> seq 0 (allowed km max_retries)) !! Z.to_nat (total_keys km)
               = Some (current_index km)).
  { erewrite list_lookup_fmap_Some_2 by (apply lookup_seq_lt; lia).
    cbn [Nat.add]. rewrite index_after_cycle by lia. reflexivity. }
  assert (H0 : (index_after (total_keys km) (current_index km)
                <$> seq 0 (allowed km max_retries)) !! 0%nat
               = Some (current_index km)).
  { erewrite list_lookup_fmap_Some_2 by (apply lookup_seq_lt; lia).
    cbn [Nat.add]. rewrite index_after_0 by lia. reflexivity. }
  split; [reflexivity|]. split; [exact Hn|]. split; [exact H0|].
  intros Hnodup. apply NoDup_ListNoDup in Hnodup.
  pose proof (NoDup_lookup _ _ _ _ Hnodup Hn H0). lia.
Qed.

Lemma chat_with_retry_override_reuses_keys_witness :
  let evs := snd (chat_with_retry Samples.always_quota (lit "hello")
                    (Samples.manager3 0) (Some 5)) in
  attempted evs = map (index_after 3 0) (seq 0 5)
  /\ attempted evs !! 3%nat = Some 0
  /\ attempted evs !! 0%nat = Some 0
  /\ ~ List.NoDup (attempted evs).
Proof.
  apply (chat_with_retry_override_reuses_keys Samples.always_quota (lit "hello")
           (Samples.manager3 0) (Some 5)).
  - reflexivity.
  - unfold allowed. simpl. lia.
  - intros j _. reflexivity.
Defined.

(** X4. A call of [chat_with_retry] (at least one attempt allowed) whose
    active entry is an object without [key] raises [KeyError('key')] at
    once: the backend is not called and nothing rotates, whatever the other
    entries are.  When the entry has a [key] but no [name] and the backend
    answers the first attempt with a quota-class error, the call raises
    [KeyError('name')] from the warning line instead of rotating: the
    manager stays where it was and no other credential is tried. *)
Theorem chat_with_retry_bad_entry
    (backend : nat -> pyval -> str -> result str) (user_message : str)
    (km : APIKeyManager) (max_retries : option Z)
    (l : list pyval) (d : list (str * pyval)) :
  api_keys km = PList l ->
  seq_index l (current_index km) = Some (PDict d) ->
  (1 <= allowed km max_retries)%nat ->
  (dict_get (lit "key") d = None ->
   chat_with_retry backend user_message km max_retries
   = (Raise (Exn KeyError (repr_key (lit "key"))), km, []))
  /\ (forall key e,
        dict_get (lit "key") d = Some key ->
        dict_get (lit "name") d = None ->
        backend 0%nat key user_message = Raise e ->
        is_quota_error e = true ->
        chat_with_retry backend user_message km max_retries
        = (Raise (Exn KeyError (repr_key (lit "name"))), km,
           [Attempt (current_index km) key])).
Proof.
  intros Hl Hentry Hpos. unfold chat_with_retry. fold (allowed km max_retries).
  destruct (allowed km max_retries) as [|fuel]; [lia|].
  cbn [retry_loop]. unfold get_current_key, get_current_key_name.
  rewrite Hl. cbn [getitem_int]. rewrite Hentry. cbn [bind getitem_str].
  split.
  - intros Hkey. rewrite Hkey. reflexivity.
  - intros key e Hkey Hname He Hq. rewrite Hkey, He, Hq, Hname. reflexivity.
Qed.

(** A pool whose only entry has a name and no key. *)
Lemma chat_with_retry_bad_entry_witness :
  chat_with_retry Samples.always_quota (lit "hello")
    {| api_keys := PList [PDict [(lit "name", PStr (lit "Key 1"))]];
       current_index := 0; total_keys := 1 |} None
  = (Raise (Exn KeyError (repr_key (lit "key"))),
     {| api_keys := PList [PDict [(lit "name", PStr (lit "Key 1"))]];
        current_index := 0; total_keys := 1 |}, []).
Proof.
  apply (proj1 (chat_with_retry_bad_entry Samples.always_quota (lit "hello")
                  {| api_keys := PList [PDict [(lit "name", PStr (lit "Key 1"))]];
                     current_index := 0; total_keys := 1 |} None
                  [PDict [(lit "name", PStr (lit "Key 1"))]]
                  [(lit "name", PStr (lit "Key 1"))]
                  eq_refl eq_refl ltac:(unfold allowed; simpl; lia))).
  reflexivity.
Defined.

(* ===================================================================== *)
(** ** The console program                                                 *)
(* ===================================================================== *)

Section ConsoleFacts.

Variable backend : nat -> nat -> pyval -> str -> result str.

(** X5. When a line of the input is a quit word (once stripped and
    lower-cased) and no line before it is, [main]'s loop ends normally
    whatever the backend answers: nothing after that line is read, the
    farewell is the last thing printed, and [chat_with_retry] was called
    once for each line before it that is not blank, each call answered by
    one printed line. *)
Theorem main_loop_stops_at_quit
    (pre : list str) (q : str) (post : list str) (turn : nat)
    (km : APIKeyManager) :
  Forall (fun line => is_quit (strip line) = false) pre ->
  is_quit (strip q) = true ->
  let run := main_loop backend (pre ++ q :: post) turn km in
  run = main_loop backend (pre ++ [q]) turn km
  /\ fst (fst (fst run)) = Ok tt
  /\ last (snd (fst (fst run))) = Some Goodbye
  /\ length (snd (fst run))
     = length (List.filter (fun line => truthy (PStr (strip line))) pre)
  /\ length (snd (fst (fst run))) = S (length (snd (fst run))).
Proof.
  intros Hpre Hq. revert turn km.
  induction Hpre as [|line pre Hline Hpre IH]; intros turn km.
  - cbn [app main_loop]. rewrite Hq. cbn. auto.
  - cbn [app main_loop List.filter]. rewrite Hline.
    destruct (truthy (PStr (strip line))) eqn:Ht; cbn [negb].
    + destruct (chat_with_retry (backend turn) (strip line) km None)
        as [[r km1] evs].
      specialize (IH (S turn) km1). cbv zeta in IH.
      destruct IH as (Heq & Hres & Hlast & Hlen & Hout).
      rewrite <- Heq.
      destruct (main_loop backend (pre ++ q :: post) (S turn) km1)
        as [[[res out] traces] km2].
      cbn [fst snd length] in *.
      split; [reflexivity|]. split; [assumption|].
      split; [|split; congruence].
      destruct out as [|o out]; [discriminate|]. exact Hlast.
    + apply IH.
Qed.

(** X6. When no line of the input is a quit word, the loop goes through
    all of it, calling [chat_with_retry] once for each line that is not
    blank, and then ends with the [EOFError] of [input()]; it never prints
    the farewell. *)
Theorem main_loop_end_of_input
    (inputs : list str) (turn : nat) (km : APIKeyManager) :
  Forall (fun line => is_quit (strip line) = false) inputs ->
  let run := main_loop backend inputs turn km in
  fst (fst (fst run)) = Raise (Exn OtherException (lit "EOF when reading a line"))
  /\ length (snd (fst run))
     = length (List.filter (fun line => truthy (PStr (strip line))) inputs)
  /\ length (snd (fst (fst run))) = length (snd (fst run))
  /\ ~ In Goodbye (snd (fst (fst run))).
Proof.
  intros Hin. revert turn km.
  induction Hin as [|line inputs Hline Hin IH]; intros turn km.
  - cbn. auto.
  - cbn [main_loop List.filter]. rewrite Hline.
    destruct (truthy (PStr (strip line))) eqn:Ht; cbn [negb].
    + destruct (chat_with_retry (backend turn) (strip line) km None)
        as [[r km1] evs].
      specialize (IH (S turn) km1). cbv zeta in IH.
      destruct IH as (Hres & Hlen & Hout & Hbye).
      destruct (main_loop backend inputs (S turn) km1)
        as [[[res out] traces] km2].
      cbn [fst snd length In] in *.
      split; [assumption|]. split; [congruence|]. split; [congruence|].
      intros [Hhead|Htail]; [destruct r; discriminate|auto].
    + apply IH.
Qed.

(** X7. With a key file whose [api_keys] is the empty list and a
    configuration that is an object, [main] prints the banner down to a
    count of 0 keys and then raises the [IndexError] of
    [get_current_key_name]: no line of input is read and the backend is
    never called. *)
Theorem main_empty_key_list
    (data : pyval) (config : list (str * pyval)) (inputs : list str) :
  getitem_str data (lit "api_keys") = Ok (PList []) ->
  exists model temperature,
    main backend (Ok data) (Ok (PDict config)) inputs
    = (Raise (Exn IndexError (lit "list index out of range")),
       [Rule; Title; Rule; UsingModel model; Temperature temperature;
        AvailableKeys 0],
       []).
Proof.
  intros Hkeys. unfold main, init, _load_api_keys, load_config.
  cbn [bind]. rewrite Hkeys. cbn [bind len length Z.of_nat method_get].
  eexists _, _. reflexivity.
Qed.

End ConsoleFacts.

(** Two questions, a blank line and [" Quit "], then a line never read. *)
Lemma main_loop_stops_at_quit_witness :
  let run :=
    main_loop (fun _ => Samples.always_quota)
      ([lit "hello"; lit "   "; lit "where?"] ++ lit " Quit " :: [lit "ignored"])
      0 (Samples.manager3 0) in
  fst (fst (fst run)) = Ok tt
  /\ last (snd (fst (fst run))) = Some Goodbye
  /\ length (snd (fst run)) = 2%nat.
Proof.
  destruct (main_loop_stops_at_quit (fun _ => Samples.always_quota)
              [lit "hello"; lit "   "; lit "where?"] (lit " Quit ")
              [lit "ignored"] 0 (Samples.manager3 0))
    as (_ & Hres & Hlast & Hlen & _).
  - repeat constructor.
  - reflexivity.
  - split; [exact Hres|]. split; [exact Hlast|]. exact Hlen.
Defined.

Lemma main_loop_end_of_input_witness :
  let run :=
    main_loop (fun _ => Samples.quota_then (Ok (lit "hi")))
      [lit "hello"; lit ""] 0 (Samples.manager3 0) in
  fst (fst (fst run)) = Raise (Exn OtherException (lit "EOF when reading a line"))
  /\ length (snd (fst run)) = 1%nat.
Proof.
  destruct (main_loop_end_of_input (fun _ => Samples.quota_then (Ok (lit "hi")))
              [lit "hello"; lit ""] 0 (Samples.manager3 0))
    as (Hres & Hlen & _ & _).
  - repeat constructor.
  - split; [exact Hres|exact Hlen].
Defined.

Lemma main_empty_key_list_witness :
  exists model temperature,
    main (fun _ => Samples.always_quota) Samples.key_file0
      (Ok (PDict [(lit "model", PStr (lit "gemini-2.0-flash"))])) [lit "hello"]
    = (Raise (Exn IndexError (lit "list index out of range")),
       [Rule; Title; Rule; UsingModel model; Temperature temperature;
        AvailableKeys 0],
       []).
Proof.
  apply (main_empty_key_list (fun _ => Samples.always_quota)
           (PDict [(lit "api_keys", PList [])])
           [(lit "model", PStr (lit "gemini-2.0-flash"))] [lit "hello"]).
  reflexivity.
Defined.

(* ===================================================================== *)
(** ** The WAV encoder                                                     *)
(* ===================================================================== *)

Import XttsMore.

Lemma byte_of_Z_value (z : Z) :
  0 <= z < 256 -> Z.of_N (Byte.to_N (byte_of_Z z)) = z.
Proof.
  intros Hz. unfold byte_of_Z.
  destruct (Byte.of_N (Z.to_N z)) as [b|] eqn:Hb.
  - apply Byte.to_of_N in Hb. rewrite Hb. lia.
  - apply Byte.of_N_None_iff in Hb. lia.
Qed.

(** Reading back a little-endian field gives the value written. *)
Lemma le_value_le_bytes (n : nat) (v : Z) :
  0 <= v < 2 ^ (8 * Z.of_nat n) -> le_value (le_bytes n v) = v.
Proof.
  revert v. induction n as [|n IH]; intros v Hv.
  - simpl in *. lia.
  - cbn [le_bytes le_value].
    assert (Hpow : 2 ^ (8 * Z.of_nat (S n)) = 256 * 2 ^ (8 * Z.of_nat n)).
    { replace (8 * Z.of_nat (S n)) with (8 + 8 * Z.of_nat n) by lia.
      rewrite Z.pow_add_r by lia. reflexivity. }
    rewrite Hpow in Hv.
    rewrite byte_of_Z_value by (apply Z.mod_pos_bound; lia).
    rewrite IH.
    + pose proof (Z.div_mod v 256 ltac:(lia)). lia.
    + split; [apply Z.div_pos; lia|].
      apply Z.div_lt_upper_bound; lia.
Qed.

Lemma length_le_bytes (n : nat) (v : Z) : length (le_bytes n v) = n.
Proof. revert v. induction n as [|n IH]; intros v; simpl; auto. Qed.

Lemma pack_uint_inv (n : nat) (v : Z) (bs : bytes) :
  pack_uint n v = Ok bs -> bs = le_bytes n v /\ 0 <= v < 2 ^ (8 * Z.of_nat n).
Proof.
  unfold pack_uint.
  destruct ((0 <=? v) && (v <? 2 ^ (8 * Z.of_nat n))) eqn:H; [|discriminate].
  intros [= <-]. apply andb_prop in H as [H1 H2]. split; [reflexivity|lia].
Qed.

Lemma pack_uint_in_range (n : nat) (v : Z) :
  0 <= v < 2 ^ (8 * Z.of_nat n) -> pack_uint n v = Ok (le_bytes n v).
Proof.
  intros Hv. unfold pack_uint.
  assert (H : (0 <=? v) && (v <? 2 ^ (8 * Z.of_nat n)) = true).
  { apply andb_true_intro. split; lia. }
  rewrite H. reflexivity.
Qed.

Lemma wav_header_inv (channels sample_width sample_rate n : Z) (h : bytes) :
  wav_header channels sample_width sample_rate n = Ok h ->
  h = header_bytes channels sample_width sample_rate n
  /\ header_fits channels sample_width sample_rate n.
Proof.
  unfold wav_header, header_fits, header_bytes.
  destruct (pack_uint 4 (36 + n)) as [b1|] eqn:H1; cbn [bind]; [|discriminate].
  destruct (pack_uint 2 channels) as [b4|] eqn:H4; cbn [bind]; [|discriminate].
  destruct (pack_uint 4 sample_rate) as [b5|] eqn:H5; cbn [bind]; [|discriminate].
  destruct (pack_uint 4 (channels * sample_rate * sample_width)) as [b6|] eqn:H6;
    cbn [bind]; [|discriminate].
  destruct (pack_uint 2 (channels * sample_width)) as [b7|] eqn:H7;
    cbn [bind]; [|discriminate].
  destruct (pack_uint 2 (sample_width * 8)) as [b8|] eqn:H8;
    cbn [bind]; [|discriminate].
  destruct (pack_uint 4 n) as [b9|] eqn:H9; cbn [bind]; [|discriminate].
  intros [= <-].
  apply pack_uint_inv in H1 as [-> ?], H4 as [-> ?], H5 as [-> ?],
    H6 as [-> ?], H7 as [-> ?], H8 as [-> ?], H9 as [-> ?].
  change (8 * Z.of_nat 4) with 32 in *. change (8 * Z.of_nat 2) with 16 in *.
  split; [reflexivity|]. repeat split; lia.
Qed.

Lemma wav_header_fits (channels sample_width sample_rate n : Z) :
  header_fits channels sample_width sample_rate n ->
  wav_header channels sample_width sample_rate n
  = Ok (header_bytes channels sample_width sample_rate n).
Proof.
  intros (H1 & H4 & H5 & H6 & H7 & H8 & H9). unfold wav_header.
  rewrite !pack_uint_in_range
    by (change (8 * Z.of_nat 4) with 32; change (8 * Z.of_nat 2) with 16; lia).
  reflexivity.
Qed.

Lemma whole_frames_le (n channels sample_width : Z) :
  0 <= n -> 1 <= channels -> 1 <= sample_width ->
  0 <= n / (channels * sample_width) * channels * sample_width <= n.
Proof.
  intros Hn Hc Hs.
  assert (Hpos : 0 < channels * sample_width) by nia.
  pose proof (Z.mul_div_le n (channels * sample_width) Hpos).
  pose proof (Z.div_pos n (channels * sample_width) Hn Hpos).
  nia.
Qed.

Lemma encode_audio_to_wav_inv
    (audio_data : bytes) (sample_rate sample_width channels : Z) (out : bytes) :
  encode_audio_to_wav audio_data sample_rate sample_width channels = Ok out ->
  wav_encodable (Z.of_nat (length audio_data)) sample_rate sample_width channels
  /\ out = header_bytes channels sample_width sample_rate
             (Z.of_nat (length audio_data)) ++ audio_data.
Proof.
  unfold encode_audio_to_wav.
  destruct (channels <? 1) eqn:Hc; [discriminate|].
  destruct ((sample_width <? 1) || (4 <? sample_width)) eqn:Hs; [discriminate|].
  destruct (sample_rate <=? 0) eqn:Hr; [discriminate|].
  apply orb_false_elim in Hs as [Hs1 Hs2].
  set (n := Z.of_nat (length audio_data)).
  set (whole := n / (channels * sample_width) * channels * sample_width).
  destruct (wav_header channels sample_width sample_rate whole) as [h0|] eqn:H0;
    cbn [bind]; [|discriminate].
  assert (Hfinal : forall h,
    wav_header channels sample_width sample_rate n = Ok h ->
    wav_encodable n sample_rate sample_width channels
    /\ h = header_bytes channels sample_width sample_rate n).
  { intros h Hh. apply wav_header_inv in Hh as [-> Hfit].
    unfold header_fits in Hfit. unfold wav_encodable.
    split; [|reflexivity]. repeat split; lia. }
  destruct (whole =? n) eqn:Heq.
  - cbn [bind]. intros [= <-]. apply Z.eqb_eq in Heq. rewrite Heq in H0.
    destruct (Hfinal h0 H0) as [Hok ->]. auto.
  - destruct (wav_header channels sample_width sample_rate n) as [h|] eqn:H1;
      cbn [bind]; [|discriminate].
    intros [= <-]. destruct (Hfinal h eq_refl) as [Hok ->]. auto.
Qed.

Lemma encode_audio_to_wav_encodable
    (audio_data : bytes) (sample_rate sample_width channels : Z) :
  wav_encodable (Z.of_nat (length audio_data)) sample_rate sample_width channels ->
  encode_audio_to_wav audio_data sample_rate sample_width channels
  = Ok (header_bytes channels sample_width sample_rate
          (Z.of_nat (length audio_data)) ++ audio_data).
Proof.
  intros (Hc & Hs & Hr & Hbr & Hba & Hn). unfold encode_audio_to_wav.
  assert (E1 : (channels <? 1) = false) by lia.
  assert (E2 : (sample_width <? 1) || (4 <? sample_width) = false).
  { apply orb_false_intro; lia. }
  assert (E3 : (sample_rate <=? 0) = false) by lia.
  rewrite E1, E2, E3.
  set (n := Z.of_nat (length audio_data)) in *.
  pose proof (whole_frames_le n channels sample_width ltac:(lia) ltac:(lia)
                ltac:(lia)) as Hwhole.
  set (whole := n / (channels * sample_width) * channels * sample_width) in *.
  assert (Hfit : forall m, 0 <= m <= n ->
                 header_fits channels sample_width sample_rate m).
  { intros m Hm. unfold header_fits. repeat split; try lia; nia. }
  rewrite (wav_header_fits _ _ _ whole) by (apply Hfit; lia). cbn [bind].
  destruct (whole =? n) eqn:Heq.
  - apply Z.eqb_eq in Heq. rewrite Heq. reflexivity.
  - rewrite (wav_header_fits _ _ _ n) by (apply Hfit; lia). reflexivity.
Qed.

(** X8. [encode_audio_to_wav] returns a value exactly when its arguments
    fit the fields of a WAV header: at least one channel and fewer than
    65536, a sample width of 1 to 4 bytes, a positive rate below 2^32, a
    byte rate below 2^32, a frame size below 65536, and audio of fewer than
    2^32 - 36 bytes; otherwise it raises. *)
Theorem encode_audio_to_wav_succeeds_iff
    (audio_data : bytes) (sample_rate sample_width channels : Z) :
  (exists out,
     encode_audio_to_wav audio_data sample_rate sample_width channels = Ok out)
  <-> wav_encodable (Z.of_nat (length audio_data)) sample_rate sample_width
        channels.
Proof.
  split.
  - intros [out Hout]. apply encode_audio_to_wav_inv in Hout. tauto.
  - intros H. eexists. apply encode_audio_to_wav_encodable, H.
Qed.

Lemma field_header_bytes
    (channels sample_width sample_rate n : Z) (audio_data : bytes) :
  let out := header_bytes channels sample_width sample_rate n ++ audio_data in
  drop 44 out = audio_data
  /\ field 0 4 out = String.list_byte_of_string "RIFF"
  /\ field 4 4 out = le_bytes 4 (36 + n)
  /\ field 8 8 out = String.list_byte_of_string "WAVEfmt "
  /\ field 16 4 out = le_bytes 4 16
  /\ field 20 2 out = le_bytes 2 1
  /\ field 22 2 out = le_bytes 2 channels
  /\ field 24 4 out = le_bytes 4 sample_rate
  /\ field 28 4 out = le_bytes 4 (channels * sample_rate * sample_width)
  /\ field 32 2 out = le_bytes 2 (channels * sample_width)
  /\ field 34 2 out = le_bytes 2 (sample_width * 8)
  /\ field 36 4 out = String.list_byte_of_string "data"
  /\ field 40 4 out = le_bytes 4 n.
Proof. repeat split. Qed.

(** X9. What [encode_audio_to_wav] returns reads back as what it was
    given: 44 bytes of header followed by the audio unchanged, and in the
    header the channel count, the sample rate, the byte rate, the frame
    size, the bits per sample and the two lengths (the audio's, and 36
    more) at their places. *)
Theorem encode_audio_to_wav_reads_back
    (audio_data : bytes) (sample_rate sample_width channels : Z) (out : bytes) :
  encode_audio_to_wav audio_data sample_rate sample_width channels = Ok out ->
  length out = (44 + length audio_data)%nat
  /\ drop 44 out = audio_data
  /\ field 0 4 out = String.list_byte_of_string "RIFF"
  /\ le_value (field 4 4 out) = 36 + Z.of_nat (length audio_data)
  /\ field 8 8 out = String.list_byte_of_string "WAVEfmt "
  /\ le_value (field 20 2 out) = 1
  /\ le_value (field 22 2 out) = channels
  /\ le_value (field 24 4 out) = sample_rate
  /\ le_value (field 28 4 out) = channels * sample_rate * sample_width
  /\ le_value (field 32 2 out) = channels * sample_width
  /\ le_value (field 34 2 out) = sample_width * 8
  /\ field 36 4 out = String.list_byte_of_string "data"
  /\ le_value (field 40 4 out) = Z.of_nat (length audio_data).
Proof.
  intros Hout. apply encode_audio_to_wav_inv in Hout as [Hok ->].
  destruct Hok as (Hc & Hs & Hr & Hbr & Hba & Hn).
  pose proof (field_header_bytes channels sample_width sample_rate
                (Z.of_nat (length audio_data)) audio_data) as Hf.
  cbv zeta in Hf.
  destruct Hf as (F0 & F1 & F2 & F3 & F4 & F5 & F6 & F7 & F8 & F9 & F10 & F11 & F12).
  rewrite F0, F1, F2, F3, F5, F6, F7, F8, F9, F10, F11, F12.
  rewrite !le_value_le_bytes
    by (change (8 * Z.of_nat 4) with 32; change (8 * Z.of_nat 2) with 16;
        try lia; nia).
  repeat split.
Qed.

Lemma encode_audio_to_wav_succeeds_iff_witness :
  exists out, encode_audio_to_wav [x01; x00; x02] 24000 2 1 = Ok out.
Proof.
  apply (proj2 (encode_audio_to_wav_succeeds_iff [x01; x00; x02] 24000 2 1)).
  unfold wav_encodable. simpl. lia.
Defined.

Lemma encode_audio_to_wav_reads_back_witness :
  let out := empty_wav_24k in
  length out = 44%nat /\ drop 44 out = [] /\ le_value (field 24 4 out) = 24000.
Proof.
  destruct (encode_audio_to_wav_reads_back [] 24000 2 1 empty_wav_24k eq_refl)
    as (Hlen & Hdrop & _ & _ & _ & _ & _ & Hrate & _).
  split; [exact Hlen|]. split; [exact Hdrop|exact Hrate].
Defined.

(* ===================================================================== *)
(** ** Streams, the cache over many calls, and files                       *)
(* ===================================================================== *)

Lemma empty_wav_24k_header : empty_wav_24k = header_bytes 1 2 24000 0.
Proof. reflexivity. Qed.

Section StreamFacts.

Context {tensor ndarray latents : Type}.
Variable postprocess : tensor -> ndarray.
Variable tobytes : ndarray -> bytes.
Variable abspath : str -> str.
Variable model_get_conditioning_latents : nat -> str -> result latents.
Variable model_inference_stream :
  str -> str -> latents -> pyval -> bool -> list tensor * option exn.
Variable model_inference : str -> str -> latents -> result tensor.
Variable open_wb : str -> option exn.

(** The generator ends as the iterator does. *)
Lemma stream_loop_end (add_wav_header : bool) (i : nat)
    (chunks : list tensor) (stop : option exn) :
  snd (stream_loop postprocess tobytes add_wav_header i chunks stop)
  = match stop with Some e => Raise e | None => Ok tt end.
Proof.
  revert i. induction chunks as [|c chunks IH]; intros i; [reflexivity|].
  cbn [stream_loop]. specialize (IH (S i)).
  destruct (Nat.eqb i 0 && add_wav_header).
  - rewrite encode_empty_24k.
    destruct (stream_loop postprocess tobytes add_wav_header (S i) chunks stop).
    exact IH.
  - destruct (stream_loop postprocess tobytes add_wav_header (S i) chunks stop).
    exact IH.
Qed.

Lemma stream_loop_plain (i : nat) (chunks : list tensor) (stop : option exn) :
  fst (stream_loop postprocess tobytes false i chunks stop)
  = map (fun c => tobytes (postprocess c)) chunks.
Proof.
  revert i. induction chunks as [|c chunks IH]; intros i; [reflexivity|].
  cbn [stream_loop]. rewrite andb_false_r. specialize (IH (S i)).
  destruct (stream_loop postprocess tobytes false (S i) chunks stop).
  simpl in *. congruence.
Qed.

(** X10. With [add_wav_header=False], and the speaker features at hand,
    [tts_stream] yields the bytes of each post-processed chunk, in order,
    and nothing else.  With either setting the generator ends the way the
    synthesis iterator does: with its exception when it raises, after
    every chunk produced before has been yielded. *)
Theorem tts_stream_plain_and_end
    (self self' : XTTSStreamingTTS latents) (text speaker_wav language : str)
    (stream_chunk_size : pyval) (enable_text_splitting : bool)
    (lat : latents) (chunks : list tensor) (stop : option exn) :
  get_conditioning_latents abspath model_get_conditioning_latents self
    speaker_wav true = (Ok lat, self') ->
  model_inference_stream text language lat stream_chunk_size
    enable_text_splitting = (chunks, stop) ->
  fst (fst (tts_stream postprocess tobytes abspath
              model_get_conditioning_latents model_inference_stream
              self text speaker_wav language stream_chunk_size false
              enable_text_splitting))
  = map (fun c => tobytes (postprocess c)) chunks
  /\ (forall add_wav_header,
        snd (fst (tts_stream postprocess tobytes abspath
                    model_get_conditioning_latents model_inference_stream
                    self text speaker_wav language stream_chunk_size
                    add_wav_header enable_text_splitting))
        = match stop with Some e => Raise e | None => Ok tt end
        /\ (length chunks
            <= length (fst (fst (tts_stream postprocess tobytes abspath
                    model_get_conditioning_latents model_inference_stream
                    self text speaker_wav language stream_chunk_size
                    add_wav_header enable_text_splitting))))%nat).
Proof.
  intros Hlat Hchunks. unfold tts_stream. rewrite Hlat, Hchunks. cbn [fst snd].
  split; [apply stream_loop_plain|].
  intros add. split; [apply stream_loop_end|].
  destruct add.
  - rewrite stream_loop_header. destruct chunks; simpl; [lia|].
    rewrite length_map. lia.
  - rewrite stream_loop_plain, length_map. lia.
Qed.

(** X11. The bytes [tts_stream] yields with its header, put end to end,
    are not the WAV that [encode_audio_to_wav] makes of the same audio:
    the audio and the format fields are the same, but the streamed header
    gives the audio a length of 0 and the RIFF chunk a length of 36,
    where the encoder writes the length of the audio and 36 more. *)
Theorem streamed_wav_declares_no_data
    (self self' : XTTSStreamingTTS latents) (text speaker_wav language : str)
    (stream_chunk_size : pyval) (enable_text_splitting : bool)
    (lat : latents) (chunks : list tensor) (stop : option exn) (out : bytes) :
  get_conditioning_latents abspath model_get_conditioning_latents self
    speaker_wav true = (Ok lat, self') ->
  model_inference_stream text language lat stream_chunk_size
    enable_text_splitting = (chunks, stop) ->
  concat (map (fun c => tobytes (postprocess c)) chunks) <> [] ->
  encode_audio_to_wav (concat (map (fun c => tobytes (postprocess c)) chunks))
    24000 2 1 = Ok out ->
  let pcm := concat (map (fun c => tobytes (postprocess c)) chunks) in
  let streamed :=
    concat (fst (fst (tts_stream postprocess tobytes abspath
                        model_get_conditioning_latents model_inference_stream
                        self text speaker_wav language stream_chunk_size true
                        enable_text_splitting))) in
  drop 44 streamed = pcm
  /\ drop 44 out = pcm
  /\ field 8 32 streamed = field 8 32 out
  /\ le_value (field 40 4 streamed) = 0
  /\ le_value (field 40 4 out) = Z.of_nat (length pcm)
  /\ le_value (field 4 4 streamed) = 36
  /\ le_value (field 4 4 out) = 36 + Z.of_nat (length pcm)
  /\ streamed <> out.
Proof.
  intros Hlat Hchunks Hne Hout. cbv zeta.
  unfold tts_stream. rewrite Hlat, Hchunks. cbn [fst].
  rewrite stream_loop_header.
  destruct chunks as [|c chunks]; [contradiction Hne; reflexivity|].
  rewrite concat_cons.
  set (pcm := concat (map (fun c0 => tobytes (postprocess c0)) (c :: chunks))) in *.
  pose proof (encode_audio_to_wav_inv _ _ _ _ _ Hout) as [Hok ->].
  destruct Hok as (_ & _ & _ & _ & _ & Hn).
  rewrite empty_wav_24k_header.
  pose proof (field_header_bytes 1 2 24000 0 pcm) as Hs.
  pose proof (field_header_bytes 1 2 24000 (Z.of_nat (length pcm)) pcm) as Ho.
  cbv zeta in Hs, Ho.
  destruct Hs as (S0 & _ & S2 & _ & _ & _ & _ & _ & _ & _ & _ & _ & S12).
  destruct Ho as (O0 & _ & O2 & _ & _ & _ & _ & _ & _ & _ & _ & _ & O12).
  assert (Hlen : 0 < Z.of_nat (length pcm)).
  { destruct pcm; [contradiction Hne; reflexivity|]. simpl. lia. }
  assert (Hfield : le_value (field 40 4 (header_bytes 1 2 24000 0 ++ pcm)) = 0).
  { rewrite S12. reflexivity. }
  assert (Hfield' : le_value (field 40 4
                      (header_bytes 1 2 24000 (Z.of_nat (length pcm)) ++ pcm))
                    = Z.of_nat (length pcm)).
  { rewrite O12. apply le_value_le_bytes. change (8 * Z.of_nat 4) with 32. lia. }
  split; [exact S0|]. split; [exact O0|]. split; [reflexivity|].
  split; [exact Hfield|]. split; [exact Hfield'|].
  split; [rewrite S2; reflexivity|].
  split; [rewrite O2; apply le_value_le_bytes;
          change (8 * Z.of_nat 4) with 32; lia|].
  intros Heq. rewrite Heq in Hfield. lia.
Qed.

End StreamFacts.

Section CacheFacts.

Context {latents : Type}.
Variable abspath : str -> str.
Variable model_get_conditioning_latents : nat -> str -> result latents.

Lemma get_conditioning_latents_keeps_entry
    (self : XTTSStreamingTTS latents) (speaker_wav : str) (use_cache : bool)
    (k : str) (v : latents) :
  _speaker_cache self !! k = Some v ->
  _speaker_cache
    (snd (get_conditioning_latents abspath model_get_conditioning_latents
            self speaker_wav use_cache)) !! k = Some v.
Proof.
  intros Hk. unfold get_conditioning_latents.
  destruct use_cache.
  - destruct (_speaker_cache self !! abspath speaker_wav) as [cached|] eqn:Hc;
      [exact Hk|].
    destruct (model_get_conditioning_latents _ speaker_wav); simpl; [|exact Hk].
    rewrite lookup_insert_ne; [exact Hk|]. intros Heq. congruence.
  - destruct (model_get_conditioning_latents _ speaker_wav); exact Hk.
Qed.

Lemma get_conditioning_latents_log
    (self : XTTSStreamingTTS latents) (speaker_wav : str) (use_cache : bool) :
  exists more,
    extracted (snd (get_conditioning_latents abspath
                      model_get_conditioning_latents self speaker_wav use_cache))
    = extracted self ++ more
    /\ (length more <= 1)%nat.
Proof.
  unfold get_conditioning_latents.
  destruct (if use_cache then _speaker_cache self !! abspath speaker_wav else None).
  - exists []. rewrite app_nil_r. simpl. auto.
  - exists [speaker_wav].
    destruct (model_get_conditioning_latents _ speaker_wav); simpl; auto.
Qed.

(** X13. Whatever calls of [get_conditioning_latents] follow, with or
    without [use_cache], on any paths and whether the extraction succeeds
    or raises, an entry of the speaker cache keeps the value it has: the
    cache is never overwritten and nothing is ever removed from it.  The
    calls hand at most one file each to the extraction, after those handed
    before. *)
Theorem speaker_cache_entries_are_kept
    (calls : list (str * bool)) (self : XTTSStreamingTTS latents)
    (k : str) (v : latents) :
  _speaker_cache self !! k = Some v ->
  _speaker_cache
    (latents_calls abspath model_get_conditioning_latents calls self) !! k
  = Some v
  /\ exists more,
       extracted (latents_calls abspath model_get_conditioning_latents calls self)
       = extracted self ++ more
       /\ (length more <= length calls)%nat.
Proof.
  revert self. induction calls as [|[speaker_wav use_cache] calls IH];
    intros self Hk.
  - split; [exact Hk|]. exists []. rewrite app_nil_r. auto.
  - cbn [latents_calls].
    pose proof (get_conditioning_latents_keeps_entry self speaker_wav use_cache
                  k v Hk) as Hk1.
    destruct (get_conditioning_latents_log self speaker_wav use_cache)
      as (m1 & Hm1 & Hl1).
    destruct (IH _ Hk1) as (Hkeep & m2 & Hm2 & Hl2).
    split; [exact Hkeep|].
    exists (m1 ++ m2). rewrite Hm2, Hm1, <- app_assoc.
    split; [reflexivity|]. rewrite length_app. simpl. lia.
Qed.

(** X14. Two ways a call of [get_conditioning_latents] leaves the cache
    as it was.  When the extraction raises, the call raises the same
    exception and caches nothing, so the next call for that file hands it
    to the extraction again.  With [use_cache=False] the call always hands
    the file to the extraction and returns its answer, also when the cache
    holds a value for it. *)
Theorem get_conditioning_latents_uncached
    (self : XTTSStreamingTTS latents) (speaker_wav : str) :
  let n := length (extracted self) in
  (forall e,
     _speaker_cache self !! abspath speaker_wav = None ->
     model_get_conditioning_latents n speaker_wav = Raise e ->
     let '(r, self1) :=
       get_conditioning_latents abspath model_get_conditioning_latents
         self speaker_wav true in
     r = Raise e
     /\ _speaker_cache self1 = _speaker_cache self
     /\ extracted self1 = extracted self ++ [speaker_wav]
     /\ fst (get_conditioning_latents abspath model_get_conditioning_latents
               self1 speaker_wav true)
        = model_get_conditioning_latents (S n) speaker_wav
     /\ extracted
          (snd (get_conditioning_latents abspath model_get_conditioning_latents
                  self1 speaker_wav true))
        = extracted self ++ [speaker_wav; speaker_wav])
  /\ (let '(r, self1) :=
        get_conditioning_latents abspath model_get_conditioning_latents
          self speaker_wav false in
      r = model_get_conditioning_latents n speaker_wav
      /\ _speaker_cache self1 = _speaker_cache self
      /\ extracted self1 = extracted self ++ [speaker_wav]).
Proof.
  intros n. subst n. split.
  - intros e Hc He. unfold get_conditioning_latents at 1. rewrite Hc, He.
    split; [reflexivity|]. split; [reflexivity|]. split; [reflexivity|].
    unfold get_conditioning_latents. cbn [_speaker_cache extracted].
    rewrite Hc, length_app, Nat.add_1_r.
    destruct (model_get_conditioning_latents (S (length (extracted self)))
                speaker_wav); cbn [fst snd extracted];
      rewrite <- app_assoc; auto.
  - unfold get_conditioning_latents.
    destruct (model_get_conditioning_latents (length (extracted self))
                speaker_wav); auto.
Qed.

End CacheFacts.

Section FileFacts.

Context {tensor ndarray latents : Type}.
Variable postprocess : tensor -> ndarray.
Variable tobytes : ndarray -> bytes.
Variable abspath : str -> str.
Variable model_get_conditioning_latents : nat -> str -> result latents.
Variable model_inference_stream :
  str -> str -> latents -> pyval -> bool -> list tensor * option exn.
Variable model_inference : str -> str -> latents -> result tensor.
Variable open_wb : str -> option exn.

(** X15. [tts_to_file] writes all or nothing.  When it raises, whether
    in the synthesis, in the encoder or on opening the file, no file has
    changed.  When it returns, it returns [output_path], and that file holds
    44 bytes of header followed by the bytes of the post-processed audio,
    every other file being as before. *)
Theorem tts_to_file_all_or_nothing
    (self : XTTSStreamingTTS latents) (fs : files)
    (text speaker_wav output_path language : str) :
  let '(r, _, fs') :=
    tts_to_file postprocess tobytes abspath model_get_conditioning_latents
      model_inference open_wb self fs text speaker_wav output_path language in
  match r with
  | Raise _ => fs' = fs
  | Ok path =>
      path = output_path
      /\ (forall other, other <> output_path -> fs' !! other = fs !! other)
      /\ exists lat wav audio,
           model_inference text language lat = Ok wav
           /\ fs' !! output_path = Some audio
           /\ length audio = (44 + length (tobytes (postprocess wav)))%nat
           /\ drop 44 audio = tobytes (postprocess wav)
  end.
Proof.
  unfold tts_to_file, tts.
  destruct (get_conditioning_latents abspath model_get_conditioning_latents
              self speaker_wav true) as [[lat|e] self']; [|reflexivity].
  destruct (model_inference text language lat) as [wav|e] eqn:Hwav;
    cbn [bind]; [|reflexivity].
  destruct (encode_audio_to_wav (tobytes (postprocess wav)) 24000 2 1)
    as [audio|e] eqn:Henc; [|reflexivity].
  destruct (open_wb output_path) as [e|]; [reflexivity|].
  split; [reflexivity|]. split.
  - intros other Hne. apply lookup_insert_ne. congruence.
  - exists lat, wav, audio. split; [exact Hwav|].
    split; [apply lookup_insert_eq|].
    apply encode_audio_to_wav_inv in Henc as [_ ->].
    pose proof (field_header_bytes 1 2 24000
                  (Z.of_nat (length (tobytes (postprocess wav))))
                  (tobytes (postprocess wav))) as (Hdrop & _).
    split; [reflexivity|exact Hdrop].
Qed.

(** X16. [tts_stream_to_file] opens the file before the synthesis
    starts.  When the file does not open, nothing is synthesised and no
    file changes.  When it opens, the file ends up holding exactly the
    bytes the stream yielded, whatever it held before: all of them when the
    stream ends normally, those yielded before the exception when it
    raises, and none at all when the speaker features cannot be extracted,
    the call raising the exception in these two cases. *)
Theorem tts_stream_to_file_truncates
    (self : XTTSStreamingTTS latents) (fs : files)
    (text speaker_wav output_path language : str) (stream_chunk_size : pyval) :
  let stream :=
    tts_stream postprocess tobytes abspath model_get_conditioning_latents
      model_inference_stream self text speaker_wav language
      stream_chunk_size true true in
  let '(r, self', fs') :=
    tts_stream_to_file postprocess tobytes abspath
      model_get_conditioning_latents model_inference_stream open_wb
      self fs text speaker_wav output_path language stream_chunk_size in
  match open_wb output_path with
  | Some e => r = Raise e /\ self' = self /\ fs' = fs
  | None =>
      fs' !! output_path = Some (concat (fst (fst stream)))
      /\ (forall other, other <> output_path -> fs' !! other = fs !! other)
      /\ self' = snd stream
      /\ match snd (fst stream) with
         | Ok _ => r = Ok output_path
         | Raise e => r = Raise e
         end
      /\ (forall e,
            fst (get_conditioning_latents abspath
                   model_get_conditioning_latents self speaker_wav true)
            = Raise e ->
            r = Raise e /\ fs' !! output_path = Some [])
  end.
Proof.
  intros stream. subst stream. unfold tts_stream_to_file.
  destruct (open_wb output_path) as [e|]; [auto|].
  unfold tts_stream.
  destruct (get_conditioning_latents abspath model_get_conditioning_latents
              self speaker_wav true) as [[lat|e] self'].
  - destruct (model_inference_stream text language lat stream_chunk_size true)
      as [chunks stop].
    destruct (stream_loop postprocess tobytes true 0 chunks stop) as [out r].
    cbn [fst snd].
    split; [apply lookup_insert_eq|].
    split; [intros other Hne; apply lookup_insert_ne; congruence|].
    split; [reflexivity|]. split; [destruct r; reflexivity|].
    intros e; discriminate.
  - cbn [fst snd concat].
    split; [apply lookup_insert_eq|].
    split; [intros other Hne; apply lookup_insert_ne; congruence|].
    split; [reflexivity|]. split; [reflexivity|].
    intros e0 [= <-]. split; [reflexivity|apply lookup_insert_eq].
Qed.

End FileFacts.

(* ===================================================================== *)
(** ** More on the chat handlers                                           *)
(* ===================================================================== *)

Import ServerMore.

Lemma lstrip_head (s : str) (c : N) (t : str) :
  lstrip s = c :: t -> isspace_cp c = false.
Proof.
  induction s as [|x s IH]; [discriminate|].
  cbn [lstrip]. destruct (isspace_cp x) eqn:Hx; [exact IH|].
  intros [= <- _]. exact Hx.
Qed.

Lemma lstrip_keeps_last (u : str) (c : N) :
  isspace_cp c = false -> exists u', lstrip (u ++ [c]) = u' ++ [c].
Proof.
  intros Hc. induction u as [|x u IH].
  - exists []. simpl. rewrite Hc. reflexivity.
  - cbn [app lstrip]. destruct (isspace_cp x); [exact IH|].
    exists (x :: u). reflexivity.
Qed.

Lemma last_rev {A} (l : list A) : last (rev l) = head l.
Proof. destruct l as [|x l]; [reflexivity|]. cbn [rev]. apply last_snoc. Qed.

(** What [strip] returns neither starts nor ends with white space. *)
Lemma strip_trimmed (s : str) :
  strip s <> [] ->
  exists first last_,
    head (strip s) = Some first /\ isspace_cp first = false
    /\ last (strip s) = Some last_ /\ isspace_cp last_ = false.
Proof.
  unfold strip, rstrip. intros Hne.
  destruct (lstrip s) as [|c t] eqn:Hl; [contradiction Hne; reflexivity|].
  pose proof (lstrip_head s c t Hl) as Hc.
  destruct (lstrip_keeps_last (rev t) c Hc) as (u' & Hu).
  cbn [rev] in *.
  destruct (lstrip (rev t ++ [c])) as [|z w] eqn:Hz;
    [contradiction Hne; reflexivity|].
  exists c, z.
  split; [rewrite Hu, rev_app_distr; reflexivity|].
  split; [exact Hc|].
  split; [rewrite last_rev; reflexivity|].
  exact (lstrip_head _ _ _ Hz).
Qed.

Section MoreHandlerFacts.

Context {tensor ndarray latents : Type}.
Variable postprocess : tensor -> ndarray.
Variable tobytes : ndarray -> bytes.
Variable abspath : str -> str.
Variable model_get_conditioning_latents : nat -> str -> result latents.
Variable model_inference_stream :
  str -> str -> latents -> pyval -> bool -> list tensor * option exn.
Variable model_inference : str -> str -> latents -> result tensor.
Variable open_wb : str -> option exn.
Variable backend : nat -> pyval -> str -> result str.
Variable quote : str -> str.
Variable SPEAKER_WAV : str.
Variable path_join : str -> str -> str.
Variable OUTPUT_DIR : str.
Variable uuid4_hex : str.
Variable transferable : latents -> pyval.

Let serve :=
  handle postprocess tobytes abspath model_get_conditioning_latents
    model_inference open_wb backend quote SPEAKER_WAV path_join OUTPUT_DIR
    uuid4_hex.

Let body :=
  send_body postprocess tobytes abspath model_get_conditioning_latents
    model_inference_stream SPEAKER_WAV.

(** X17. The text a chat handler accepts and hands to
    [chat_with_retry] is never empty and neither starts nor ends with a
    white-space character; it is the stripped [text] string of a body that
    is a JSON object. *)
Theorem accepted_text_is_trimmed (data : pyval) (user_text : str) :
  check_text data = Ok (Accepted user_text) ->
  (exists d s, data = PDict d /\ dict_get (lit "text") d = Some (PStr s)
               /\ user_text = strip s)
  /\ exists first last_,
       head user_text = Some first /\ isspace_cp first = false
       /\ last user_text = Some last_ /\ isspace_cp last_ = false.
Proof.
  intros Hcheck. pose proof (check_text_gate data) as Hgate.
  rewrite Hcheck in Hgate. destruct Hgate as (d & s & -> & Hd & -> & Hne).
  split; [eauto|]. apply strip_trimmed, Hne.
Qed.

(** X18. When the text is accepted and [chat_with_retry] raises, each of
    the three chat handlers answers 500 with the text of that exception;
    the synthesis has not been called and the engine is untouched, the key
    manager is left as [chat_with_retry] left it, and sending the response
    calls nothing. *)
Theorem chat_backend_failure_starts_no_synthesis
    (ep : chat_endpoint) (data : pyval) (g : globals latents)
    (user_text : str) (e : exn) :
  check_text data = Ok (Accepted user_text) ->
  fst (fst (chat_with_retry backend user_text (key_manager g) None)) = Raise e ->
  let '(resp, g', calls) := serve ep data g in
  resp = JsonError 500 (Failure (exn_str e))
  /\ (forall text, ~ In (Synthesis text) calls)
  /\ tts_model g' = tts_model g
  /\ key_manager g'
     = snd (fst (chat_with_retry backend user_text (key_manager g) None))
  /\ body resp g' = ([], g', []).
Proof.
  intros Hcheck Hraise. subst serve body.
  assert (Hask : exists km' evs,
            chat_with_retry backend user_text (key_manager g) None
            = (Raise e, km', evs)).
  { destruct (chat_with_retry backend user_text (key_manager g) None)
      as [[r km'] evs]. simpl in Hraise. subst r. eauto. }
  destruct Hask as (km' & evs & Hask).
  assert (Hno : forall text, ~ In (Synthesis text) (map TextBackend evs)).
  { intros text Hin. apply in_map_iff in Hin as (ev & Hev & _). discriminate. }
  destruct ep; cbn [handle];
    unfold chat_and_speak, chat_and_speak_json, chat_and_speak_stream, ask;
    rewrite Hcheck, Hask; cbn; auto.
Qed.

(** X19. On a server whose cache holds the features of the reference
    voice, as it does once started, when the reply was obtained but the
    synthesis engine fails: [/api/chat] and [/api/chat/json] answer 500
    with the text of the exception and write no file, while
    [/api/chat/stream] has returned its streamed response, of status 200
    with the two headers, before the synthesis started.  The generator of
    its body yields the header and the chunks made before the engine
    raised, or nothing at all when the engine raised before its first
    chunk, and then ends with the exception of the engine, which the
    handler can no longer turn into an error answer. *)
Theorem stream_hides_synthesis_failure
    (data : pyval) (g : globals latents) (user_text ai_response : str)
    (lat : latents) (e_whole e_stream : exn) (chunks : list tensor) :
  check_text data = Ok (Accepted user_text) ->
  fst (fst (chat_with_retry backend user_text (key_manager g) None))
  = Ok ai_response ->
  _speaker_cache (tts_model g) !! abspath SPEAKER_WAV = Some lat ->
  model_inference ai_response (lit "zh-cn") lat = Raise e_whole ->
  model_inference_stream ai_response (lit "zh-cn") lat
    (dict_get_default data (lit "stream_chunk_size") (PInt 20)) true
  = (chunks, Some e_stream) ->
  let yielded :=
    match chunks with
    | [] => []
    | _ :: _ => empty_wav_24k :: map (fun c => tobytes (postprocess c)) chunks
    end in
  fst (fst (serve ApiChat data g)) = JsonError 500 (Failure (exn_str e_whole))
  /\ fst (fst (serve ApiChatJson data g))
     = JsonError 500 (Failure (exn_str e_whole))
  /\ disk (snd (fst (serve ApiChat data g))) = disk g
  /\ disk (snd (fst (serve ApiChatJson data g))) = disk g
  /\ fst (fst (serve ApiChatStream data g))
     = Stream (quote (take 200 ai_response))
         (str_of_Z (estimated_chunks ai_response)) ai_response
         (dict_get_default data (lit "stream_chunk_size") (PInt 20))
  /\ status (fst (fst (serve ApiChatStream data g))) = 200
  /\ fst (fst (generate_speech_streaming postprocess tobytes abspath
                 model_get_conditioning_latents model_inference_stream
                 SPEAKER_WAV ai_response
                 (dict_get_default data (lit "stream_chunk_size") (PInt 20))
                 (snd (fst (serve ApiChatStream data g)))))
     = (yielded, Raise e_stream)
  /\ fst (fst (body (fst (fst (serve ApiChatStream data g)))
                    (snd (fst (serve ApiChatStream data g)))))
     = yielded.
Proof.
  intros Hcheck Hreply Hwarm Hwhole Hstream yielded. subst serve body yielded.
  destruct (chat_with_retry backend user_text (key_manager g) None)
    as [[r km'] evs] eqn:Hask.
  simpl in Hreply. subst r.
  assert (Hhit : get_conditioning_latents abspath
                   model_get_conditioning_latents (tts_model g) SPEAKER_WAV true
                 = (Ok lat, tts_model g)).
  { unfold get_conditioning_latents. rewrite Hwarm. reflexivity. }
  pose proof (stream_loop_header postprocess tobytes chunks (Some e_stream))
    as Hloop.
  pose proof (stream_loop_end postprocess tobytes true 0 chunks (Some e_stream))
    as Hend.
  cbn [handle].
  unfold chat_and_speak, chat_and_speak_json, chat_and_speak_stream, ask,
    generate_speech, tts_to_file, tts.
  rewrite Hcheck, Hask. cbn [tts_model key_manager disk]. rewrite Hhit, Hwhole.
  cbn [bind fst snd status send_body].
  unfold generate_speech_streaming, tts_stream. cbn [tts_model].
  rewrite Hhit, Hstream.
  destruct (stream_loop postprocess tobytes true 0 chunks (Some e_stream))
    as [out r].
  cbn [fst snd] in *. subst out r. repeat split; reflexivity.
Qed.

(** X20. On a key manager with no key (as [__init__] builds it from an
    empty list), every accepted chat request is answered 500 with the
    exhaustion message ending in [None]; the backend is never called, no
    synthesis is made and nothing changes. *)
Theorem chat_on_empty_key_list
    (ep : chat_endpoint) (data : pyval) (g : globals latents)
    (user_text : str) :
  total_keys (key_manager g) = 0 ->
  check_text data = Ok (Accepted user_text) ->
  serve ep data g
  = (JsonError 500 (Failure (exhausted_prefix ++ lit "None")), g, []).
Proof.
  intros Hzero Hcheck. subst serve.
  destruct g as [km model fs]. cbn [key_manager] in Hzero.
  destruct ep; cbn [handle];
    unfold chat_and_speak, chat_and_speak_json, chat_and_speak_stream, ask,
      chat_with_retry;
    rewrite Hcheck; cbn [key_manager tts_model]; rewrite Hzero; reflexivity.
Qed.

Lemma cache_hit (self : XTTSStreamingTTS latents) (speaker_wav : str)
    (lat : latents) :
  _speaker_cache self !! abspath speaker_wav = Some lat ->
  get_conditioning_latents abspath model_get_conditioning_latents self
    speaker_wav true = (Ok lat, self).
Proof. intros H. unfold get_conditioning_latents. rewrite H. reflexivity. Qed.

(** With the reference voice in the cache, handling a chat request and
    sending its body leave the engine as it is. *)
Lemma warm_engine_is_kept (g : globals latents) (lat : latents)
    (ep : chat_endpoint) (data : pyval) :
  _speaker_cache (tts_model g) !! abspath SPEAKER_WAV = Some lat ->
  tts_model (snd (fst (serve ep data g))) = tts_model g
  /\ tts_model (snd (fst (body (fst (fst (serve ep data g)))
                              (snd (fst (serve ep data g))))))
     = tts_model g.
Proof.
  intros Hwarm. pose proof (cache_hit (tts_model g) SPEAKER_WAV lat Hwarm) as Hhit.
  subst serve body.
  destruct ep; cbn [handle];
    unfold chat_and_speak, chat_and_speak_json, chat_and_speak_stream, ask,
      generate_speech, tts_to_file, tts, send_file.
  - pose proof (check_text_gate data) as Hgate.
    destruct (check_text data) as [[r|user_text]|e]; cbn [fst snd].
    + destruct r; cbn in Hgate; try discriminate. cbn. auto.
    + destruct (chat_with_retry backend user_text (key_manager g) None)
        as [[[ai|e] km'] evs]; cbn [tts_model key_manager disk]; [|cbn; auto].
      rewrite Hhit.
      destruct (model_inference ai (lit "zh-cn") lat) as [wav|e]; cbn [bind];
        [destruct (encode_audio_to_wav _ 24000 2 1);
         [destruct (open_wb _); cbn [disk];
          [|rewrite lookup_insert_eq]|]|]; cbn; auto.
    + cbn. auto.
  - pose proof (check_text_gate data) as Hgate.
    destruct (check_text data) as [[r|user_text]|e]; cbn [fst snd].
    + destruct r; cbn in Hgate; try discriminate. cbn. auto.
    + destruct (chat_with_retry backend user_text (key_manager g) None)
        as [[[ai|e] km'] evs]; cbn [tts_model key_manager disk]; [|cbn; auto].
      rewrite Hhit.
      destruct (model_inference ai (lit "zh-cn") lat) as [wav|e]; cbn [bind];
        [destruct (encode_audio_to_wav _ 24000 2 1);
         [destruct (open_wb _)|]|]; cbn; auto.
    + cbn. auto.
  - pose proof (check_text_gate data) as Hgate.
    destruct (check_text data) as [[r|user_text]|e]; cbn [fst snd].
    + destruct r; cbn in Hgate; try discriminate. cbn. auto.
    + destruct (chat_with_retry backend user_text (key_manager g) None)
        as [[[ai|e] km'] evs]; cbn [tts_model key_manager fst snd send_body];
        [|cbn; auto].
      split; [reflexivity|].
      unfold generate_speech_streaming, tts_stream. cbn [tts_model].
      rewrite Hhit.
      destruct (model_inference_stream ai (lit "zh-cn") lat _ true)
        as [chunks stop].
      destruct (stream_loop postprocess tobytes true 0 chunks stop).
      reflexivity.
    + cbn. auto.
Qed.

(** X21. Once the start of the server has computed the features of the
    reference voice, the chat handlers never extract again: whatever the
    key manager, the request and the backend, handling a request and
    sending its body leave the engine's cache and the list of extracted
    files as the start left them, with the reference voice as the only
    file ever extracted. *)
Theorem startup_warms_cache
    (key_file config_file : result pyval) (fs0 : files)
    (g0 : globals latents) (config embedding : pyval) :
  startup abspath model_get_conditioning_latents transferable SPEAKER_WAV
    key_file config_file fs0 = Ok (g0, config, embedding) ->
  extracted (tts_model g0) = [SPEAKER_WAV]
  /\ forall (ep : chat_endpoint) (data : pyval) (km : APIKeyManager)
            (fs : files),
       let g := {| key_manager := km; tts_model := tts_model g0;
                   disk := fs |} in
       tts_model (snd (fst (serve ep data g))) = tts_model g0
       /\ tts_model (snd (fst (body (fst (fst (serve ep data g)))
                                 (snd (fst (serve ep data g))))))
          = tts_model g0.
Proof.
  unfold startup, get_speaker_embedding_dict, get_conditioning_latents.
  destruct (init key_file) as [km0|]; cbn [bind]; [|discriminate].
  destruct (load_config config_file) as [cfg|]; cbn [bind]; [|discriminate].
  cbn [_speaker_cache extracted length]. rewrite lookup_empty.
  destruct (model_get_conditioning_latents 0%nat SPEAKER_WAV) as [lat|];
    [|discriminate].
  intros [= <- _ _]. split; [reflexivity|].
  intros ep data km fs.
  apply (warm_engine_is_kept
           {| key_manager := km;
              tts_model := {| _speaker_cache := <[abspath SPEAKER_WAV:=lat]> ∅;
                              extracted := [] ++ [SPEAKER_WAV] |};
              disk := fs |}
           lat ep data).
  cbn [tts_model _speaker_cache]. apply lookup_insert_eq.
Qed.

End MoreHandlerFacts.

(* ===================================================================== *)
(** ** Health, speaker cloning, speech recognition                         *)
(* ===================================================================== *)

Section ServiceFacts.

Context {latents : Type}.
Variable abspath : str -> str.
Variable model_get_conditioning_latents : nat -> str -> result latents.
Variable transferable : latents -> pyval.
Variable open_wb : str -> option exn.
Variable copy_stops : str -> bytes -> option (nat * exn).
Variable os_remove : str -> option exn.
Variable b64encode : bytes -> str.
Variable stt_api : pyval -> stt_outcome.

Let clone :=
  clone_speaker abspath model_get_conditioning_latents transferable open_wb
    copy_stops os_remove.

(** X22. On a well-formed pool and a configuration that is an object,
    [health_check] succeeds; it reports the number of credentials and the
    name of the active one, which is the very entry whose key the next
    [chat_with_retry] uses for its first attempt, whatever the backend and
    the message. *)
Theorem health_names_next_credential
    (config : list (str * pyval)) (g : globals latents) :
  wf_pool (key_manager g) = true ->
  exists h entry key,
    health_check (PDict config) g = Ok h
    /\ available_keys h = total_keys (key_manager g)
    /\ getitem_int (api_keys (key_manager g)) (current_index (key_manager g))
       = Ok entry
    /\ getitem_str entry (lit "name") = Ok (current_key h)
    /\ getitem_str entry (lit "key") = Ok key
    /\ forall backend user_message max_retries,
         (1 <= allowed (key_manager g) max_retries)%nat ->
         head (snd (chat_with_retry backend user_message (key_manager g)
                      max_retries))
         = Some (Attempt (current_index (key_manager g)) key).
Proof.
  intros Hwf. set (km := key_manager g) in *.
  destruct (wf_current_entry km Hwf) as (entry & Hentry & Hcred).
  destruct (credential_fields entry Hcred) as ((key & Hkey) & (name & Hname)).
  exists {| health_model := match dict_get (lit "model") config with
                            | Some x => x
                            | None => PNone
                            end;
            available_keys := total_keys km; current_key := name |}, entry, key.
  split.
  { unfold health_check, get_current_key_name. fold km.
    cbn [method_get bind]. rewrite Hentry. cbn [bind]. rewrite Hname.
    reflexivity. }
  split; [reflexivity|]. split; [exact Hentry|]. split; [exact Hname|].
  split; [exact Hkey|].
  intros backend user_message max_retries Hpos.
  unfold chat_with_retry. fold (allowed km max_retries).
  destruct (allowed km max_retries) as [|fuel]; [lia|].
  rewrite retry_loop_step by assumption.
  assert (Hk : key_of km = key).
  { unfold key_of, get_current_key. rewrite Hentry. cbn [bind]. rewrite Hkey.
    reflexivity. }
  rewrite Hk.
  destruct (backend 0%nat key user_message) as [response|e]; [reflexivity|].
  destruct (is_quota_error e); [|reflexivity].
  destruct (retry_loop backend user_message fuel 1 (Some e) (advanced km))
    as [[r km'] evs].
  reflexivity.
Qed.

(** X23. The temporary file of [clone_speaker].  With no upload, or
    when the file cannot be opened for the upload, nothing changes.  When
    the copy of the upload stops with an exception, the answer is 500, the
    engine has not been called, and the temporary file is left behind with
    the bytes written so far: the upload is saved outside the [try] whose
    [finally] removes the file.  When the upload is saved, the file is
    removed whether the extraction succeeded or raised, unless [os.remove]
    itself raises; then the file stays with the upload in it and the answer
    is 500 with the text of that exception.  In every case the other files
    and the key manager are untouched. *)
Theorem clone_speaker_temp_file
    (upload : option bytes) (temp_path : str) (g : globals latents) :
  let '(resp, g') := clone upload temp_path g in
  key_manager g' = key_manager g
  /\ (forall other, other <> temp_path -> disk g' !! other = disk g !! other)
  /\ match upload with
     | None => resp = CloneNoFile /\ g' = g
     | Some content =>
         match open_wb temp_path, copy_stops temp_path content,
               os_remove temp_path with
         | Some e, _, _ => resp = CloneFailed (exn_str e) /\ g' = g
         | None, Some (n, e), _ =>
             resp = CloneFailed (exn_str e)
             /\ tts_model g' = tts_model g
             /\ disk g' !! temp_path = Some (take n content)
         | None, None, Some e =>
             resp = CloneFailed (exn_str e)
             /\ disk g' !! temp_path = Some content
         | None, None, None =>
             disk g' !! temp_path = None
             /\ disk g' = delete temp_path (disk g)
         end
     end.
Proof.
  subst clone. unfold clone_speaker, save, remove_if_exists.
  destruct upload as [content|]; [|auto].
  destruct (open_wb temp_path) as [e|].
  { cbn [key_manager disk]. split; [reflexivity|]. split; [reflexivity|].
    split; [reflexivity|]. destruct g; reflexivity. }
  destruct (copy_stops temp_path content) as [[n e]|].
  { cbn [key_manager disk tts_model]. split; [reflexivity|].
    split; [intros other Hne; apply lookup_insert_ne; congruence|].
    split; [reflexivity|]. split; [reflexivity|apply lookup_insert_eq]. }
  destruct (get_speaker_embedding_dict abspath model_get_conditioning_latents
              transferable (tts_model g) temp_path) as [r model'].
  rewrite lookup_insert_eq.
  destruct (os_remove temp_path) as [e|]; cbn [key_manager disk].
  - split; [reflexivity|].
    split; [intros other Hne; apply lookup_insert_ne; congruence|].
    split; [reflexivity|apply lookup_insert_eq].
  - split; [reflexivity|].
    rewrite delete_insert_eq.
    split; [intros other Hne; apply lookup_delete_ne; congruence|].
    split; [apply lookup_delete_eq|reflexivity].
Qed.

(** X24. A clone of an upload that was saved, under a temporary path
    with no cache entry (the path is made of a fresh [uuid4]), always runs
    the extraction; when it succeeds the cache has one entry more, for the
    path of the temporary file, all the entries it had being kept.  When
    the file is then removed, the answer is the transferable form of the
    features, and the new cache entry is for a path with no file; when
    [os.remove] raises, the answer is 500 and the file stays, the cache
    entry being kept all the same. *)
Theorem clone_speaker_grows_cache
    (content : bytes) (temp_path : str) (g : globals latents)
    (lat : latents) :
  open_wb temp_path = None ->
  copy_stops temp_path content = None ->
  _speaker_cache (tts_model g) !! abspath temp_path = None ->
  model_get_conditioning_latents (length (extracted (tts_model g))) temp_path
  = Ok lat ->
  let '(resp, g') := clone (Some content) temp_path g in
  _speaker_cache (tts_model g')
  = <[abspath temp_path := lat]> (_speaker_cache (tts_model g))
  /\ size (_speaker_cache (tts_model g'))
     = S (size (_speaker_cache (tts_model g)))
  /\ extracted (tts_model g') = extracted (tts_model g) ++ [temp_path]
  /\ match os_remove temp_path with
     | None =>
         resp = CloneJson (transferable lat) /\ disk g' !! temp_path = None
     | Some e =>
         resp = CloneFailed (exn_str e)
         /\ disk g' !! temp_path = Some content
     end.
Proof.
  intros Hopen Hcopy Hfresh Hlat. subst clone.
  unfold clone_speaker, save, remove_if_exists, get_speaker_embedding_dict,
    get_conditioning_latents.
  rewrite Hopen, Hcopy, Hfresh, Hlat, lookup_insert_eq.
  destruct (os_remove temp_path) as [e|];
    cbn [tts_model _speaker_cache extracted disk].
  - split; [reflexivity|].
    split; [apply map_size_insert_None, Hfresh|].
    split; [reflexivity|]. split; [reflexivity|apply lookup_insert_eq].
  - split; [reflexivity|].
    split; [apply map_size_insert_None, Hfresh|].
    split; [reflexivity|]. split; [reflexivity|].
    rewrite delete_insert_eq. apply lookup_delete_eq.
Qed.

Lemma recognize_status (audio_content : pyval) :
  (stt_status (recognize stt_api audio_content) = 504
   <-> stt_api audio_content = PostTimeout)
  /\ (stt_status (recognize stt_api audio_content) = 200 ->
      exists result, stt_api audio_content = Answered 200 (Ok result))
  /\ (forall status_code result,
        stt_api audio_content = Answered status_code (Ok result) ->
        status_code <> 200 ->
        stt_status (recognize stt_api audio_content) = 400
        \/ stt_status (recognize stt_api audio_content) = 500).
Proof.
  unfold recognize.
  destruct (stt_api audio_content) as [|e|status_code [result|e]].
  - split; [split; auto|]. split; [discriminate|]. intros; discriminate.
  - split; [split; discriminate|]. split; [discriminate|]. intros; discriminate.
  - destruct (status_code =? 200) eqn:Hs; cbn [negb].
    + apply Z.eqb_eq in Hs. subst status_code.
      split.
      { split; [|discriminate].
        repeat match goal with
               | |- context [match ?x with _ => _ end] => destruct x; cbn
               end; discriminate. }
      split; [eauto|]. intros s r [= <- <-] Hne. contradiction.
    + split.
      { split; [|discriminate].
        repeat match goal with
               | |- context [match ?x with _ => _ end] => destruct x; cbn
               end; discriminate. }
      split.
      { repeat match goal with
               | |- context [match ?x with _ => _ end] => destruct x; cbn
               end; discriminate. }
      intros s r _ _.
      repeat match goal with
             | |- context [match ?x with _ => _ end] => destruct x; cbn
             end; auto.
  - split; [split; discriminate|]. split; [discriminate|]. intros; discriminate.
Qed.

(** X25. [speech_to_text] asks the recognition service at most once,
    and only with audio that is not empty.  It answers 504 exactly when
    that request timed out, and 200 only when the service answered with
    status 200 and a body that decodes; when the service answers with
    another status the answer is 400 or 500, never 200; when the service
    was not asked the answer is 400 or 500. *)
Theorem speech_to_text_statuses
    (file : option bytes) (is_json : bool) (data : pyval) :
  let '(resp, asked) := speech_to_text b64encode stt_api file is_json data in
  (asked = [] \/ exists audio, asked = [audio] /\ truthy audio = true)
  /\ (stt_status resp = 504
      <-> exists audio, asked = [audio] /\ stt_api audio = PostTimeout)
  /\ (stt_status resp = 200 ->
      exists audio result,
        asked = [audio] /\ stt_api audio = Answered 200 (Ok result))
  /\ (forall audio status_code result,
        asked = [audio] ->
        stt_api audio = Answered status_code (Ok result) ->
        status_code <> 200 ->
        stt_status resp = 400 \/ stt_status resp = 500)
  /\ (asked = [] -> stt_status resp = 400 \/ stt_status resp = 500).
Proof.
  unfold speech_to_text.
  destruct (match file with
            | Some content => Ok (PStr (b64encode content))
            | None => if is_json then method_get data (lit "audio") else Ok PNone
            end) as [audio|e].
  2:{ cbn. split; [auto|]. split; [split; [discriminate|intros (? & ? & _); discriminate]|].
      split; [discriminate|]. split; [intros; discriminate|auto]. }
  destruct (truthy audio) eqn:Ht; cbn [negb].
  2:{ cbn. split; [auto|]. split; [split; [discriminate|intros (? & ? & _); discriminate]|].
      split; [discriminate|]. split; [intros; discriminate|auto]. }
  destruct (recognize_status audio) as (H504 & H200 & Hother).
  split; [right; eauto|].
  split.
  { rewrite H504. split; [eauto|]. intros (a & [= <-] & Ha). exact Ha. }
  split.
  { intros H. destruct (H200 H) as (result & Hr). eauto. }
  split.
  { intros a s r [= <-] Ha Hs. eapply Hother; eauto. }
  intros; discriminate.
Qed.

End ServiceFacts.

(* ===================================================================== *)
(** ** Instances on the sample engine                                      *)
(* ===================================================================== *)

(** The two chunks of the sample engine, streamed without a header. *)
Lemma tts_stream_plain_and_end_witness :
  fst (fst (tts_stream (fun b : bytes => b) (fun b : bytes => b) (fun p => p)
              Samples.engine_latents Samples.engine_stream
              Samples.fresh_tts (lit "hello") (lit "Morgan Freeman.wav")
              (lit "zh-cn") (PInt 20) false true))
  = [[x01; x00; x02; x00]; [x03; x00]].
Proof.
  apply (proj1 (tts_stream_plain_and_end (fun b : bytes => b)
                  (fun b : bytes => b) (fun p => p)
                  Samples.engine_latents Samples.engine_stream
                  Samples.fresh_tts
                  (snd (get_conditioning_latents (fun p => p)
                          Samples.engine_latents Samples.fresh_tts
                          (lit "Morgan Freeman.wav") true))
                  (lit "hello") (lit "Morgan Freeman.wav") (lit "zh-cn")
                  (PInt 20) true 0%nat [[x01; x00; x02; x00]; [x03; x00]] None
                  eq_refl eq_refl)).
Defined.

(** Six bytes of audio: the stream says 0, the encoder says 6. *)
Lemma streamed_wav_declares_no_data_witness :
  let streamed :=
    concat (fst (fst (tts_stream (fun b : bytes => b) (fun b : bytes => b)
                        (fun p => p) Samples.engine_latents Samples.engine_stream
                        Samples.fresh_tts (lit "hello")
                        (lit "Morgan Freeman.wav") (lit "zh-cn") (PInt 20)
                        true true))) in
  let out := header_bytes 1 2 24000 6 ++ [x01; x00; x02; x00; x03; x00] in
  le_value (field 40 4 streamed) = 0 /\ le_value (field 40 4 out) = 6.
Proof.
  destruct (streamed_wav_declares_no_data (fun b : bytes => b)
              (fun b : bytes => b) (fun p => p)
              Samples.engine_latents Samples.engine_stream
              Samples.fresh_tts
              (snd (get_conditioning_latents (fun p => p)
                      Samples.engine_latents Samples.fresh_tts
                      (lit "Morgan Freeman.wav") true))
              (lit "hello") (lit "Morgan Freeman.wav") (lit "zh-cn")
              (PInt 20) true 0%nat [[x01; x00; x02; x00]; [x03; x00]] None
              (header_bytes 1 2 24000 6 ++ [x01; x00; x02; x00; x03; x00])
              eq_refl eq_refl ltac:(discriminate) eq_refl)
    as (_ & _ & _ & Hs & Ho & _).
  split; [exact Hs|exact Ho].
Defined.

(** A cached voice survives a call for another file and a call that
    bypasses the cache. *)
Lemma speaker_cache_entries_are_kept_witness :
  _speaker_cache
    (latents_calls (fun p => p) Samples.engine_latents
       [(lit "/tmp/other.wav", true); (lit "/srv/voice.wav", false)]
       MoreSamples.warm_tts) !! lit "/srv/voice.wav"
  = Some 7%nat.
Proof.
  apply (proj1 (speaker_cache_entries_are_kept (fun p => p)
                  Samples.engine_latents
                  [(lit "/tmp/other.wav", true); (lit "/srv/voice.wav", false)]
                  MoreSamples.warm_tts (lit "/srv/voice.wav") 7%nat eq_refl)).
Defined.

(** The text [" hello "] is accepted as ["hello"]. *)
Lemma accepted_text_is_trimmed_witness :
  exists first last_,
    head (lit "hello") = Some first /\ isspace_cp first = false
    /\ last (lit "hello") = Some last_ /\ isspace_cp last_ = false.
Proof.
  apply (proj2 (accepted_text_is_trimmed MoreSamples.hello_body (lit "hello")
                  eq_refl)).
Defined.

(** A backend out of quota on every key, asked through [/api/chat]. *)
Lemma chat_backend_failure_starts_no_synthesis_witness :
  let '(resp, g', calls) :=
    handle (fun b : bytes => b) (fun b : bytes => b) (fun p => p)
      Samples.engine_latents Samples.engine_inference MoreSamples.opens
      Samples.always_quota (fun s => s) (lit "Morgan Freeman.wav")
      MoreSamples.join MoreSamples.outputs MoreSamples.uuid
      ApiChat MoreSamples.hello_body Samples.fresh_globals in
  resp = JsonError 500
           (Failure (exhausted_prefix ++ exn_str Samples.quota_error))
  /\ (forall text, ~ In (Synthesis text) calls)
  /\ tts_model g' = Samples.fresh_tts.
Proof.
  pose proof (chat_backend_failure_starts_no_synthesis
                (fun b : bytes => b) (fun b : bytes => b) (fun p => p)
                Samples.engine_latents Samples.engine_stream
                Samples.engine_inference MoreSamples.opens
                Samples.always_quota (fun s => s) (lit "Morgan Freeman.wav")
                MoreSamples.join MoreSamples.outputs MoreSamples.uuid
                ApiChat MoreSamples.hello_body Samples.fresh_globals
                (lit "hello")
                (Exn Exception (exhausted_prefix ++ exn_str Samples.quota_error))
                eq_refl eq_refl) as H.
  destruct (handle (fun b : bytes => b) (fun b : bytes => b) (fun p => p)
      Samples.engine_latents Samples.engine_inference MoreSamples.opens
      Samples.always_quota (fun s => s) (lit "Morgan Freeman.wav")
      MoreSamples.join MoreSamples.outputs MoreSamples.uuid
      ApiChat MoreSamples.hello_body Samples.fresh_globals)
    as [[resp g'] calls].
  destruct H as (Hresp & Hno & Hmodel & _).
  split; [exact Hresp|]. split; [exact Hno|exact Hmodel].
Defined.

(** The started server, with an engine that runs out of memory. *)
Lemma stream_hides_synthesis_failure_witness :
  fst (fst (MoreSamples.sample_handle MoreSamples.failing_inference
              MoreSamples.answering ApiChat MoreSamples.hello_body
              MoreSamples.started_globals))
  = JsonError 500 (Failure (lit "CUDA out of memory"))
  /\ status (fst (fst (MoreSamples.sample_handle MoreSamples.failing_inference
                         MoreSamples.answering ApiChatStream
                         MoreSamples.hello_body MoreSamples.started_globals)))
     = 200
  /\ fst (fst (send_body (fun b : bytes => b) (fun b : bytes => b)
                 (fun p => p) Samples.engine_latents
                 MoreSamples.failing_stream (lit "Morgan Freeman.wav")
                 (fst (fst (MoreSamples.sample_handle
                              MoreSamples.failing_inference
                              MoreSamples.answering ApiChatStream
                              MoreSamples.hello_body
                              MoreSamples.started_globals)))
                 (snd (fst (MoreSamples.sample_handle
                              MoreSamples.failing_inference
                              MoreSamples.answering ApiChatStream
                              MoreSamples.hello_body
                              MoreSamples.started_globals)))))
     = [empty_wav_24k; [x01; x00]].
Proof.
  destruct (stream_hides_synthesis_failure
              (fun b : bytes => b) (fun b : bytes => b) (fun p => p)
              Samples.engine_latents MoreSamples.failing_stream
              MoreSamples.failing_inference MoreSamples.opens
              MoreSamples.answering (fun s => s)
              (lit "Morgan Freeman.wav") MoreSamples.join MoreSamples.outputs
              MoreSamples.uuid MoreSamples.hello_body
              MoreSamples.started_globals (lit "hello") (lit "welcome")
              0%nat MoreSamples.engine_failure MoreSamples.engine_failure
              [[x01; x00]]
              eq_refl eq_refl eq_refl eq_refl eq_refl)
    as (Hchat & _ & _ & _ & _ & Hstatus & _ & Hbody).
  split; [exact Hchat|]. split; [exact Hstatus|exact Hbody].
Defined.

(** The manager built from an empty list, asked through [/api/chat/json]. *)
Lemma chat_on_empty_key_list_witness :
  handle (fun b : bytes => b) (fun b : bytes => b) (fun p => p)
    Samples.engine_latents Samples.engine_inference MoreSamples.opens
    MoreSamples.answering (fun s => s) (lit "Morgan Freeman.wav")
    MoreSamples.join MoreSamples.outputs MoreSamples.uuid
    ApiChatJson MoreSamples.hello_body MoreSamples.empty_globals
  = (JsonError 500 (Failure (exhausted_prefix ++ lit "None")),
     MoreSamples.empty_globals, []).
Proof.
  apply (chat_on_empty_key_list (fun b : bytes => b) (fun b : bytes => b)
           (fun p => p) Samples.engine_latents Samples.engine_inference
           MoreSamples.opens
           MoreSamples.answering (fun s => s) (lit "Morgan Freeman.wav")
           MoreSamples.join MoreSamples.outputs MoreSamples.uuid
           ApiChatJson MoreSamples.hello_body MoreSamples.empty_globals
           (lit "hello")).
  - reflexivity.
  - reflexivity.
Defined.

(** The start of the server on the pool of three. *)
Lemma startup_warms_cache_witness :
  extracted (tts_model MoreSamples.started_globals) = [lit "Morgan Freeman.wav"].
Proof.
  apply (proj1 (startup_warms_cache (fun b : bytes => b) (fun b : bytes => b)
                  (fun p => p) Samples.engine_latents Samples.engine_stream
                  Samples.engine_inference MoreSamples.opens
                  MoreSamples.answering (fun s => s)
                  (lit "Morgan Freeman.wav") MoreSamples.join
                  MoreSamples.outputs MoreSamples.uuid MoreSamples.as_number
                  Samples.key_file3 (Ok (PDict [])) ∅
                  MoreSamples.started_globals (PDict []) (PInt 0) eq_refl)).
Defined.

(** The pool of three on its first credential. *)
Lemma health_names_next_credential_witness :
  exists h entry key,
    health_check (PDict []) Samples.fresh_globals = Ok h
    /\ available_keys h = 3
    /\ getitem_int Samples.pool3 0 = Ok entry
    /\ getitem_str entry (lit "name") = Ok (current_key h)
    /\ getitem_str entry (lit "key") = Ok key.
Proof.
  destruct (health_names_next_credential [] Samples.fresh_globals eq_refl)
    as (h & entry & key & H1 & H2 & H3 & H4 & H5 & _).
  exists h, entry, key. repeat (split; [assumption|]). assumption.
Defined.

(** An upload of two bytes on a disk that takes only the first: the
    answer is 500 and the temporary file stays, one byte long. *)
Lemma clone_speaker_temp_file_witness :
  let '(resp, g') :=
    clone_speaker (fun p => p) Samples.engine_latents MoreSamples.as_number
      MoreSamples.opens MoreSamples.disk_full MoreSamples.removes
      (Some [x01; x02]) (lit "/tmp/clone_1.wav") Samples.fresh_globals in
  resp = CloneFailed (lit "[Errno 28] No space left on device")
  /\ tts_model g' = tts_model Samples.fresh_globals
  /\ disk g' !! lit "/tmp/clone_1.wav" = Some [x01].
Proof.
  apply (proj2 (proj2 (clone_speaker_temp_file (fun p => p)
                         Samples.engine_latents MoreSamples.as_number
                         MoreSamples.opens MoreSamples.disk_full
                         MoreSamples.removes (Some [x01; x02])
                         (lit "/tmp/clone_1.wav") Samples.fresh_globals))).
Defined.

(** One upload on a fresh engine. *)
Lemma clone_speaker_grows_cache_witness :
  let '(resp, g') :=
    clone_speaker (fun p => p) Samples.engine_latents MoreSamples.as_number
      MoreSamples.opens MoreSamples.copies MoreSamples.removes
      (Some [x01; x02]) (lit "/tmp/clone_1.wav") Samples.fresh_globals in
  _speaker_cache (tts_model g')
  = <[lit "/tmp/clone_1.wav" := 0%nat]>
      (_speaker_cache (tts_model Samples.fresh_globals))
  /\ size (_speaker_cache (tts_model g'))
     = S (size (_speaker_cache (tts_model Samples.fresh_globals)))
  /\ extracted (tts_model g')
     = extracted (tts_model Samples.fresh_globals) ++ [lit "/tmp/clone_1.wav"]
  /\ resp = CloneJson (MoreSamples.as_number 0)
  /\ disk g' !! lit "/tmp/clone_1.wav" = None.
Proof.
  apply (clone_speaker_grows_cache (fun p => p) Samples.engine_latents
           MoreSamples.as_number MoreSamples.opens MoreSamples.copies
           MoreSamples.removes [x01; x02]
           (lit "/tmp/clone_1.wav") Samples.fresh_globals 0%nat).
  - reflexivity.
  - reflexivity.
  - reflexivity.
  - reflexivity.
Defined.

(* ===================================================================== *)
(** ** A chat request from end to end                                      *)
(* ===================================================================== *)

Section ChatSuccessFacts.

Context {tensor ndarray latents : Type}.
Variable postprocess : tensor -> ndarray.
Variable tobytes : ndarray -> bytes.
Variable abspath : str -> str.
Variable model_get_conditioning_latents : nat -> str -> result latents.
Variable model_inference : str -> str -> latents -> result tensor.
Variable open_wb : str -> option exn.
Variable backend : nat -> pyval -> str -> result str.
Variable quote : str -> str.
Variable SPEAKER_WAV : str.
Variable path_join : str -> str -> str.
Variable OUTPUT_DIR : str.
Variable uuid4_hex : str.

Let serve :=
  handle postprocess tobytes abspath model_get_conditioning_latents
    model_inference open_wb backend quote SPEAKER_WAV path_join OUTPUT_DIR
    uuid4_hex.

(** X26. When the text is accepted, the backend gives a reply, the
    speaker features are available and the engine speaks the reply (in
    fewer than 2^32 - 36 bytes), the answer depends on whether the output
    file opens.  When it opens, [/api/chat] answers with the content of
    that file, a WAV: the 44-byte header of mono 16-bit 24 kHz audio
    carrying the length of the audio, followed by the bytes of the
    post-processed audio of that reply; [/api/chat/json] answers with the
    stripped text, the reply, the path of the file and its URL; and the
    file stays in the output directory, every other file being as before.
    When it does not open, both endpoints answer 500 with the text of that
    exception and no file changes, the synthesis having been made all the
    same.  In both cases the handler made the attempts of
    [chat_with_retry] and then one synthesis, of the whole reply. *)
Theorem chat_and_speak_file_or_open_error
    (data : pyval) (g : globals latents) (user_text ai_response : str)
    (lat : latents) (self' : XTTSStreamingTTS latents) (wav : tensor) :
  check_text data = Ok (Accepted user_text) ->
  fst (fst (chat_with_retry backend user_text (key_manager g) None))
  = Ok ai_response ->
  get_conditioning_latents abspath model_get_conditioning_latents
    (tts_model g) SPEAKER_WAV true = (Ok lat, self') ->
  model_inference ai_response (lit "zh-cn") lat = Ok wav ->
  36 + Z.of_nat (length (tobytes (postprocess wav))) < 2 ^ 32 ->
  let pcm := tobytes (postprocess wav) in
  let audio := header_bytes 1 2 24000 (Z.of_nat (length pcm)) ++ pcm in
  let name := output_filename uuid4_hex in
  let path := output_path path_join OUTPUT_DIR uuid4_hex in
  name = lit "output_" ++ take 8 uuid4_hex ++ lit ".wav"
  /\ path = path_join OUTPUT_DIR name
  /\ match open_wb path with
     | None =>
         fst (fst (serve ApiChat data g)) = SendFile audio name
         /\ fst (fst (serve ApiChatJson data g))
            = Json user_text ai_response path (lit "/api/audio/" ++ name)
         /\ disk (snd (fst (serve ApiChat data g)))
            = <[path := audio]> (disk g)
         /\ disk (snd (fst (serve ApiChatJson data g)))
            = <[path := audio]> (disk g)
     | Some e =>
         fst (fst (serve ApiChat data g)) = JsonError 500 (Failure (exn_str e))
         /\ fst (fst (serve ApiChatJson data g))
            = JsonError 500 (Failure (exn_str e))
         /\ disk (snd (fst (serve ApiChat data g))) = disk g
         /\ disk (snd (fst (serve ApiChatJson data g))) = disk g
     end
  /\ snd (serve ApiChat data g)
     = map TextBackend
         (snd (chat_with_retry backend user_text (key_manager g) None))
       ++ [Synthesis ai_response]
  /\ tts_model (snd (fst (serve ApiChat data g))) = self'.
Proof.
  intros Hcheck Hreply Hlat Hwav Hlen pcm audio name path.
  subst serve pcm audio name path.
  destruct (chat_with_retry backend user_text (key_manager g) None)
    as [[r km'] evs] eqn:Hask.
  cbn [fst snd] in *. subst r.
  assert (Henc : encode_audio_to_wav (tobytes (postprocess wav)) 24000 2 1
                 = Ok (header_bytes 1 2 24000
                         (Z.of_nat (length (tobytes (postprocess wav))))
                       ++ tobytes (postprocess wav))).
  { apply encode_audio_to_wav_encodable. unfold wav_encodable. lia. }
  split; [reflexivity|]. split; [reflexivity|].
  cbn [handle].
  unfold chat_and_speak, chat_and_speak_json, ask, generate_speech,
    tts_to_file, tts, send_file.
  rewrite Hcheck, Hask. cbn [tts_model key_manager disk]. rewrite Hlat, Hwav.
  cbn [bind]. rewrite Henc.
  destruct (open_wb (output_path path_join OUTPUT_DIR uuid4_hex)) as [e|];
    cbn [disk fst snd].
  - repeat split; reflexivity.
  - rewrite lookup_insert_eq. cbn [fst snd disk]. repeat split; reflexivity.
Qed.

End ChatSuccessFacts.

(** The sample engine speaks the reply in six bytes. *)
Lemma chat_and_speak_file_or_open_error_witness :
  fst (fst (MoreSamples.sample_handle Samples.engine_inference
              MoreSamples.answering ApiChat MoreSamples.hello_body
              MoreSamples.started_globals))
  = SendFile (header_bytes 1 2 24000 6 ++ [x01; x00; x02; x00; x03; x00])
      (lit "output_3f2b8c1d.wav")
  /\ disk (snd (fst (MoreSamples.sample_handle Samples.engine_inference
                       MoreSamples.answering ApiChat MoreSamples.hello_body
                       MoreSamples.started_globals)))
     = {[ lit "/srv/outputs/output_3f2b8c1d.wav"
          := header_bytes 1 2 24000 6 ++ [x01; x00; x02; x00; x03; x00] ]}.
Proof.
  destruct (chat_and_speak_file_or_open_error
              (fun b : bytes => b) (fun b : bytes => b) (fun p => p)
              Samples.engine_latents Samples.engine_inference MoreSamples.opens
              MoreSamples.answering (fun s => s) (lit "Morgan Freeman.wav")
              MoreSamples.join MoreSamples.outputs MoreSamples.uuid
              MoreSamples.hello_body MoreSamples.started_globals
              (lit "hello") (lit "welcome") 0%nat
              (tts_model MoreSamples.started_globals)
              [x01; x00; x02; x00; x03; x00]
              eq_refl eq_refl eq_refl eq_refl ltac:(simpl; lia))
    as (_ & _ & (Hchat & _ & Hdisk & _) & _).
  split; [exact Hchat|exact Hdisk].
Defined.
